(** * A shallow embedding of the chess rules engine of [chess.c]

    The board is the C array [u8 board[64]]: one byte per square, indexed
    row-major, with the bit layout documented at the top of the source file

      bit 7 (128)  piece selected
      bit 6 (64)   dot (candidate move) present on the square
      bit 5 (32)   pawn can be taken en passant
      bit 4 (16)   rook/king has not moved / pawn is a top pawn
      bit 3 (8)    colour of the piece
      bits 0..2    piece type

    Bytes and indices are integers of [Z]; the wrap-around of the [u8]
    variables is written out with [u8].  An access outside the array is
    undefined behaviour in C; here it is the error outcome [None] of the
    option monad, and the short-circuit evaluation of [&&] and [||]
    (which decides whether a read happens at all) is kept by [&&&] and
    [|||]. *)

From Stdlib Require Import ZArith Lia Bool List.
From stdpp Require Import base option list.

Local Open Scope Z_scope.

(** ** Bytes, the board and its accesses *)

Definition u8 (x : Z) : Z := x mod 256.

Abbreviation Board := (list Z).

(** [board[k]] as an rvalue. *)
Definition rd (board : Board) (k : Z) : option Z :=
  if 0 <=? k then board !! Z.to_nat k else None.

(** [board[k] = v;] the stored value is truncated to a byte. *)
Definition wr (board : Board) (k v : Z) : option Board :=
  if (0 <=? k) && (k <? Z.of_nat (length board))
  then Some (<[Z.to_nat k := u8 v]> board)
  else None.

(** What a square holds, for statements ([0] outside the board). *)
Definition cell (board : Board) (k : Z) : Z := default 0 (rd board k).

(** Short-circuit conjunction and disjunction of conditions that read
    the board: the right operand is consulted only when C evaluates it. *)
Definition andM (a b : option bool) : option bool :=
  x ← a; if x : bool then b else Some false.
Definition orM (a b : option bool) : option bool :=
  x ← a; if x : bool then Some true else b.
Infix "&&&" := andM (at level 40, left associativity).
Infix "|||" := orM (at level 50, left associativity).

(** [for (j = j0; j < j0 + n; j++) board = body j board] *)
Fixpoint for_range (n : nat) (j : Z) (body : Z → Board → option Board)
    (board : Board) : option Board :=
  match n with
  | O => Some board
  | S n' => b ← body j board; for_range n' (j + 1) body b
  end.

(** [for (j = 0; j < 64; j++) board[j] &= mask;] *)
Definition mask_all (mask : Z) (board : Board) : option Board :=
  for_range 64 0 (λ j b, x ← rd b j; wr b j (Z.land x mask)) board.

(** ** Constants of the source *)

Definition NONE := 0.
Definition PAWN := 1.
Definition KNIGHT := 2.
Definition BISHOP := 3.
Definition ROOK := 4.
Definition QUEEN := 5.
Definition KING := 6.
Definition WHITE := 0.
Definition BLACK := 8.

(** The fields of a square byte, as the source extracts them. *)
Definition piece (x : Z) : Z := Z.land x 7.
Definition color (x : Z) : Z := Z.land (Z.shiftr x 3) 1.
Definition flag16 (x : Z) : Z := Z.land (Z.shiftr x 4) 1.
Definition flag32 (x : Z) : Z := Z.land (Z.shiftr x 5) 1.
Definition dotted (x : Z) : Z := Z.land (Z.shiftr x 6) 1.
Definition selected (x : Z) : Z := Z.shiftr x 7.

(** ** setupBoard *)

Definition setupBoard (white_on_top : Z) : Board :=
  let '(side1, side2, left_middle, right_middle) :=
    if negb (white_on_top =? 0)
    then (WHITE, BLACK, Z.lor KING 16, QUEEN)
    else (BLACK, WHITE, QUEEN, Z.lor KING 16) in
  let back side :=
    [ Z.lor (Z.lor side ROOK) 16; Z.lor side KNIGHT; Z.lor side BISHOP;
      Z.lor side left_middle; Z.lor side right_middle;
      Z.lor side BISHOP; Z.lor side KNIGHT; Z.lor (Z.lor side ROOK) 16 ] in
  back side1
  ++ replicate 8 (Z.lor (Z.lor side1 PAWN) 16)
  ++ replicate 32 NONE
  ++ replicate 8 (Z.lor side2 PAWN)
  ++ back side2.

(** ** removeDots *)

Definition removeDots (board : Board) : option Board := mask_all 0xbf board.

(** ** dotSquare: the shared square rule

    Returns the board and the code [0] (same side, not dotted), [1]
    (empty square dotted) or [2] (occupied square dotted). *)
Definition dotSquare (board : Board) (pos n : Z) : option (Board * Z) :=
  x ← rd board n;
  if piece x =? NONE then
    b ← wr board n (Z.lor x 64); Some (b, 1)
  else
    p ← rd board pos;
    x ← rd board n;
    if negb (color p =? color x) then
      b ← wr board n (Z.lor x 64); Some (b, 2)
    else Some (board, 0).

(** [dotSquare] called for its effect only. *)
Definition dotSquare_ (board : Board) (pos n : Z) : option Board :=
  fst <$> dotSquare board pos n.

(** [for (j = j0; guard j; j = (u8)(j + step))
       if (dotSquare(board, i, j) != 1) break;]
    The fuel bounds the number of guard evaluations; a ray of the board
    has at most seven squares. *)
Fixpoint slide (fuel : nat) (guard : Z → bool) (step : Z)
    (board : Board) (i j : Z) : option Board :=
  match fuel with
  | O => None
  | S fuel' =>
      if guard j then
        '(b, r) ← dotSquare board i j;
        if negb (r =? 1) then Some b
        else slide fuel' guard step b i (u8 (j + step))
      else Some board
  end.

Definition slide_fuel : nat := 64.

(** ** dotDiagonals *)

Definition dotDiagonals (board : Board) (i : Z) : option Board :=
  b ← slide slide_fuel (λ j, (j <? 64) && negb (Z.land j 7 =? 7)) (-9)
        board i (u8 (i - 9));
  b ← slide slide_fuel (λ j, (j <? 64) && negb (Z.land j 7 =? 0)) (-7)
        b i (u8 (i - 7));
  b ← slide slide_fuel (λ j, (j <? 64) && negb (Z.land j 7 =? 7)) 7
        b i (u8 (i + 7));
  slide slide_fuel (λ j, (j <? 64) && negb (Z.land j 7 =? 0)) 9
        b i (u8 (i + 9)).

(** The four loops of [case ROOK] (shared with the queen by fall-through). *)
Definition dotStraights (board : Board) (i : Z) : option Board :=
  b ← slide slide_fuel (λ j, j <? 64) (-8) board i (u8 (i - 8));
  b ← slide slide_fuel (λ j, negb (Z.land j 7 =? 7)) (-1) b i (u8 (i - 1));
  b ← slide slide_fuel (λ j, negb (Z.land j 7 =? 0)) 1 b i (u8 (i + 1));
  slide slide_fuel (λ j, j <? 64) 8 b i (u8 (i + 8)).

(** ** movePiece *)

(** [for (j = 0; (board[j] >> 7) == 0; j++);]  The read at index 64 is
    outside the array, so 65 guard evaluations is all the loop can make. *)
Fixpoint find_selected (fuel : nat) (board : Board) (j : Z) : option Z :=
  match fuel with
  | O => None
  | S fuel' =>
      x ← rd board j;
      if selected x =? 0 then find_selected fuel' board (u8 (j + 1))
      else Some j
  end.

(** The [switch] of [movePiece] and the final deletion of the origin:
    the piece selected at [j] goes to [i]. *)
Definition relocate (b : Board) (j i : Z) : option Board :=
  s ← rd b j;
  b ← (if piece s =? PAWN then
         (* check if promoting pawn *)
         if (i <? 8) || (i >=? 56) then
           s ← rd b j; wr b i (Z.lor (Z.land s 8) QUEEN)
         else
           c ← (d ← rd b i; Some (piece d =? NONE))
                 &&& Some (negb (Z.land j 7 =? Z.land i 7));
           if c : bool then
             (* en passant *)
             s ← rd b j;
             b ← wr b i (Z.land s 31);
             if Z.land j 7 >? Z.land i 7 then wr b (j - 1) NONE
             else wr b (j + 1) NONE
           else
             s ← rd b j;
             b ← wr b i (Z.land s 31);
             (* record that pawn moved 2 squares *)
             if (i - j =? 16) || (j - i =? 16) then
               x ← rd b i; wr b i (Z.lor x 32)
             else Some b
       else if piece s =? KING then
         (* castling *)
         b ← (if j - i =? 2 then
                r ← rd b (Z.land i 0xf8);
                b ← wr b (i + 1) (Z.land r 15);
                wr b (Z.land i 0xf8) NONE
              else if i - j =? 2 then
                r ← rd b (Z.land i 0xf8 + 7);
                b ← wr b (j + 1) (Z.land r 15);
                wr b (Z.land i 0xf8 + 7) NONE
              else Some b);
         s ← rd b j; wr b i (Z.land s 15)
       else if piece s =? ROOK then
         s ← rd b j; wr b i (Z.land s 15)
       else
         s ← rd b j; wr b i (Z.land s 63));
  (* delete piece from original position *)
  wr b j NONE.

Definition movePiece (board : Board) (i : Z) : option Board :=
  (* each turn turn off en passant bit for pawns *)
  b ← mask_all 0xdf board;
  (* get index of selected piece *)
  j ← find_selected 65 b 0;
  b ← removeDots b;
  relocate b j i.

(** ** calculateMoves *)

(** A condition on the byte at [board[k]]. *)
Definition test (board : Board) (k : Z) (p : Z → bool) : option bool :=
  x ← rd board k; Some (p x).

(** [((board[k] >> 3) & 1) != ((board[i] >> 3) & 1)] *)
Definition differ (board : Board) (k i : Z) : option bool :=
  x ← rd board k; y ← rd board i; Some (negb (color x =? color y)).

(** [board[k] |= 64;] *)
Definition dot (board : Board) (k : Z) : option Board :=
  x ← rd board k; wr board k (Z.lor x 64).

(** [if (c) board[k] |= 64;] *)
Definition dot_if (c : option bool) (board : Board) (k : Z) : option Board :=
  t ← c; if t : bool then dot board k else Some board.

(** [if (c) dotSquare(board, i, k);] *)
Definition dotSquare_if (c : option bool) (board : Board) (i k : Z)
    : option Board :=
  t ← c; if t : bool then dotSquare_ board i k else Some board.

Definition is_piece (p : Z) (x : Z) : bool := piece x =? p.
Definition occupied (x : Z) : bool := negb (piece x =? 0).
Definition has16 (x : Z) : bool := negb (flag16 x =? 0).
Definition has32 (x : Z) : bool := negb (flag32 x =? 0).

(** The en passant operand of a capture test: the square beside the pawn
    holds a pawn of the other colour with bit 5 set. *)
Definition en_passant (board : Board) (i side : Z) : option bool :=
  test board side (is_piece PAWN) &&& test board side has32
    &&& differ board side i.

(** The capture operand: the diagonal square holds a piece of the other
    colour. *)
Definition capture (board : Board) (i target : Z) : option bool :=
  test board target occupied &&& differ board target i.

Definition pawnMoves (board : Board) (i : Z) : option Board :=
  x ← rd board i;
  if has16 x then
    (* top pawn *)
    b ← dot_if (Some (i <? 16) &&& test board (i + 16) (is_piece NONE))
          board (i + 16);
    b ← dot_if (Some (i <? 56) &&& test b (i + 8) (is_piece NONE))
          b (i + 8);
    b ← dot_if (Some (i <? 55) &&& Some (negb (Z.land i 7 =? 7))
                 &&& (capture b i (i + 9) ||| en_passant b i (i + 1)))
          b (i + 9);
    dot_if (Some (i <? 57) &&& Some (negb (Z.land i 7 =? 0))
              &&& (capture b i (i + 7) ||| en_passant b i (i - 1)))
      b (i + 7)
  else
    (* bottom pawn *)
    b ← dot_if (Some (i >=? 48) &&& test board (i - 16) (is_piece NONE))
          board (i - 16);
    b ← dot_if (Some (i >=? 8) &&& test b (i - 8) (is_piece NONE))
          b (i - 8);
    b ← dot_if (Some (i >=? 9) &&& Some (negb (Z.land i 7 =? 0))
                 &&& (capture b i (i - 9) ||| en_passant b i (i - 1)))
          b (i - 9);
    dot_if (Some (i >? 7) &&& Some (negb (Z.land i 7 =? 7))
              &&& (capture b i (i - 7) ||| en_passant b i (i + 1)))
      b (i - 7).

Definition knightMoves (board : Board) (i : Z) : option Board :=
  let f := Z.land i 7 in
  b ← dotSquare_if (Some ((i >=? 17) && negb (f =? 0))) board i (i - 17);
  b ← dotSquare_if (Some ((i >=? 15) && negb (f =? 7))) b i (i - 15);
  b ← dotSquare_if (Some ((i >=? 10) && (f >? 1))) b i (i - 10);
  b ← dotSquare_if (Some ((i >=? 6) && (f <? 6))) b i (i - 6);
  b ← dotSquare_if (Some ((i <? 47) && negb (f =? 7))) b i (i + 17);
  b ← dotSquare_if (Some ((i <? 49) && negb (f =? 0))) b i (i + 15);
  b ← dotSquare_if (Some ((i <? 54) && (f <? 6))) b i (i + 10);
  dotSquare_if (Some ((i <? 58) && (f >? 1))) b i (i + 6).

(** The eight neighbours of the king. *)
Definition kingSteps (board : Board) (i : Z) : option Board :=
  let f := Z.land i 7 in
  b ← dotSquare_if (Some (i >=? 8)) board i (i - 8);
  b ← dotSquare_if (Some (negb (f =? 0))) b i (i - 1);
  b ← dotSquare_if (Some (negb (f =? 7))) b i (i + 1);
  b ← dotSquare_if (Some (i <? 56)) b i (i + 8);
  b ← dotSquare_if (Some ((i >=? 9) && negb (f =? 0))) b i (i - 9);
  b ← dotSquare_if (Some ((i >? 7) && negb (f =? 7))) b i (i - 7);
  b ← dotSquare_if (Some ((i <? 57) && negb (f =? 0))) b i (i + 7);
  dotSquare_if (Some ((i <? 55) && negb (f =? 7))) b i (i + 9).

(** The castling part of [case KING]. *)
Definition kingCastle (board : Board) (i : Z) : option Board :=
  x ← rd board i;
  if has16 x then
    if Z.land i 7 =? 3 then
      (* king on left *)
      b ← dotSquare_if
            (test board (i - 3) (is_piece ROOK) &&& test board (i - 3) has16
               &&& test board (i - 2) (is_piece NONE)
               &&& test board (i - 1) (is_piece NONE))
            board i (i - 2);
      dotSquare_if
        (test b (i + 4) (is_piece ROOK) &&& test b (i + 4) has16
           &&& test b (i + 1) (is_piece NONE)
           &&& test b (i + 2) (is_piece NONE)
           &&& test b (i + 3) (is_piece NONE))
        b i (i + 2)
    else
      (* king on right *)
      b ← dotSquare_if
            (test board (i + 3) (is_piece ROOK) &&& test board (i + 3) has16
               &&& test board (i + 2) (is_piece NONE)
               &&& test board (i + 1) (is_piece NONE))
            board i (i + 2);
      dotSquare_if
        (test b (i - 4) (is_piece ROOK) &&& test b (i - 4) has16
           &&& test b (i - 1) (is_piece NONE)
           &&& test b (i - 2) (is_piece NONE)
           &&& test b (i - 3) (is_piece NONE))
        b i (i - 2)
  else Some board.

Definition calculateMoves (board : Board) (i : Z) : option Board :=
  x ← rd board i;
  let p := piece x in
  if p =? PAWN then pawnMoves board i
  else if p =? KNIGHT then knightMoves board i
  else if p =? BISHOP then dotDiagonals board i
  else if p =? QUEEN then b ← dotDiagonals board i; dotStraights b i
  else if p =? ROOK then dotStraights board i
  else if p =? KING then b ← kingSteps board i; kingCastle b i
  else Some board.

(** ** verifyMove *)

(** [for (i = 0; i < 64; i++)
       if (((board2[i] >> 6) & 1) && ((board2[i] & 7) == KING)) return 0;]
    [true] when the loop returns. *)
Fixpoint king_dotted (n : nat) (i : Z) (board2 : Board) : option bool :=
  match n with
  | O => Some false
  | S n' =>
      c ← test board2 i (λ x, negb (dotted x =? 0))
            &&& test board2 i (is_piece KING);
      if c : bool then Some true else king_dotted n' (i + 1) board2
  end.

(** The search of the scratch board for pieces of the other player. *)
Fixpoint verify_scan (n : nat) (j : Z) (board2 : Board) (next_sides_turn : Z)
    : option Z :=
  match n with
  | O => Some 1
  | S n' =>
      c ← test board2 j occupied
            &&& test board2 j (λ x, color x =? next_sides_turn);
      if c : bool then
        b ← calculateMoves board2 j;
        hit ← king_dotted 64 0 b;
        if hit : bool then Some 0
        else b ← removeDots b; verify_scan n' (j + 1) b next_sides_turn
      else verify_scan n' (j + 1) board2 next_sides_turn
  end.

(** The two arrays [verifyMove] can see: the caller's board and the local
    [board2]. *)
Record Frame := { live : Board; scratch : Board }.

(** [for (j = 0; j < 64; j++) board2[j] = board[j];] *)
Fixpoint copy_board (n : nat) (j : Z) (fr : Frame) : option Frame :=
  match n with
  | O => Some fr
  | S n' =>
      x ← rd (live fr) j;
      b2 ← wr (scratch fr) j x;
      copy_board n' (j + 1) {| live := live fr; scratch := b2 |}
  end.

(** Returns the result of the call together with the caller's board as
    the call leaves it.  [board2] is a local of the call; its initial
    content is overwritten before it is read. *)
Definition verifyMove (board : Board) (i next_sides_turn : Z)
    : option (Z * Board) :=
  fr ← copy_board 64 0 {| live := board; scratch := replicate 64 0 |};
  b2 ← movePiece (scratch fr) i;
  r ← verify_scan 64 0 b2 next_sides_turn;
  Some (r, live fr).

(** ** The mouse-button branch of the event loop in [main] *)

(** [for (j = 0; j < 64; j++)
       if (((board[j] >> 6) & 1) && (!verifyMove(board, j, is_whites_turn)))
         board[j] &= 0xbf;] *)
Fixpoint filter_dots (n : nat) (j : Z) (board : Board) (is_whites_turn : Z)
    : option Board :=
  match n with
  | O => Some board
  | S n' =>
      d ← test board j (λ x, negb (dotted x =? 0));
      if d : bool then
        '(r, b) ← verifyMove board j is_whites_turn;
        if r =? 0 then
          x ← rd b j; b ← wr b j (Z.land x 0xbf);
          filter_dots n' (j + 1) b is_whites_turn
        else filter_dots n' (j + 1) b is_whites_turn
      else filter_dots n' (j + 1) board is_whites_turn
  end.

(** One click on square [i]; the state is the board and [is_whites_turn]. *)
Definition click (st : Board * Z) (i : Z) : option (Board * Z) :=
  let '(board, is_whites_turn) := st in
  x ← rd board i;
  if x =? 0 then Some st
  else if negb (dotted x =? 0) then
    b ← movePiece board i; Some (b, Z.lxor is_whites_turn 1)
  else if piece x =? NONE then Some st
  else if color x =? is_whites_turn then Some st
  else if negb (selected x =? 0) then
    b ← wr board i (Z.land x 127);
    b ← removeDots b; Some (b, is_whites_turn)
  else
    b ← mask_all 0x3f board;
    x ← rd b i;
    b ← wr b i (Z.lor x 128);
    b ← calculateMoves b i;
    b ← filter_dots 64 0 b is_whites_turn;
    Some (b, is_whites_turn).

(** A game: the clicks applied in order from the initial position. *)
Definition play (white_on_top : Z) (clicks : list Z) : option (Board * Z) :=
  foldl (λ st i, st ← st; click st i) (Some (setupBoard white_on_top, 1)) clicks.

(** ** Well-formed boards *)

Definition byte (x : Z) : Prop := 0 ≤ x < 256.

(** A board is the 64-byte array of the source. *)
Definition wf_board (board : Board) : Prop :=
  length board = 64%nat ∧ Forall byte board.

(** The contract of [movePiece]: exactly one square, [j], is selected. *)
Definition only_selected (board : Board) (j : Z) : Prop :=
  0 ≤ j < 64 ∧ selected (cell board j) ≠ 0
  ∧ ∀ k, 0 ≤ k < 64 → k ≠ j → selected (cell board k) = 0.

(** The square the scan of [movePiece] stops on: the first selected one. *)
Definition first_selected (board : Board) (j : Z) : Prop :=
  0 ≤ j < 64 ∧ selected (cell board j) ≠ 0
  ∧ ∀ k, 0 ≤ k < j → selected (cell board k) = 0.

(** The board as the two clearing loops of [movePiece] leave it: bit 5
    and bit 6 are off on every square. *)
Definition cleared (board : Board) : Board :=
  (λ x, Z.land x 0xbf) <$> ((λ x, Z.land x 0xdf) <$> board).

(** [m] returns a result, and the result satisfies [P]. *)
Definition returns {A} (m : option A) (P : A → Prop) : Prop :=
  match m with Some a => P a | None => False end.

(** Executable forms of the two preconditions, for concrete boards. *)
Definition wf_check (board : Board) : bool :=
  (length board =? 64)%nat && forallb (λ x, (0 <=? x) && (x <? 256)) board.

Definition only_selected_check (board : Board) (j : Z) : bool :=
  (0 <=? j) && (j <? 64) && negb (selected (cell board j) =? 0)
  && forallb (λ n, let k := Z.of_nat n in
                   (k =? j) || (selected (cell board k) =? 0)) (seq 0 64).

(** [b'] is [b] with dots added, and only on squares of [S]. *)
Definition dots_within (S : Z → Prop) (b b' : Board) : Prop :=
  wf_board b'
  ∧ ∀ x, 0 ≤ x < 64 →
      cell b' x = cell b x ∨ (S x ∧ cell b' x = Z.lor (cell b x) 64).

(** The squares a pawn on [i] can be given a dot on: the double step
    only from the first two (top pawn) or last two (bottom pawn) ranks. *)
Definition pawn_targets (top : bool) (i x : Z) : Prop :=
  if top
  then (x = i + 16 ∧ i < 16) ∨ x = i + 8 ∨ x = i + 9 ∨ x = i + 7
  else (x = i - 16 ∧ 48 ≤ i) ∨ x = i - 8 ∨ x = i - 9 ∨ x = i - 7.

(** The destination [i] is one of the squares [calculateMoves] dots for
    the piece on [j]: the contract under which the event loop calls
    [movePiece] (dots are only ever cleared between the two calls). *)
Definition generated (board : Board) (j i : Z) : Prop :=
  ∃ b0 bc, removeDots board = Some b0
           ∧ calculateMoves b0 j = Some bc
           ∧ dotted (cell bc i) ≠ 0.

(** ** The shared square rule, and castling, in the words of the spec *)

(** The outcome of the square rule for the piece on [pos] at square [n]:
    [1] mark and continue (empty), [2] mark and stop (other colour),
    [0] stop without marking (same colour). *)
Definition square_rule (b : Board) (pos n : Z) : Z :=
  if piece (cell b n) =? NONE then 1
  else if negb (color (cell b pos) =? color (cell b n)) then 2
  else 0.

(** The squares strictly between [lo] and [hi]. *)
Definition between (lo hi : Z) : list Z :=
  (λ n, lo + 1 + Z.of_nat n) <$> seq 0 (Z.to_nat (hi - lo - 1)).

(** The corners of the rank of square [i]. *)
Definition left_corner (i : Z) : Z := 8 * (i / 8).
Definition right_corner (i : Z) : Z := 8 * (i / 8) + 7.

(** The castling condition for the king on [i] and the rook square
    [corner]: a rook stands there with its unmoved flag set and the
    squares in [gap] are empty.  With [same_color] the rook must also be
    of the king's colour, as the spec words it. *)
Definition castle_ready (same_color : bool) (b : Board) (i corner : Z)
    (gap : list Z) : bool :=
  is_piece ROOK (cell b corner)
  && (if same_color then color (cell b corner) =? color (cell b i) else true)
  && has16 (cell b corner)
  && forallb (λ k, is_piece NONE (cell b k)) gap.

(** What [calculateMoves] does for castling with the king on [i]: each
    of the two squares two files from the king gets a dot exactly when
    the castling condition holds on its side, and is left as it was
    otherwise. *)
Definition castling_marks (same_color : bool) (b : Board) (i : Z) : Prop :=
  ∃ b', calculateMoves b i = Some b'
        ∧ cell b' (i - 2)
          = (if castle_ready same_color b i (left_corner i)
                  (between (left_corner i) i)
             then Z.lor (cell b (i - 2)) 64 else cell b (i - 2))
        ∧ cell b' (i + 2)
          = (if castle_ready same_color b i (right_corner i)
                  (between i (right_corner i))
             then Z.lor (cell b (i + 2)) 64 else cell b (i + 2)).

(** A white king that has not moved on square 3, and a black rook that
    has not moved in the corner of its rank. *)
Definition foreign_rook_board : Board :=
  [28; 0; 0; 22] ++ replicate 60 0.

(** ** Rays, in file and rank terms *)

Definition file (k : Z) : Z := k mod 8.
Definition rank (k : Z) : Z := k / 8.
Definition square (f r : Z) : Z := 8 * r + f.
Definition on_board (f r : Z) : bool :=
  (0 <=? f) && (f <? 8) && (0 <=? r) && (r <? 8).

(** The squares met from file [f], rank [r] by repeated steps of
    ([df], [dr]) until the edge of the board, nearest first. *)
Fixpoint ray_from (n : nat) (f r df dr : Z) : list Z :=
  match n with
  | O => []
  | S n' =>
      if on_board (f + df) (r + dr)
      then square (f + df) (r + dr) :: ray_from n' (f + df) (r + dr) df dr
      else []
  end.

(** The ray of square [i] in direction [d]; eight steps always reach
    the edge. *)
Definition ray (i : Z) (d : Z * Z) : list Z :=
  ray_from 8 (file i) (rank i) d.1 d.2.

(** Directions as (file step, rank step), in the order of the loops of
    the source. *)
Definition diagonals : list (Z * Z) := [(-1, -1); (1, -1); (-1, 1); (1, 1)].
Definition straights : list (Z * Z) := [(0, -1); (-1, 0); (1, 0); (0, 1)].

Definition slider_dirs (p : Z) : list (Z * Z) :=
  if p =? BISHOP then diagonals
  else if p =? ROOK then straights
  else if p =? QUEEN then diagonals ++ straights
  else [].

(** The square rule applied along a ray, in the words of the spec: an
    empty square is marked and the slide continues, a square of the
    other colour is marked and the slide stops, a square of the same
    colour stops the slide unmarked. *)
Fixpoint mark_ray (b : Board) (pos : Z) (sqs : list Z) : Board :=
  match sqs with
  | [] => b
  | k :: rest =>
      let r := square_rule b pos k in
      if r =? 1 then mark_ray (<[Z.to_nat k := Z.lor (cell b k) 64]> b) pos rest
      else if r =? 0 then b
      else <[Z.to_nat k := Z.lor (cell b k) 64]> b
  end.

Definition mark_rays (b : Board) (pos : Z) (rays : list (list Z)) : Board :=
  foldl (λ b r, mark_ray b pos r) b rays.

(** Every square of [pre] is empty. *)
Definition ray_clear (b : Board) (pre : list Z) : bool :=
  forallb (λ k, is_piece NONE (cell b k)) pre.

(** Checks on lists of squares, for the geometry of the rays. *)
Definition memb (k : Z) (l : list Z) : bool := existsb (Z.eqb k) l.

Fixpoint nodupb (l : list Z) : bool :=
  match l with
  | [] => true
  | x :: l' => negb (memb x l') && nodupb l'
  end.

Fixpoint apartb (rays : list (list Z)) : bool :=
  match rays with
  | [] => true
  | r :: rays' =>
      forallb (λ k, forallb (λ r', negb (memb k r')) rays') r && apartb rays'
  end.

(** An index of the array. *)
Definition on_array (k : Z) : bool := (0 <=? k) && (k <? 64).

Definition rays_okb (rays : list (list Z)) : bool :=
  forallb (λ r, nodupb r && forallb on_array r
                && (length r <? 8)%nat) rays
  && apartb rays.

(** One turn of a sliding loop agrees with one step on the board: the
    guard holds for the next [u8] index exactly when the next square is
    on the board, and the index is then that square. *)
Definition dir_okb (guard : Z → bool) (step df dr : Z) (p : Z) : bool :=
  let j := u8 (p + step) in
  let f := file p + df in
  let r := rank p + dr in
  eqb (guard j) (on_board f r) && implb (guard j) (j =? square f r).

(** The castling tests of [calculateMoves] look three and four squares
    to the sides of a king whose flag is set; they stay inside the array
    when no such king stands on the first three or the last three
    squares of the board. *)
Definition castling_reads_inside (b : Board) : Prop :=
  ∀ k, 0 ≤ k < 64 →
    piece (cell b k) = KING → has16 (cell b k) = true → 3 ≤ k ≤ 60.

Definition castling_reads_inside_check (b : Board) : bool :=
  forallb (λ n, let k := Z.of_nat n in
                negb (is_piece KING (cell b k) && has16 (cell b k))
                || ((3 <=? k) && (k <=? 60))) (seq 0 64).

(** ** Positions used in the examples *)

(** The initial position, white on top, after the white pawn on square 8
    has been clicked: it is selected and its two steps are dotted. *)
Definition pawn_selected_board : Board :=
  [20; 2; 3; 22; 5; 3; 2; 20] ++ [145; 17; 17; 17; 17; 17; 17; 17]
  ++ [64; 0; 0; 0; 0; 0; 0; 0] ++ [64; 0; 0; 0; 0; 0; 0; 0]
  ++ replicate 16 0
  ++ replicate 8 9 ++ [28; 10; 11; 30; 13; 11; 10; 28].

(** A white king on square 3, selected, with the castling square 1
    dotted and the white rook in the corner; neither has moved. *)
Definition castle_board : Board :=
  [20; 64; 0; 150; 0; 0; 0; 20] ++ replicate 48 0
  ++ [0; 0; 0; 30; 0; 0; 0; 0].

(** The same position before the king is clicked. *)
Definition castle_ready_board : Board :=
  [20; 0; 0; 22; 0; 0; 0; 20] ++ replicate 48 0
  ++ [0; 0; 0; 30; 0; 0; 0; 0].

(** A white top pawn on square 48, selected, one step from the last
    rank, with its step dotted. *)
Definition promotion_board : Board :=
  [0; 0; 0; 22; 0; 0; 0; 0] ++ replicate 40 0
  ++ [145; 0; 0; 0; 0; 0; 0; 0] ++ [64; 0; 0; 30; 0; 0; 0; 0].

(** A white rook on square 27 with a white pawn two squares above it
    and a black pawn two squares to its right. *)
Definition rook_board : Board :=
  [0; 0; 0; 22; 0; 0; 0; 0] ++ [0; 0; 0; 17; 0; 0; 0; 0]
  ++ replicate 8 0 ++ [0; 0; 0; 4; 0; 9; 0; 0] ++ replicate 24 0
  ++ [0; 0; 0; 30; 0; 0; 0; 0].

(** The clicks of a game in which white brings a knight to square 16, in
    front of the pawn of square 8. *)
Definition knight_in_front : list Z := [1; 16; 48; 40].

(** The clicks of a game in which white brings a pawn to square 32 and
    a knight to square 41, and black then plays the pawn of square 49
    two squares forward, over the knight, to square 33. *)
Definition pawn_beside_pawn : list Z :=
  [8; 24; 62; 47; 24; 32; 47; 62; 1; 18; 62; 47; 18; 35; 47; 62; 35; 41;
   49; 33].

(** ** The session: selection, dots and turns *)

(** [b'] agrees with [b] on the bits of [mask] of every square. *)
Definition same_mod (mask : Z) (b b' : Board) : Prop :=
  wf_board b'
  ∧ ∀ k, 0 ≤ k < 64 → Z.land (cell b' k) mask = Z.land (cell b k) mask.

(** At most one square carries bit 5, and it holds a pawn. *)
Definition flags_ok (b : Board) : Prop :=
  ∀ k k', 0 ≤ k < 64 → 0 ≤ k' < 64 →
    flag32 (cell b k) ≠ 0 → flag32 (cell b k') ≠ 0 →
    k = k' ∧ piece (cell b k) = PAWN.

(** No square is selected or dotted. *)
Definition idle (b : Board) : Prop :=
  ∀ k, 0 ≤ k < 64 → dotted (cell b k) = 0 ∧ selected (cell b k) = 0.

(** Square [j] is selected and every dot is a move generated for it. *)
Definition picking (b : Board) (j : Z) : Prop :=
  only_selected b j
  ∧ ∀ i, 0 ≤ i < 64 → dotted (cell b i) ≠ 0 → generated b j i.

(** A king or rook whose flag is set is the piece [setupBoard] put on
    its square. *)
Definition home_flags (white_on_top : Z) (b : Board) : Prop :=
  ∀ k, 0 ≤ k < 64 →
    has16 (cell b k) = true →
    piece (cell b k) = KING ∨ piece (cell b k) = ROOK →
    Z.land (cell b k) 31 = cell (setupBoard white_on_top) k.

Definition session_inv (b : Board) : Prop :=
  wf_board b ∧ castling_reads_inside b ∧ flags_ok b
  ∧ (idle b ∨ ∃ j, picking b j)
  ∧ ∃ white_on_top, home_flags white_on_top b.

(** The states of a game: the initial position, with either colour on
    top, and what clicks on squares of the board make of it. *)
Inductive reachable : Board * Z → Prop :=
  | reach_setup (white_on_top : Z) :
      reachable (setupBoard white_on_top, 1)
  | reach_click (st st' : Board * Z) (i : Z) :
      reachable st → 0 ≤ i < 64 → click st i = Some st' → reachable st'.

(** The clicks of a game after which the white king, on square 3, may
    castle towards square 0: knight and bishop have left the squares
    between king and rook. *)
Definition castling_game : list Z :=
  [1; 16; 48; 40; 9; 17; 49; 41; 2; 9; 50; 42].

(** ** The window: textures, tiles and clicks *)

Definition WIN_WIDTH := 600.
Definition WIN_HEIGHT := 600.
Definition TILE_LEN := Z.shiftr WIN_WIDTH 3.
Definition TEXTURES_NUM := 13.

(** [getTextureID]: pass board byte and get texture offset. *)
Definition getTextureID (tile : Z) : Z :=
  let p := Z.land tile 7 in
  if negb (Z.land (Z.shiftr tile 3) 1 =? 0)
  then u8 (5 + p) (* is black *)
  else u8 (p - 1). (* is white *)

(** [tile->x = (i & 7) * TILE_LEN; tile->y = (i >> 3) * TILE_LEN;] *)
Definition tile_x (i : Z) : Z := Z.land i 7 * TILE_LEN.
Definition tile_y (i : Z) : Z := Z.shiftr i 3 * TILE_LEN.

(** [i = ((e.button.y / TILE_LEN) << 3) + e.button.x / TILE_LEN;]
    The coordinates are C [int]s, whose division truncates; the sum is
    stored in a [u8]. *)
Definition click_index (x y : Z) : Z :=
  u8 (Z.shiftl (Z.quot y TILE_LEN) 3 + Z.quot x TILE_LEN).

(** A button press at window position ([x], [y]). *)
Definition mouse_down (st : Board * Z) (x y : Z) : option (Board * Z) :=
  click st (click_index x y).

(** ** The moves of knight, king and pawn *)

(** The square rule lets the piece on [pos] have square [x]: [x] is
    empty or holds a piece of the other colour. *)
Definition takes (b : Board) (pos x : Z) : bool :=
  negb (square_rule b pos x =? 0).

(** [b'] is [b] with a dot added on the squares that satisfy [T]. *)
Definition dotted_by (T : Z → bool) (b b' : Board) : Prop :=
  wf_board b'
  ∧ ∀ x, 0 ≤ x < 64 →
      cell b' x = if T x then Z.lor (cell b x) 64 else cell b x.

(** [b'] is [b] with a dot added on the squares of [G] that the square
    rule lets the piece on [pos] have. *)
Definition marks (G : Z → bool) (b : Board) (pos : Z) (b' : Board) : Prop :=
  dotted_by (λ x, G x && takes b pos x) b b'.

(** The guards of [case KNIGHT] and of the eight steps of [case KING],
    each with the square it guards. *)
Definition knight_guards (i x : Z) : bool :=
  false
  || ((i >=? 17) && negb (Z.land i 7 =? 0)) && (x =? i - 17)
  || ((i >=? 15) && negb (Z.land i 7 =? 7)) && (x =? i - 15)
  || ((i >=? 10) && (Z.land i 7 >? 1)) && (x =? i - 10)
  || ((i >=? 6) && (Z.land i 7 <? 6)) && (x =? i - 6)
  || ((i <? 47) && negb (Z.land i 7 =? 7)) && (x =? i + 17)
  || ((i <? 49) && negb (Z.land i 7 =? 0)) && (x =? i + 15)
  || ((i <? 54) && (Z.land i 7 <? 6)) && (x =? i + 10)
  || ((i <? 58) && (Z.land i 7 >? 1)) && (x =? i + 6).

Definition king_guards (i x : Z) : bool :=
  false
  || (i >=? 8) && (x =? i - 8)
  || negb (Z.land i 7 =? 0) && (x =? i - 1)
  || negb (Z.land i 7 =? 7) && (x =? i + 1)
  || (i <? 56) && (x =? i + 8)
  || ((i >=? 9) && negb (Z.land i 7 =? 0)) && (x =? i - 9)
  || ((i >? 7) && negb (Z.land i 7 =? 7)) && (x =? i - 7)
  || ((i <? 57) && negb (Z.land i 7 =? 0)) && (x =? i + 7)
  || ((i <? 55) && negb (Z.land i 7 =? 7)) && (x =? i + 9).

(** The same in file and rank terms: the jump of a knight, one file
    and two ranks or two files and one rank away, and the step of a king
    to a neighbouring square. *)
Definition knight_jump (i x : Z) : bool :=
  let df := Z.abs (file x - file i) in
  let dr := Z.abs (rank x - rank i) in
  ((df =? 1) && (dr =? 2)) || ((df =? 2) && (dr =? 1)).

Definition king_step (i x : Z) : bool :=
  Z.max (Z.abs (file x - file i)) (Z.abs (rank x - rank i)) =? 1.

(** The squares of the board. *)
Definition squares : list Z := Z.of_nat <$> seq 0 64.

(** What the pawn tests read on the board. *)
Definition empty_at (b : Board) (x : Z) : bool := is_piece NONE (cell b x).

Definition enemy_at (b : Board) (i x : Z) : bool :=
  occupied (cell b x) && negb (color (cell b x) =? color (cell b i)).

Definition passing_pawn (b : Board) (i s : Z) : bool :=
  is_piece PAWN (cell b s) && has32 (cell b s)
  && negb (color (cell b s) =? color (cell b i)).

(** The tests of [case PAWN], each with the square it guards. *)
Definition pawn_guards (b : Board) (i x : Z) : bool :=
  if has16 (cell b i) then
    false
    || ((i <? 16) && empty_at b (i + 16)) && (x =? i + 16)
    || ((i <? 56) && empty_at b (i + 8)) && (x =? i + 8)
    || ((i <? 55) && negb (Z.land i 7 =? 7)
        && (enemy_at b i (i + 9) || passing_pawn b i (i + 1)))
       && (x =? i + 9)
    || ((i <? 57) && negb (Z.land i 7 =? 0)
        && (enemy_at b i (i + 7) || passing_pawn b i (i - 1)))
       && (x =? i + 7)
  else
    false
    || ((i >=? 48) && empty_at b (i - 16)) && (x =? i - 16)
    || ((i >=? 8) && empty_at b (i - 8)) && (x =? i - 8)
    || ((i >=? 9) && negb (Z.land i 7 =? 0)
        && (enemy_at b i (i - 9) || passing_pawn b i (i - 1)))
       && (x =? i - 9)
    || ((i >? 7) && negb (Z.land i 7 =? 7)
        && (enemy_at b i (i - 7) || passing_pawn b i (i + 1)))
       && (x =? i - 7).

(** The same in file and rank terms.  A pawn whose bit 4 is set ([top])
    travels towards the higher ranks of the array, any other towards
    the lower ones. *)
Definition pawn_ahead (top : bool) (i x n : Z) : bool :=
  (file x =? file i) && (rank x =? rank i + (if top then n else - n)).

Definition pawn_home (top : bool) (i : Z) : bool :=
  if top then rank i <? 2 else 5 <? rank i.

Definition pawn_diag (top : bool) (i x : Z) : bool :=
  (Z.abs (file x - file i) =? 1)
  && (rank x =? rank i + (if top then 1 else -1)).

(** The square beside [i] on the file of [x]. *)
Definition beside (i x : Z) : Z := square (file x) (rank i).

Definition pawn_offer (b : Board) (i x : Z) : bool :=
  let top := has16 (cell b i) in
  pawn_ahead top i x 1 && empty_at b x
  || pawn_ahead top i x 2 && pawn_home top i && empty_at b x
  || pawn_diag top i x
     && (enemy_at b i x || passing_pawn b i (beside i x)).

(** ** Checked moves *)

(** The position: the board without selection and dots. *)
Definition position (b : Board) : Board := (λ x, Z.land x 0x3f) <$> b.

(** The search of [verifyMove] lets the move to [i] stand. *)
Definition verified (b : Board) (i t : Z) : Prop :=
  ∃ b2, movePiece b i = Some b2 ∧ verify_scan 64 0 b2 t = Some 1.

(** The piece on [j] is offered a square that holds a king. *)
Definition attacks_king (b : Board) (j : Z) : Prop :=
  ∃ bc k, calculateMoves b j = Some bc ∧ 0 ≤ k < 64
          ∧ dotted (cell bc k) ≠ 0 ∧ piece (cell bc k) = KING.

(** No piece whose colour bit is [side] is offered a square that holds
    a king. *)
Definition king_safe (b : Board) (side : Z) : Prop :=
  ∀ j, 0 ≤ j < 64 → piece (cell b j) ≠ NONE → color (cell b j) = side →
    ¬ attacks_king b j.

(** What holds of the state of a game besides [session_inv]: the turn
    is 0 or 1, a selected piece belongs to the side to move, every dot
    has passed [verifyMove], and the side to move is not offered a
    king. *)
Definition play_inv (st : Board * Z) : Prop :=
  (st.2 = 0 ∨ st.2 = 1)
  ∧ (∀ j, only_selected st.1 j →
       piece (cell st.1 j) ≠ NONE ∧ color (cell st.1 j) = Z.lxor st.2 1)
  ∧ (∀ i, 0 ≤ i < 64 → dotted (cell st.1 i) ≠ 0 → verified st.1 i st.2)
  ∧ verify_scan 64 0 (position st.1) (Z.lxor st.2 1) = Some 1.

(** ** Boards that differ in selection only *)

(** Two bytes with the same lower seven bits. *)
Definition low7 (x y : Z) : Prop := Z.land x 0x7f = Z.land y 0x7f.

(** Two boards that agree on every square up to bit 7. *)
Definition alike (b b' : Board) : Prop :=
  wf_board b ∧ wf_board b'
  ∧ ∀ k, 0 ≤ k < 64 → low7 (cell b k) (cell b' k).

(** Two runs with the same outcome: both undefined, or both defined
    with related results. *)
Definition orel {A} (r : A → A → Prop) (m m' : option A) : Prop :=
  match m, m' with
  | Some a, Some a' => r a a'
  | None, None => True
  | _, _ => False
  end.

(** ** The pieces of a game *)




(** ** More positions used in the examples *)

(** A king with its unmoved flag on square 1, where [setupBoard] never
    puts one. *)
Definition corner_king_board : Board := [0; 22] ++ replicate 62 0.

(** The initial position, white on top, after the knight on square 1 has
    been clicked. *)
Definition knight_selected_board : Board :=
  [20; 130; 3; 22; 5; 3; 2; 20] ++ replicate 8 17
  ++ [64; 0; 64; 0; 0; 0; 0; 0] ++ replicate 24 0
  ++ replicate 8 9 ++ [28; 10; 11; 30; 13; 11; 10; 28].

(** The clicks of a game in which the white pawn of square 8 goes to
    square 32 and the black pawn of square 49 then goes two squares, to
    square 33 beside it; the white pawn is clicked. *)
Definition en_passant_game : list Z := [8; 24; 55; 47; 24; 32; 49; 33; 32].

(** The board of that game: the pawn on 32 is selected and offered the
    squares 40 and 41. *)
Definition en_passant_board : Board :=
  [20; 2; 3; 22; 5; 3; 2; 20] ++ [0; 17; 17; 17; 17; 17; 17; 17]
  ++ replicate 16 0 ++ [145; 41; 0; 0; 0; 0; 0; 0]
  ++ [64; 64; 0; 0; 0; 0; 0; 9] ++ [9; 0; 9; 9; 9; 9; 9; 0]
  ++ [28; 10; 11; 30; 13; 11; 10; 28].

(** The initial position with the selection bit set on square 8. *)
Definition marked_board : Board := <[8%nat := 145]> (setupBoard 1).

(** ** The lines of the sliding pieces *)

(** [x] is another square of a diagonal through [i]; of the file or the
    rank of [i]. *)
Definition on_diagonal (i x : Z) : bool :=
  negb (x =? i) && (Z.abs (file x - file i) =? Z.abs (rank x - rank i)).

Definition on_straight (i x : Z) : bool :=
  negb (x =? i) && ((file x =? file i) || (rank x =? rank i)).

(** The lines of a bishop, a rook and a queen. *)
Definition on_line (p i x : Z) : bool :=
  ((p =? BISHOP) || (p =? QUEEN)) && on_diagonal i x
  || ((p =? ROOK) || (p =? QUEEN)) && on_straight i x.

(** The squares strictly between [i] and a square [x] of one of its
    lines, nearest to [i] first. *)
Definition line_path (i x : Z) : list Z :=
  let df := Z.sgn (file x - file i) in
  let dr := Z.sgn (rank x - rank i) in
  let n := Z.max (Z.abs (file x - file i)) (Z.abs (rank x - rank i)) in
  (λ k, square (file i + Z.of_nat k * df) (rank i + Z.of_nat k * dr))
    <$> seq 1 (Z.to_nat n - 1).

Fixpoint prefixb (l1 l2 : list Z) : bool :=
  match l1, l2 with
  | [], _ => true
  | x :: l1', y :: l2' => (x =? y) && prefixb l1' l2'
  | _ :: _, [] => false
  end.

(** The loops of the sliding pieces against the lines: a square of a
    line of [p] is met by one loop, after the squares between; any
    other square is met by none. *)
Definition line_okb (p i x : Z) : bool :=
  if on_line p i x
  then existsb (λ d, prefixb (line_path i x ++ [x]) (ray i d)) (slider_dirs p)
  else forallb (λ d, negb (memb x (ray i d))) (slider_dirs p).

(** The board after the clicks of [castling_game] and a click on the
    white king of square 3: the king is selected and offered the
    squares 1 and 2. *)
Definition castling_selected_board : Board :=
  [20; 64; 64; 150; 5; 3; 2; 20] ++ [17; 3; 17; 17; 17; 17; 17; 17]
  ++ [2; 17; 0; 0; 0; 0; 0; 0] ++ replicate 16 0
  ++ [9; 9; 9; 0; 0; 0; 0; 0] ++ [0; 0; 0; 9; 9; 9; 9; 9]
  ++ [28; 10; 11; 30; 13; 11; 10; 28].


(** ** Bytes *)

Lemma byte_cases (P : Z → Prop) `{!∀ x, Decision (P x)} :
  bool_decide (Forall P (Z.of_nat <$> seq 0 256)) = true →
  ∀ x, byte x → P x.
Proof.
  intros Hb x Hx. apply bool_decide_eq_true_1 in Hb.
  rewrite Forall_forall in Hb. apply Hb.
  apply list_elem_of_fmap. exists (Z.to_nat x). unfold byte in Hx.
  split; [lia|]. apply elem_of_seq. lia.
Qed.

(** Settles a closed fact about one byte by running through its values. *)
Ltac byte_fact x :=
  pattern x;
  match goal with
  | |- ?P x =>
      apply (@byte_cases P ltac:(intro; cbv beta; apply _));
      [vm_compute; reflexivity | unfold byte in *; assumption || lia]
  end.

Lemma u8_byte x : byte x → u8 x = x.
Proof. intros Hx. unfold u8. apply Z.mod_small. exact Hx. Qed.

(** ** Reading and writing squares *)

Lemma rd_cell (b : Board) k :
  0 ≤ k < Z.of_nat (length b) → rd b k = Some (cell b k).
Proof.
  intros Hk. unfold cell, rd.
  destruct (Z.leb_spec 0 k); [|lia].
  destruct (lookup_lt_is_Some_2 b (Z.to_nat k)) as [x Hx]; [lia|].
  rewrite Hx. reflexivity.
Qed.

Lemma rd_Some_bound (b : Board) k x :
  rd b k = Some x → 0 ≤ k < Z.of_nat (length b).
Proof.
  unfold rd. destruct (Z.leb_spec 0 k); [|discriminate].
  intros Hx%lookup_lt_Some. lia.
Qed.

Lemma wr_Some (b : Board) k v :
  0 ≤ k < Z.of_nat (length b) → byte v →
  wr b k v = Some (<[Z.to_nat k := v]> b).
Proof.
  intros Hk Hv. unfold wr.
  destruct (Z.leb_spec 0 k); [|lia].
  destruct (Z.ltb_spec k (Z.of_nat (length b))); [|lia].
  simpl. rewrite u8_byte; auto.
Qed.

Lemma cell_insert (b : Board) k v k' :
  0 ≤ k < Z.of_nat (length b) → 0 ≤ k' →
  cell (<[Z.to_nat k := v]> b) k' = if k' =? k then v else cell b k'.
Proof.
  intros Hk Hk'. unfold cell, rd.
  destruct (Z.leb_spec 0 k'); [|lia].
  destruct (Z.eqb_spec k' k) as [->|Hne].
  - rewrite list_lookup_insert_eq; [reflexivity|lia].
  - rewrite list_lookup_insert_ne; [reflexivity|lia].
Qed.

Lemma cell_fmap (f : Z → Z) (b : Board) k :
  0 ≤ k < Z.of_nat (length b) → cell (f <$> b) k = f (cell b k).
Proof.
  intros Hk. unfold cell, rd.
  destruct (Z.leb_spec 0 k); [|lia].
  rewrite list_lookup_fmap.
  destruct (lookup_lt_is_Some_2 b (Z.to_nat k)) as [x Hx]; [lia|].
  rewrite Hx. reflexivity.
Qed.

Lemma wf_length b : wf_board b → Z.of_nat (length b) = 64.
Proof. intros [Hl _]. rewrite Hl. reflexivity. Qed.

Lemma wf_cell b k : wf_board b → 0 ≤ k < 64 → byte (cell b k).
Proof.
  intros [Hl Hb] Hk. unfold cell, rd.
  destruct (Z.leb_spec 0 k); [|lia].
  destruct (lookup_lt_is_Some_2 b (Z.to_nat k)) as [x Hx]; [lia|].
  rewrite Hx. simpl. eapply Forall_lookup_1; eauto.
Qed.

Lemma wf_insert b n v : wf_board b → byte v → wf_board (<[n := v]> b).
Proof.
  intros [Hl Hb] Hv. split.
  - rewrite length_insert. exact Hl.
  - apply Forall_insert; assumption.
Qed.

Lemma wf_fmap (f : Z → Z) b :
  (∀ x, byte x → byte (f x)) → wf_board b → wf_board (f <$> b).
Proof.
  intros Hf [Hl Hb]. split.
  - rewrite length_fmap. exact Hl.
  - apply Forall_fmap. eapply Forall_impl; [exact Hb|]. intros x Hx. apply Hf, Hx.
Qed.

(** ** The loops over the whole board *)

Lemma for_range_mask (m : Z) (l2 l1 : Board) :
  Forall byte l2 → (∀ x, byte x → byte (Z.land x m)) →
  for_range (length l2) (Z.of_nat (length l1))
    (λ j b, x ← rd b j; wr b j (Z.land x m)) (l1 ++ l2)
  = Some (l1 ++ ((λ x, Z.land x m) <$> l2)).
Proof.
  intros Hb Hm. revert l1.
  induction Hb as [|x l2 Hx Hb IH]; intros l1; simpl.
  - reflexivity.
  - assert (Hrd : rd (l1 ++ x :: l2) (Z.of_nat (length l1)) = Some x).
    { unfold rd. destruct (Z.leb_spec 0 (Z.of_nat (length l1))); [|lia].
      rewrite Nat2Z.id. rewrite lookup_app_r; [|lia].
      replace (length l1 - length l1)%nat with 0%nat by lia. reflexivity. }
    rewrite Hrd. simpl.
    rewrite wr_Some; [|rewrite length_app; simpl; lia|apply Hm, Hx].
    simpl. rewrite Nat2Z.id.
    rewrite insert_app_r_alt; [|lia].
    replace (length l1 - length l1)%nat with 0%nat by lia. simpl.
    specialize (IH (l1 ++ [Z.land x m])).
    rewrite length_app in IH. simpl in IH.
    replace (Z.of_nat (length l1 + 1)) with (Z.of_nat (length l1) + 1) in IH by lia.
    rewrite <- !app_assoc in IH. simpl in IH. exact IH.
Qed.

Lemma mask_all_spec m b :
  wf_board b → (∀ x, byte x → byte (Z.land x m)) →
  mask_all m b = Some ((λ x, Z.land x m) <$> b).
Proof.
  intros [Hl Hb] Hm. unfold mask_all.
  pose proof (for_range_mask m b [] Hb Hm) as H.
  rewrite Hl in H. exact H.
Qed.


(** ** The scan for the selected square *)

Lemma find_selected_spec (b : Board) (n : nat) (j : Z) :
  wf_board b → 0 ≤ j → j + Z.of_nat n = 64 →
  (∃ k, j ≤ k < 64 ∧ selected (cell b k) ≠ 0) →
  ∃ s, find_selected (S n) b j = Some s ∧ j ≤ s < 64
       ∧ selected (cell b s) ≠ 0
       ∧ ∀ k, j ≤ k < s → selected (cell b k) = 0.
Proof.
  intros Hwf. revert j.
  induction n as [|n IH]; intros j Hj Hn (k & Hk & Hsel). { exfalso; lia. }
  change (find_selected (S (S n)) b j) with
    (x ← rd b j; if selected x =? 0 then find_selected (S n) b (u8 (j + 1))
                 else Some j).
  rewrite (rd_cell b j) by (rewrite (wf_length b Hwf); lia). simpl.
  destruct (Z.eqb_spec (selected (cell b j)) 0) as [Hz|Hnz].
  - assert (Hu : u8 (j + 1) = j + 1) by (apply u8_byte; unfold byte; lia).
    rewrite Hu.
    destruct (IH (j + 1)) as (s & Hs & Hr & Hss & Hmin); [lia|lia| |].
    { exists k. split; [|exact Hsel].
      destruct (Z.eq_dec k j) as [->|]; [contradiction|lia]. }
    exists s. split; [exact Hs|]. split; [lia|]. split; [exact Hss|].
    intros k' Hk'. destruct (Z.eq_dec k' j) as [->|]; [exact Hz|].
    apply Hmin. lia.
  - exists j. split; [reflexivity|]. split; [lia|]. split; [exact Hnz|].
    intros k' Hk'. lia.
Qed.

(** ** movePiece up to its [switch] *)

Lemma cleared_wf b : wf_board b → wf_board (cleared b).
Proof.
  intros Hwf. unfold cleared.
  apply wf_fmap; [intros x Hx; byte_fact x|].
  apply wf_fmap; [intros x Hx; byte_fact x|]. exact Hwf.
Qed.

Lemma cleared_cell b k :
  wf_board b → 0 ≤ k < 64 →
  cell (cleared b) k = Z.land (Z.land (cell b k) 0xdf) 0xbf.
Proof.
  intros Hwf Hk. unfold cleared.
  rewrite cell_fmap by (rewrite length_fmap, (wf_length b Hwf); lia).
  rewrite cell_fmap by (rewrite (wf_length b Hwf); lia). reflexivity.
Qed.

Lemma movePiece_switch_first b i j :
  wf_board b → first_selected b j →
  movePiece b i = relocate (cleared b) j i.
Proof.
  intros Hwf (Hj & Hsel & Hfirst). unfold movePiece.
  rewrite mask_all_spec by (auto; intros x Hx; byte_fact x).
  cbn [mbind option_bind].
  set (b1 := (λ x, Z.land x 223) <$> b).
  assert (Hwf1 : wf_board b1)
    by (apply wf_fmap; [intros x Hx; byte_fact x|exact Hwf]).
  assert (Hc1 : ∀ k, 0 ≤ k < 64 → selected (cell b1 k) = selected (cell b k)).
  { intros k Hk. unfold b1.
    rewrite cell_fmap by (rewrite (wf_length b Hwf); lia).
    pose proof (wf_cell b k Hwf Hk) as Hb. byte_fact (cell b k). }
  destruct (find_selected_spec b1 64 0 Hwf1) as (s & Hs & Hr & Hss & Hmin);
    [lia|lia| |].
  { exists j. rewrite Hc1 by lia. split; [lia|exact Hsel]. }
  rewrite Hs. cbn [mbind option_bind].
  assert (s = j) as ->.
  { destruct (Z.lt_trichotomy s j) as [Hlt|[Heq|Hgt]]; [|exact Heq|].
    - rewrite Hc1 in Hss by lia. rewrite Hfirst in Hss by lia. congruence.
    - specialize (Hmin j). rewrite Hc1 in Hmin by lia.
      rewrite Hmin in Hsel by lia. congruence. }
  unfold removeDots.
  rewrite mask_all_spec by (auto; intros x Hx; byte_fact x).
  reflexivity.
Qed.

Lemma only_selected_first b j : only_selected b j → first_selected b j.
Proof.
  intros (Hj & Hsel & Hothers). split; [exact Hj|]. split; [exact Hsel|].
  intros k Hk. apply Hothers; lia.
Qed.

Lemma movePiece_switch b i j :
  wf_board b → only_selected b j →
  movePiece b i = relocate (cleared b) j i.
Proof.
  intros Hwf Hsel. apply movePiece_switch_first; [exact Hwf|].
  apply only_selected_first, Hsel.
Qed.


(** ** Running the monadic code on a well-formed board *)

Lemma land7_mod i : Z.land i 7 = i mod 8.
Proof. apply (Z.land_ones i 3). lia. Qed.

Lemma land_f8 i : 0 ≤ i < 64 → Z.land i 0xf8 = 8 * (i / 8).
Proof. intros Hi. assert (Hb : byte i) by (unfold byte; lia). byte_fact i. Qed.

Ltac zlia := first [lia | Z.div_mod_to_equations; lia].

(** Lengths of updated boards, given [Z.of_nat (length B) = 64]. *)
Ltac len := rewrite ?length_insert; zlia.

(** [byte v] for the values the code stores. *)
Ltac bytes :=
  lazymatch goal with
  | |- byte (Z.land ?x _) => let H := fresh in assert (H : byte x) by bytes; byte_fact x
  | |- byte (Z.lor (Z.land ?x _) _) => let H := fresh in assert (H : byte x) by bytes; byte_fact x
  | |- byte (Z.lor ?x _) => let H := fresh in assert (H : byte x) by bytes; byte_fact x
  | |- byte (cell ?b ?k) => first [assumption | apply wf_cell; [assumption | zlia]]
  | |- byte _ => first [assumption | unfold byte, NONE; lia]
  end.

Ltac mb :=
  cbn [mbind option_bind mret option_ret fmap option_fmap option_map
       andM orM negb orb andb fst snd].

Lemma returns_Some {A} (m : option A) (P : A → Prop) :
  returns m P ↔ ∃ a, m = Some a ∧ P a.
Proof.
  destruct m as [a|]; simpl.
  - split; [intros H; exists a; auto|intros (a' & [= <-] & H); exact H].
  - split; [tauto|intros (a' & [=] & _)].
Qed.

(** ** Sequencing *)

Lemma returns_bind {A B} (m : option A) (f : A → option B)
    (P : A → Prop) (Q : B → Prop) :
  returns m P → (∀ a, P a → returns (f a) Q) → returns (m ≫= f) Q.
Proof. destruct m as [a|]; simpl; [intros Ha Hf; apply Hf, Ha|tauto]. Qed.

Lemma returns_impl {A} (m : option A) (P Q : A → Prop) :
  returns m P → (∀ a, P a → Q a) → returns m Q.
Proof. destruct m as [a|]; simpl; [intros Ha Hf; apply Hf, Ha|tauto]. Qed.

Lemma returns_bind_eq {A B} (m : option A) (f : A → option B)
    (Q : B → Prop) a :
  m = Some a → returns (f a) Q → returns (m ≫= f) Q.
Proof. intros -> H. exact H. Qed.

Lemma returns_eq {A} (m : option A) (P : A → Prop) a :
  returns m P → m = Some a → P a.
Proof. intros H ->. exact H. Qed.

(** The condition the evaluation is waiting on. *)
Ltac head_if X :=
  lazymatch X with
  | mbind _ ?Y => head_if Y
  | fmap _ ?Y => head_if Y
  | (if ?c then _ else _) => c
  end.

Ltac atom c :=
  lazymatch c with
  | negb ?x => atom x
  | ?x || _ => atom x
  | ?x && _ => atom x
  | _ => c
  end.

Ltac split_atom c :=
  lazymatch c with
  | ?a =? ?b => destruct (Z.eqb_spec a b)
  | ?a <? ?b => destruct (Z.ltb_spec a b)
  | ?a <=? ?b => destruct (Z.leb_spec a b)
  | ?a >? ?b => rewrite (Z.gtb_ltb a b); destruct (Z.ltb_spec b a)
  | ?a >=? ?b => rewrite (Z.geb_leb a b); destruct (Z.leb_spec b a)
  | _ => destruct c eqn:?
  end.

(** One step of evaluation of [returns X P]: a bind, a read or a write
    inside the board, or a case split on the condition at the head. *)
Ltac mstep :=
  first
  [ progress mb
  | rewrite Z.eqb_refl
  | match goal with
    | |- context [cell (<[Z.to_nat ?k := ?v]> ?b) ?k'] =>
        rewrite (cell_insert b k v k') by len;
        first [ rewrite Z.eqb_refl
              | destruct (Z.eqb_spec k' k); [try (exfalso; zlia)|] ]
    end
  | match goal with
    | |- context [rd ?b ?k] => rewrite (rd_cell b k) by len
    | |- context [wr ?b ?k ?v] => rewrite (wr_Some b k v) by first [len | bytes]
    end
  | match goal with
    | |- returns ?X _ =>
        let c := head_if X in let a := atom c in split_atom a
    end ].

Ltac mrun := repeat mstep; cbn [returns].

Lemma cleared_fields b k :
  wf_board b → 0 ≤ k < 64 →
  let x := cell b k in
  let y := cell (cleared b) k in
  byte y ∧ piece y = piece x ∧ color y = color x ∧ flag16 y = flag16 x
  ∧ flag32 y = 0 ∧ dotted y = 0 ∧ selected y = selected x
  ∧ y = Z.land x 0x9f.
Proof.
  intros Hwf Hk x y. subst x y. rewrite cleared_cell by assumption.
  pose proof (wf_cell b k Hwf Hk) as Hb. byte_fact (cell b k).
Qed.

(** ** Promotion *)

(** C7: a pawn moved onto the first or the last rank becomes a queen of
    its colour, and the square it came from is emptied. *)
Theorem movePiece_promotes_to_queen (b : Board) (i j : Z) :
  wf_board b → only_selected b j → 0 ≤ i < 64 → i ≠ j →
  piece (cell b j) = PAWN → (i < 8 ∨ 56 ≤ i) →
  ∃ b', movePiece b i = Some b'
        ∧ piece (cell b' i) = QUEEN
        ∧ color (cell b' i) = color (cell b j)
        ∧ cell b' i = Z.lor (Z.land (cell b j) 8) QUEEN
        ∧ cell b' j = NONE.
Proof.
  intros Hwf Hsel Hi Hne Hp Hfar.
  rewrite (movePiece_switch b i j Hwf Hsel).
  destruct Hsel as (Hj & _ & _).
  pose proof (cleared_wf b Hwf) as HwfB.
  pose proof (wf_length _ HwfB) as HlenB.
  destruct (cleared_fields b j Hwf Hj) as (Hby & Hpc & Hcol & _ & _ & _ & _ & Hval).
  set (B := cleared b) in *.
  apply returns_Some. unfold relocate.
  rewrite (rd_cell B j) by len. mb. rewrite Hpc, Hp.
  change (PAWN =? PAWN) with true. cbv iota.
  mrun; try (exfalso; lia).
  all: rewrite !cell_insert by len.
  all: destruct (Z.eqb_spec i j); [contradiction|]; rewrite !Z.eqb_refl.
  all: pose proof (wf_cell b j Hwf Hj) as Hb.
  all: rewrite Hval; unfold QUEEN, NONE.
  all: repeat split; byte_fact (cell b j).
Qed.

Lemma wf_check_ok b : wf_check b = true → wf_board b.
Proof.
  unfold wf_check. intros [Hl Hb]%andb_true_iff. split.
  - apply Nat.eqb_eq, Hl.
  - apply Forall_forall. intros x Hx%list_elem_of_In.
    rewrite forallb_forall in Hb. specialize (Hb x Hx). unfold byte. lia.
Qed.

Lemma only_selected_check_ok b j :
  only_selected_check b j = true → only_selected b j.
Proof.
  unfold only_selected_check.
  intros [[[H0 H1]%andb_true_iff Hs]%andb_true_iff Ho]%andb_true_iff.
  split; [lia|]. split.
  - apply negb_true_iff in Hs. apply Z.eqb_neq in Hs. exact Hs.
  - intros k Hk Hne. rewrite forallb_forall in Ho.
    assert (Hin : In (Z.to_nat k) (seq 0 64)) by (apply in_seq; lia).
    specialize (Ho _ Hin). cbv zeta in Ho. rewrite Z2Nat.id in Ho by lia.
    destruct (Z.eqb_spec k j); [contradiction|].
    apply Z.eqb_eq. exact Ho.
Qed.


Ltac split_ifs :=
  repeat match goal with
         | |- context [if ?a =? ?b then _ else _] => destruct (Z.eqb_spec a b)
         end.

Ltac simp_cells :=
  repeat first
    [ rewrite Z.eqb_refl
    | match goal with
      | |- context [cell (<[Z.to_nat ?k := ?v]> ?b) ?k'] =>
          rewrite (cell_insert b k v k') by len
      end ].

Ltac wf_tac :=
  repeat (apply wf_insert; [|bytes]); assumption.

(** A closed fact about the byte on square [k] of [B], under the facts
    the context has about it. *)
Ltac cell_fact B k :=
  repeat match goal with
         | H' : context [cell B k] |- _ =>
             pattern (cell B k) in H';
             lazymatch type of H' with
             | ?F _ =>
                 lazymatch F with
                 | context [cell _ _] => clear H'
                 | _ => cbv beta in H'; revert H'
                 end
             end
         end;
  let H := fresh in
  assert (H : byte (cell B k)) by bytes;
  revert H; generalize (cell B k);
  let x := fresh "x" in
  let Hx := fresh in
  intros x Hx; pattern x;
  lazymatch goal with
  | |- context [cell _ _] => fail "another square is involved"
  | |- ?P x =>
      refine (@byte_cases P ltac:(intro; cbv beta; apply _) _ x Hx);
      vm_compute; reflexivity
  end.

Ltac value_fact B :=
  match goal with
  | |- context [cell B ?k] => cell_fact B k
  | |- _ => vm_compute; intuition congruence
  end.

(** What every branch of the [switch] guarantees: the origin is
    emptied, no dot is left, and a square is either as it was or holds
    a value that is neither selected nor a king with its flag. *)
Lemma relocate_clean (B : Board) (j i : Z) :
  wf_board B → 0 ≤ j < 64 → 0 ≤ i < 64 →
  (∀ k, 0 ≤ k < 64 → dotted (cell B k) = 0) →
  returns (relocate B j i) (λ b',
    wf_board b' ∧ cell b' j = NONE
    ∧ (∀ k, 0 ≤ k < 64 → dotted (cell b' k) = 0)
    ∧ (∀ k, 0 ≤ k < 64 →
         (k ≠ j ∧ cell b' k = cell B k)
         ∨ (selected (cell b' k) = 0
            ∧ ¬ ((piece (cell b' k) = KING ∨ piece (cell b' k) = ROOK)
                 ∧ flag16 (cell b' k) ≠ 0)))).
Proof.
  intros HwfB Hj Hi Hdot.
  pose proof (wf_length _ HwfB) as HlenB.
  pose proof (land7_mod i) as Hi7. pose proof (land7_mod j) as Hj7.
  pose proof (land_f8 i Hi) as Hi8.
  unfold relocate. mrun.
  all: (split; [wf_tac|]).
  all: (split; [simp_cells; reflexivity|]).
  all: split; intros k Hk; simp_cells; split_ifs.
  all: try (apply Hdot; lia).
  all: try (left; split; [assumption|reflexivity]).
  all: try (right; split; value_fact B).
  all: try value_fact B.
Qed.

Lemma movePiece_returns (b : Board) (i j : Z) :
  wf_board b → first_selected b j → 0 ≤ i < 64 →
  returns (movePiece b i) (λ b',
    wf_board b' ∧ cell b' j = NONE
    ∧ (∀ k, 0 ≤ k < 64 → dotted (cell b' k) = 0)
    ∧ (∀ k, 0 ≤ k < 64 →
         (k ≠ j ∧ selected (cell b' k) = selected (cell b k)
          ∧ piece (cell b' k) = piece (cell b k)
          ∧ flag16 (cell b' k) = flag16 (cell b k)
          ∧ Z.land (cell b' k) 31 = Z.land (cell b k) 31)
         ∨ (selected (cell b' k) = 0
            ∧ ¬ ((piece (cell b' k) = KING ∨ piece (cell b' k) = ROOK)
                 ∧ flag16 (cell b' k) ≠ 0)))).
Proof.
  intros Hwf Hsel Hi.
  rewrite (movePiece_switch_first b i j Hwf Hsel).
  destruct Hsel as (Hj & Hs & Hfirst).
  eapply returns_impl.
  - apply (relocate_clean (cleared b) j i (cleared_wf b Hwf) Hj Hi).
    intros k Hk.
    destruct (cleared_fields b k Hwf Hk) as (_ & _ & _ & _ & _ & Hd & _).
    exact Hd.
  - intros b' (Hwf' & Hempty & Hdots & Hcells).
    split; [exact Hwf'|]. split; [exact Hempty|]. split; [exact Hdots|].
    intros k Hk. destruct (Hcells k Hk) as [[Hne Heq]|Hclean].
    + left. rewrite Heq.
      destruct (cleared_fields b k Hwf Hk)
        as (_ & Hp & _ & H16 & _ & _ & Hsl & Hval).
      cbv zeta in Hval. rewrite Hval at 4.
      rewrite <- Z.land_assoc. change (Z.land 0x9f 31) with 31. auto.
    + right. exact Hclean.
Qed.

(** ** The scan for the mover *)

(** C9: with exactly one square selected the scan of [movePiece] stops
    at an index below 64, on the selected square, and [movePiece] runs
    to completion. *)
Theorem movePiece_scan_in_bounds (b : Board) (i : Z) :
  wf_board b → (∃ j, only_selected b j) → 0 ≤ i < 64 →
  ∃ b1 s, mask_all 0xdf b = Some b1
          ∧ find_selected 65 b1 0 = Some s
          ∧ 0 ≤ s < 64 ∧ selected (cell b s) ≠ 0
          ∧ ∃ b', movePiece b i = Some b'.
Proof.
  intros Hwf [j Hsel] Hi.
  pose proof (movePiece_switch b i j Hwf Hsel) as Hsw.
  destruct Hsel as (Hj & Hs & Hothers).
  assert (Hm : mask_all 0xdf b = Some ((λ x, Z.land x 0xdf) <$> b))
    by (apply mask_all_spec; auto; intros x Hx; byte_fact x).
  set (b1 := (λ x, Z.land x 0xdf) <$> b) in *.
  assert (Hwf1 : wf_board b1)
    by (apply wf_fmap; [intros x Hx; byte_fact x|exact Hwf]).
  assert (Hc1 : ∀ k, 0 ≤ k < 64 → selected (cell b1 k) = selected (cell b k)).
  { intros k Hk. unfold b1.
    rewrite cell_fmap by (rewrite (wf_length b Hwf); lia).
    pose proof (wf_cell b k Hwf Hk) as Hb. byte_fact (cell b k). }
  destruct (find_selected_spec b1 64 0 Hwf1) as (s & Hfs & Hr & Hss & _);
    [lia|lia| |].
  { exists j. rewrite Hc1 by lia. split; [lia|exact Hs]. }
  exists b1, s. split; [exact Hm|]. split; [exact Hfs|]. split; [lia|].
  split; [rewrite <- Hc1 by lia; exact Hss|].
  pose proof (movePiece_returns b i j Hwf
                (only_selected_first b j (conj Hj (conj Hs Hothers))) Hi) as Hret.
  apply returns_Some in Hret. destruct Hret as (b' & Hb' & _).
  exists b'. exact Hb'.
Qed.

(** ** The board after a move *)

(** C10: after [movePiece] no square is selected and no square is
    dotted, and the square the mover left is empty. *)
Theorem movePiece_deselects (b : Board) (i j : Z) :
  wf_board b → only_selected b j → 0 ≤ i < 64 →
  ∃ b', movePiece b i = Some b'
        ∧ cell b' j = NONE
        ∧ ∀ k, 0 ≤ k < 64 →
            selected (cell b' k) = 0 ∧ dotted (cell b' k) = 0.
Proof.
  intros Hwf Hsel Hi.
  pose proof (movePiece_returns b i j Hwf (only_selected_first b j Hsel) Hi)
    as Hret.
  apply returns_Some in Hret.
  destruct Hret as (b' & Hb' & _ & Hempty & Hdots & Hcells).
  destruct Hsel as (Hj & Hs & Hothers).
  exists b'. split; [exact Hb'|]. split; [exact Hempty|].
  intros k Hk. split; [|apply Hdots, Hk].
  destruct (Hcells k Hk) as [(Hne & Hsl & _)|[Hsl _]]; [|exact Hsl].
  rewrite Hsl. apply Hothers; assumption.
Qed.


(** ** Castling, executed *)

(** C6: a king moved two files along its rank takes the rook of the
    corner on that side with it: the rook lands beside the king's
    destination, on the side the king came from, the corner is emptied,
    and king and rook both lose their unmoved flag. *)
Theorem movePiece_castles (b : Board) (i j : Z) :
  let corner := if i <? j then 8 * (i / 8) else 8 * (i / 8) + 7 in
  let beside := if i <? j then i + 1 else i - 1 in
  wf_board b → only_selected b j → 0 ≤ i < 64 →
  piece (cell b j) = KING →
  i / 8 = j / 8 → (j - i = 2 ∨ i - j = 2) →
  piece (cell b corner) = ROOK → i ≠ corner →
  ∃ b', movePiece b i = Some b'
        ∧ cell b' beside = Z.land (cell b corner) 15
        ∧ piece (cell b' beside) = ROOK
        ∧ color (cell b' beside) = color (cell b corner)
        ∧ flag16 (cell b' beside) = 0
        ∧ cell b' corner = NONE
        ∧ cell b' i = Z.land (cell b j) 15
        ∧ piece (cell b' i) = KING
        ∧ color (cell b' i) = color (cell b j)
        ∧ flag16 (cell b' i) = 0
        ∧ cell b' j = NONE.
Proof.
  intros corner beside Hwf Hsel Hi Hk Hrank Hside Hrook Hnc.
  rewrite (movePiece_switch b i j Hwf Hsel).
  destruct Hsel as (Hj & _ & _).
  pose proof (cleared_wf b Hwf) as HwfB.
  pose proof (wf_length _ HwfB) as HlenB.
  pose proof (land7_mod i) as Hi7. pose proof (land7_mod j) as Hj7.
  pose proof (land_f8 i Hi) as Hi8.
  assert (Hcb : 0 ≤ corner < 64)
    by (subst corner; destruct (i <? j); zlia).
  destruct (cleared_fields b j Hwf Hj) as (_ & Hpj & _ & _ & _ & _ & _ & Hvj).
  destruct (cleared_fields b corner Hwf Hcb) as (_ & _ & _ & _ & _ & _ & _ & Hvc).
  pose proof (wf_cell b j Hwf Hj) as Hbj.
  pose proof (wf_cell b corner Hwf Hcb) as Hbc.
  cbv zeta in Hpj, Hvj, Hvc.
  apply returns_Some. unfold relocate.
  rewrite (rd_cell (cleared b) j) by len. mb. rewrite Hpj, Hk.
  change (KING =? PAWN) with false. change (KING =? KING) with true.
  cbv iota.
  destruct Hside as [Hl|Hr].
  - assert (Hlt : (i <? j) = true) by (apply Z.ltb_lt; lia).
    subst corner beside. rewrite Hlt in *.
    mrun; try (exfalso; zlia).
    rewrite Hi8. simp_cells.
    repeat match goal with
           | |- context [if ?a =? ?c then _ else _] =>
               destruct (Z.eqb_spec a c); [exfalso; zlia|]
           end.
    rewrite Hvj, Hvc. unfold NONE.
    repeat split; try reflexivity.
    all: value_fact b.
  - assert (Hlt : (i <? j) = false) by (apply Z.ltb_ge; lia).
    subst corner beside. rewrite Hlt in *.
    mrun; try (exfalso; zlia).
    rewrite Hi8. replace (j + 1) with (i - 1) by lia. simp_cells.
    repeat match goal with
           | |- context [if ?a =? ?c then _ else _] =>
               destruct (Z.eqb_spec a c); [exfalso; zlia|]
           end.
    rewrite Hvj, Hvc. unfold NONE.
    repeat split; try reflexivity.
    all: value_fact b.
Qed.

(** ** The en passant flag *)

(** After the [switch], bit 5 is on exactly on the destination of a pawn
    that went two ranks without landing on a far rank. *)
Lemma relocate_flag32 (B : Board) (j i : Z) :
  wf_board B → 0 ≤ j < 64 → 0 ≤ i < 64 →
  (∀ k, 0 ≤ k < 64 → flag32 (cell B k) = 0) →
  returns (relocate B j i) (λ b',
    ∀ k, 0 ≤ k < 64 →
      (flag32 (cell b' k) ≠ 0 ↔
         k = i ∧ piece (cell B j) = PAWN ∧ 8 ≤ i < 56
         ∧ (i - j = 16 ∨ j - i = 16))
      ∧ (flag32 (cell b' k) ≠ 0 → piece (cell b' k) = PAWN)).
Proof.
  intros HwfB Hj Hi Hflag.
  pose proof (wf_length _ HwfB) as HlenB.
  pose proof (land7_mod i) as Hi7. pose proof (land7_mod j) as Hj7.
  pose proof (land_f8 i Hi) as Hi8.
  pose proof (Hflag j Hj) as Hfj.
  unfold relocate. mrun.
  all: intros k Hk; simp_cells; split_ifs.
  all: try (assert (Hoff : ¬ flag32 (cell B k) ≠ 0)
              by (intros Hf; apply Hf, Hflag; lia)).
  all: try (split; [split; [intros Hf; exfalso; apply Hf; first
              [ reflexivity | apply Hflag; lia | value_fact B ]
           | intros (Hki & Hp & Hb & H16); exfalso;
             first [congruence | zlia] ]
           | intros Hf; exfalso; first [ contradiction | apply Hf; first
              [ reflexivity | value_fact B ] ] ]; fail).
  all: split; [split; [intros _; repeat split; first [assumption | zlia]
              | intros _; value_fact B] | intros _; value_fact B].
Qed.


(** ** Boards that differ by dots *)

Lemma lor64_idem x : Z.lor (Z.lor x 64) 64 = Z.lor x 64.
Proof. rewrite <- Z.lor_assoc. reflexivity. Qed.

Lemma dots_within_refl S b : wf_board b → dots_within S b b.
Proof. intros Hwf. split; [exact Hwf|]. intros x Hx. left. reflexivity. Qed.

Lemma dots_within_trans (S1 S2 S : Z → Prop) b1 b2 b3 :
  (∀ x, S1 x → S x) → (∀ x, S2 x → S x) →
  dots_within S1 b1 b2 → dots_within S2 b2 b3 → dots_within S b1 b3.
Proof.
  intros H1 H2 [_ H12] [Hwf H23]. split; [exact Hwf|].
  intros x Hx.
  destruct (H23 x Hx) as [->|[Hs ->]]; destruct (H12 x Hx) as [->|[Hs' ->]].
  - left. reflexivity.
  - right. split; [apply H1, Hs'|reflexivity].
  - right. split; [apply H2, Hs|reflexivity].
  - right. split; [apply H2, Hs|apply lor64_idem].
Qed.

Lemma dots_within_weaken (S S' : Z → Prop) b b' :
  (∀ x, S x → S' x) → dots_within S b b' → dots_within S' b b'.
Proof.
  intros HS [Hwf H]. split; [exact Hwf|]. intros x Hx.
  destruct (H x Hx) as [->|[Hs ->]]; [left|right]; auto.
Qed.

(** The fields the move generator reads do not see the dots. *)
Lemma dots_within_fields S b b' x :
  wf_board b → dots_within S b b' → 0 ≤ x < 64 →
  piece (cell b' x) = piece (cell b x)
  ∧ color (cell b' x) = color (cell b x)
  ∧ flag16 (cell b' x) = flag16 (cell b x)
  ∧ flag32 (cell b' x) = flag32 (cell b x)
  ∧ selected (cell b' x) = selected (cell b x).
Proof.
  intros Hwf [_ H] Hx.
  destruct (H x Hx) as [->|[_ ->]]; [repeat split|].
  pose proof (wf_cell b x Hwf Hx) as Hb. byte_fact (cell b x).
Qed.

Lemma dot_returns (b : Board) k :
  wf_board b → 0 ≤ k < 64 →
  returns (dot b k) (dots_within (λ x, x = k) b).
Proof.
  intros Hwf Hk. pose proof (wf_length _ Hwf) as Hlen.
  unfold dot. mrun. split; [wf_tac|].
  intros x Hx. simp_cells.
  split_ifs; [subst; right; split; reflexivity|left; reflexivity].
Qed.

Lemma dot_if_returns (c : option bool) (b : Board) k (G : Prop) :
  wf_board b →
  returns c (λ t, t = true → 0 ≤ k < 64 ∧ G) →
  returns (dot_if c b k) (dots_within (λ x, x = k ∧ G) b).
Proof.
  intros Hwf Hc. unfold dot_if.
  eapply returns_bind; [exact Hc|]. intros [|] Ht; cbv beta iota.
  - destruct Ht as [Hk HG]; [reflexivity|].
    eapply returns_impl; [apply dot_returns; assumption|].
    intros b'. apply dots_within_weaken. intros x ->. auto.
  - apply dots_within_refl, Hwf.
Qed.

(** ** Pawns *)

Ltac cond_tac :=
  unfold capture, en_passant, test, differ; mrun;
  intros; first [discriminate | split; [zlia | first [exact I | zlia]]].

Lemma pawnMoves_returns (b : Board) (i : Z) :
  wf_board b → 0 ≤ i < 64 →
  returns (pawnMoves b i)
    (dots_within (pawn_targets (has16 (cell b i)) i) b).
Proof.
  intros Hwf Hi. pose proof (wf_length _ Hwf) as Hlen.
  pose proof (land7_mod i) as Hi7.
  unfold pawnMoves. rewrite (rd_cell b i) by len. mb.
  assert (Hcond : ∀ b1 : Board, wf_board b1 →
    returns (Some (i <? 16) &&& test b1 (i + 16) (is_piece NONE))
      (λ t, t = true → 0 ≤ i + 16 < 64 ∧ i < 16)
    ∧ returns (Some (i <? 56) &&& test b1 (i + 8) (is_piece NONE))
      (λ t, t = true → 0 ≤ i + 8 < 64 ∧ True)
    ∧ returns (Some (i <? 55) &&& Some (negb (Z.land i 7 =? 7))
                 &&& (capture b1 i (i + 9) ||| en_passant b1 i (i + 1)))
      (λ t, t = true → 0 ≤ i + 9 < 64 ∧ True)
    ∧ returns (Some (i <? 57) &&& Some (negb (Z.land i 7 =? 0))
                 &&& (capture b1 i (i + 7) ||| en_passant b1 i (i - 1)))
      (λ t, t = true → 0 ≤ i + 7 < 64 ∧ True)
    ∧ returns (Some (i >=? 48) &&& test b1 (i - 16) (is_piece NONE))
      (λ t, t = true → 0 ≤ i - 16 < 64 ∧ 48 ≤ i)
    ∧ returns (Some (i >=? 8) &&& test b1 (i - 8) (is_piece NONE))
      (λ t, t = true → 0 ≤ i - 8 < 64 ∧ True)
    ∧ returns (Some (i >=? 9) &&& Some (negb (Z.land i 7 =? 0))
                 &&& (capture b1 i (i - 9) ||| en_passant b1 i (i - 1)))
      (λ t, t = true → 0 ≤ i - 9 < 64 ∧ True)
    ∧ returns (Some (i >? 7) &&& Some (negb (Z.land i 7 =? 7))
                 &&& (capture b1 i (i - 7) ||| en_passant b1 i (i + 1)))
      (λ t, t = true → 0 ≤ i - 7 < 64 ∧ True)).
  { intros b1 Hwf1. pose proof (wf_length _ Hwf1) as Hlen1.
    repeat split; cond_tac. }
  destruct (has16 (cell b i)); cbv iota beta.
  - eapply returns_bind;
      [apply dot_if_returns; [exact Hwf|apply (Hcond b Hwf)]|].
    intros b1 H1; cbv beta.
    eapply returns_bind;
      [apply dot_if_returns; [apply H1|apply (Hcond b1), H1]|].
    intros b2 H2; cbv beta.
    eapply returns_bind;
      [apply dot_if_returns; [apply H2|apply (Hcond b2), H2]|].
    intros b3 H3; cbv beta.
    eapply returns_impl;
      [apply dot_if_returns; [apply H3|apply (Hcond b3), H3]|].
    intros b4 H4; cbv beta.
    eapply dots_within_trans; [| |
      eapply dots_within_trans; [| |
        eapply dots_within_trans; [| | exact H1 | exact H2 ] | exact H3 ]
      | exact H4 ]; cbv beta; unfold pawn_targets;
      try (intros x Hx; exact Hx); intros x Hx; try tauto.
  - eapply returns_bind;
      [apply dot_if_returns; [exact Hwf|apply (Hcond b Hwf)]|].
    intros b1 H1; cbv beta.
    eapply returns_bind;
      [apply dot_if_returns; [apply H1|apply (Hcond b1), H1]|].
    intros b2 H2; cbv beta.
    eapply returns_bind;
      [apply dot_if_returns; [apply H2|apply (Hcond b2), H2]|].
    intros b3 H3; cbv beta.
    eapply returns_impl;
      [apply dot_if_returns; [apply H3|apply (Hcond b3), H3]|].
    intros b4 H4; cbv beta.
    eapply dots_within_trans; [| |
      eapply dots_within_trans; [| |
        eapply dots_within_trans; [| | exact H1 | exact H2 ] | exact H3 ]
      | exact H4 ]; cbv beta; unfold pawn_targets;
      try (intros x Hx; exact Hx); intros x Hx; try tauto.
Qed.


Lemma removeDots_spec b :
  wf_board b → removeDots b = Some ((λ x, Z.land x 0xbf) <$> b).
Proof.
  intros Hwf. unfold removeDots. apply mask_all_spec; [exact Hwf|].
  intros x Hx. byte_fact x.
Qed.

Lemma removeDots_fields b k :
  wf_board b → 0 ≤ k < 64 →
  let x := cell b k in
  let y := cell ((λ x, Z.land x 0xbf) <$> b) k in
  byte y ∧ piece y = piece x ∧ color y = color x ∧ flag16 y = flag16 x
  ∧ flag32 y = flag32 x ∧ dotted y = 0 ∧ selected y = selected x.
Proof.
  intros Hwf Hk x y. subst x y.
  rewrite cell_fmap by (rewrite (wf_length b Hwf); lia).
  pose proof (wf_cell b k Hwf Hk) as Hb. byte_fact (cell b k).
Qed.

Lemma removeDots_wf b : wf_board b → wf_board ((λ x, Z.land x 0xbf) <$> b).
Proof. apply wf_fmap. intros x Hx. byte_fact x. Qed.

(** A generated double step of a pawn never lands on a far rank. *)
Lemma generated_double_step b j i :
  wf_board b → 0 ≤ j < 64 → 0 ≤ i < 64 →
  generated b j i → piece (cell b j) = PAWN →
  (i - j = 16 ∨ j - i = 16) → 16 ≤ i < 48.
Proof.
  intros Hwf Hj Hi (b0 & bc & Hrm & Hcalc & Hdot) Hp H16.
  rewrite (removeDots_spec b Hwf) in Hrm. injection Hrm as <-.
  set (b0 := (λ x, Z.land x 0xbf) <$> b) in *.
  pose proof (removeDots_wf b Hwf) as Hwf0. fold b0 in Hwf0.
  destruct (removeDots_fields b j Hwf Hj) as (_ & Hpj & _).
  destruct (removeDots_fields b i Hwf Hi) as (_ & _ & _ & _ & _ & Hdi & _).
  cbv zeta in Hpj, Hdi. fold b0 in Hpj, Hdi.
  unfold calculateMoves in Hcalc.
  rewrite (rd_cell b0 j) in Hcalc by (rewrite (wf_length _ Hwf0); lia).
  cbn [mbind option_bind] in Hcalc. cbv zeta in Hcalc.
  rewrite Hpj, Hp in Hcalc. change (PAWN =? PAWN) with true in Hcalc.
  cbv iota in Hcalc.
  pose proof (returns_eq _ _ _ (pawnMoves_returns b0 j Hwf0 Hj) Hcalc)
    as [_ Hframe].
  destruct (Hframe i Hi) as [Heq|[Ht _]].
  - rewrite Heq in Hdot. contradiction.
  - unfold pawn_targets in Ht. destruct (has16 (cell b0 j)); lia.
Qed.

(** Under its contract [movePiece] leaves bit 5 on exactly one kind of
    square, the destination of a pawn that has just gone two ranks;
    whatever carried the bit before the call has lost it, and at most
    one square, a pawn's, carries it. *)
Theorem movePiece_en_passant_flag (b : Board) (i j : Z) :
  wf_board b → only_selected b j → 0 ≤ i < 64 → generated b j i →
  ∃ b', movePiece b i = Some b'
        ∧ (∀ k, 0 ≤ k < 64 →
             (flag32 (cell b' k) ≠ 0 ↔
                k = i ∧ piece (cell b j) = PAWN
                ∧ (i - j = 16 ∨ j - i = 16)))
        ∧ (∀ k, 0 ≤ k < 64 →
             flag32 (cell b' k) ≠ 0 → piece (cell b' k) = PAWN)
        ∧ (∀ k k', 0 ≤ k < 64 → 0 ≤ k' < 64 →
             flag32 (cell b' k) ≠ 0 → flag32 (cell b' k') ≠ 0 → k = k').
Proof.
  intros Hwf Hsel Hi Hgen.
  rewrite (movePiece_switch b i j Hwf Hsel).
  destruct Hsel as (Hj & _ & _).
  pose proof (relocate_flag32 (cleared b) j i (cleared_wf b Hwf) Hj Hi) as Hrel.
  apply returns_Some in Hrel.
  2:{ intros k Hk.
      destruct (cleared_fields b k Hwf Hk) as (_ & _ & _ & _ & Hf & _).
      exact Hf. }
  destruct Hrel as (b' & Hb' & Hflag).
  destruct (cleared_fields b j Hwf Hj) as (_ & Hpj & _). cbv zeta in Hpj.
  rewrite Hpj in Hflag.
  assert (Hiff : ∀ k, 0 ≤ k < 64 →
             (flag32 (cell b' k) ≠ 0 ↔
                k = i ∧ piece (cell b j) = PAWN
                ∧ (i - j = 16 ∨ j - i = 16))).
  { intros k Hk. destruct (Hflag k Hk) as [Hiff _]. rewrite Hiff.
    split; [tauto|]. intros (Hki & Hp & H16).
    pose proof (generated_double_step b j i Hwf Hj Hi Hgen Hp H16).
    repeat split; auto; lia. }
  exists b'. split; [exact Hb'|]. split; [exact Hiff|]. split.
  - intros k Hk. apply (Hflag k Hk).
  - intros k k' Hk Hk' H1 H2.
    apply Hiff in H1; [|exact Hk]. apply Hiff in H2; [|exact Hk'].
    destruct H1 as [-> _], H2 as [-> _]. reflexivity.
Qed.


(** ** dotSquare *)

Lemma dotSquare_spec (b : Board) (pos n : Z) :
  wf_board b → 0 ≤ pos < 64 → 0 ≤ n < 64 →
  dotSquare b pos n
  = Some (if square_rule b pos n =? 0 then b
          else <[Z.to_nat n := Z.lor (cell b n) 64]> b,
          square_rule b pos n).
Proof.
  intros Hwf Hp Hn. pose proof (wf_length _ Hwf) as Hlen.
  unfold dotSquare, square_rule.
  rewrite (rd_cell b n) by len. mb.
  destruct (Z.eqb_spec (piece (cell b n)) NONE).
  - rewrite (wr_Some b n) by first [len | bytes]. reflexivity.
  - rewrite (rd_cell b pos) by len. mb.
    destruct (Z.eqb_spec (color (cell b pos)) (color (cell b n))); cbn [negb].
    + reflexivity.
    + rewrite (wr_Some b n) by first [len | bytes]. reflexivity.
Qed.

Lemma dotSquare_dots (b : Board) (pos n : Z) :
  wf_board b → 0 ≤ pos < 64 → 0 ≤ n < 64 →
  dots_within (λ x, x = n) b
    (if square_rule b pos n =? 0 then b
     else <[Z.to_nat n := Z.lor (cell b n) 64]> b).
Proof.
  intros Hwf Hp Hn. pose proof (wf_length _ Hwf) as Hlen.
  destruct (square_rule b pos n =? 0); [apply dots_within_refl, Hwf|].
  split; [wf_tac|]. intros x Hx. simp_cells.
  split_ifs; [subst; right; split; reflexivity|left; reflexivity].
Qed.

Lemma dotSquare_if_returns (c : option bool) (b : Board) i k (G : Prop) :
  wf_board b → 0 ≤ i < 64 →
  returns c (λ t, t = true → 0 ≤ k < 64 ∧ G) →
  returns (dotSquare_if c b i k) (dots_within (λ x, x = k ∧ G) b).
Proof.
  intros Hwf Hi Hc. unfold dotSquare_if.
  eapply returns_bind; [exact Hc|]. intros [|] Ht; cbv beta iota.
  - destruct Ht as [Hk HG]; [reflexivity|].
    unfold dotSquare_. rewrite dotSquare_spec by assumption.
    cbn [fmap option_fmap option_map returns fst].
    eapply dots_within_weaken; [|apply dotSquare_dots; assumption].
    intros x ->. auto.
  - apply dots_within_refl, Hwf.
Qed.

(** One guarded call of [dotSquare] keeps the board within the dots
    allowed by [S]. *)
Lemma dotSquare_if_step (S : Z → Prop) (c : option bool) (b0 b : Board) i k :
  dots_within S b0 b → 0 ≤ i < 64 →
  returns c (λ t, t = true → 0 ≤ k < 64 ∧ S k) →
  returns (dotSquare_if c b i k) (dots_within S b0).
Proof.
  intros H0 Hi Hc.
  eapply returns_impl;
    [apply (dotSquare_if_returns c b i k (S k)); [apply H0|exact Hi|exact Hc]|].
  intros b' H'. eapply dots_within_trans; [| |exact H0|exact H'].
  - auto.
  - intros x [-> Hs]. exact Hs.
Qed.

(** Case analysis on every comparison of the goal. *)
Ltac decide_cmps :=
  repeat match goal with
         | |- context [?a =? ?b] => destruct (Z.eqb_spec a b)
         | |- context [?a <? ?b] => destruct (Z.ltb_spec a b)
         | |- context [?a <=? ?b] => destruct (Z.leb_spec a b)
         | |- context [?a >? ?b] =>
             rewrite (Z.gtb_ltb a b); destruct (Z.ltb_spec b a)
         | |- context [?a >=? ?b] =>
             rewrite (Z.geb_leb a b); destruct (Z.leb_spec b a)
         end.

(** A guard that does not read the board. *)
Ltac pure_guard S :=
  cbn [returns]; decide_cmps; cbn [negb andb orb]; intros Ht;
  first [discriminate | split; [zlia | unfold S; zlia]].

Ltac steps S b0 Hi :=
  repeat (eapply returns_bind;
    [ match goal with
      | H : dots_within S b0 _ |- _ =>
          apply (dotSquare_if_step S _ b0 _ _ _ H Hi); pure_guard S
      end
    | let b' := fresh "b" in let H' := fresh "H" in
      intros b' H'; cbv beta;
      repeat match goal with
             | H : dots_within S b0 ?bb |- _ =>
                 lazymatch bb with b' => fail | _ => clear H end
             end ]);
  match goal with
  | H : dots_within S b0 _ |- _ =>
      apply (dotSquare_if_step S _ b0 _ _ _ H Hi); pure_guard S
  end.

(** ** The king *)

(** The eight steps of the king dot neighbours only. *)
Lemma kingSteps_returns (b : Board) (i : Z) :
  wf_board b → 0 ≤ i < 64 →
  returns (kingSteps b i)
    (dots_within (λ x, x = i - 8 ∨ x = i - 1 ∨ x = i + 1 ∨ x = i + 8
                       ∨ x = i - 9 ∨ x = i - 7 ∨ x = i + 7 ∨ x = i + 9) b).
Proof.
  intros Hwf Hi. pose proof (land7_mod i) as Hi7.
  unfold kingSteps. cbv zeta.
  match goal with |- returns _ (dots_within ?S _) => set (S0 := S) end.
  pose proof (dots_within_refl S0 b Hwf) as H0.
  steps S0 b Hi.
Qed.

Lemma knightMoves_returns (b : Board) (i : Z) :
  wf_board b → 0 ≤ i < 64 →
  returns (knightMoves b i)
    (dots_within (λ x, x = i - 17 ∨ x = i - 15 ∨ x = i - 10 ∨ x = i - 6
                       ∨ x = i + 17 ∨ x = i + 15 ∨ x = i + 10 ∨ x = i + 6) b).
Proof.
  intros Hwf Hi. pose proof (land7_mod i) as Hi7.
  unfold knightMoves. cbv zeta.
  match goal with |- returns _ (dots_within ?S _) => set (S0 := S) end.
  pose proof (dots_within_refl S0 b Hwf) as H0.
  steps S0 b Hi.
Qed.

Ltac finish_castle B :=
  split; [wf_tac|];
  intros x Hx; simp_cells; decide_cmps; cbn [negb andb orb];
  first [reflexivity | exfalso; zlia | subst; reflexivity
        | exfalso; congruence].

(** The castling part for a king on file 3: the rook squares are three
    to the left and four to the right. *)
Lemma kingCastle_file3 (B : Board) (i : Z) :
  wf_board B → 0 ≤ i < 64 → has16 (cell B i) = true → Z.land i 7 = 3 →
  returns (kingCastle B i) (λ b',
    wf_board b'
    ∧ ∀ x, 0 ≤ x < 64 →
        cell b' x =
        if (x =? i - 2) && castle_ready false B i (i - 3) [i - 2; i - 1]
           || (x =? i + 2)
              && castle_ready false B i (i + 4) [i + 1; i + 2; i + 3]
        then Z.lor (cell B x) 64 else cell B x).
Proof.
  intros Hwf Hi H16 Hfile. pose proof (wf_length _ Hwf) as Hlen.
  pose proof (land7_mod i) as Hi7.
  unfold kingCastle, castle_ready.
  rewrite (rd_cell B i) by len. mb. rewrite H16, Hfile.
  change (3 =? 3) with true. cbv iota.
  unfold dotSquare_if, dotSquare_, dotSquare, test, is_piece, has16.
  cbn [forallb andb].
  mrun.
  all: finish_castle B.
Qed.

(** The same for a king on another file: three to the right and four to
    the left, which is inside the board from square 4 to square 60. *)
Lemma kingCastle_file4 (B : Board) (i : Z) :
  wf_board B → 4 ≤ i ≤ 60 → has16 (cell B i) = true → Z.land i 7 ≠ 3 →
  returns (kingCastle B i) (λ b',
    wf_board b'
    ∧ ∀ x, 0 ≤ x < 64 →
        cell b' x =
        if (x =? i + 2) && castle_ready false B i (i + 3) [i + 2; i + 1]
           || (x =? i - 2)
              && castle_ready false B i (i - 4) [i - 1; i - 2; i - 3]
        then Z.lor (cell B x) 64 else cell B x).
Proof.
  intros Hwf Hi H16 Hfile. pose proof (wf_length _ Hwf) as Hlen.
  pose proof (land7_mod i) as Hi7.
  unfold kingCastle, castle_ready.
  rewrite (rd_cell B i) by len. mb. rewrite H16.
  destruct (Z.eqb_spec (Z.land i 7) 3); [contradiction|].
  unfold dotSquare_if, dotSquare_, dotSquare, test, is_piece, has16.
  cbn [forallb andb].
  mrun.
  all: finish_castle B.
Qed.

Lemma castle_ready_dots S b b1 i corner gap :
  wf_board b → dots_within S b b1 →
  0 ≤ corner < 64 → Forall (λ k, 0 ≤ k < 64) gap →
  castle_ready false b1 i corner gap = castle_ready false b i corner gap.
Proof.
  intros Hwf Hd Hc Hgap. unfold castle_ready, is_piece, has16.
  destruct (dots_within_fields S b b1 corner Hwf Hd Hc) as (-> & _ & -> & _).
  f_equal. induction Hgap as [|k gap Hk _ IH]; [reflexivity|].
  cbn [forallb]. rewrite IH.
  destruct (dots_within_fields S b b1 k Hwf Hd Hk) as (-> & _). reflexivity.
Qed.

Lemma between_two lo hi a b :
  hi = lo + 3 → a = lo + 1 → b = lo + 2 → between lo hi = [a; b].
Proof.
  intros -> -> ->. unfold between.
  replace (lo + 3 - lo - 1) with 2 by lia.
  change (Z.to_nat 2) with 2%nat. cbn [seq fmap list_fmap].
  replace (lo + 1 + Z.of_nat 0) with (lo + 1) by lia.
  replace (lo + 1 + Z.of_nat 1) with (lo + 2) by lia. reflexivity.
Qed.

Lemma between_three lo hi a b c :
  hi = lo + 4 → a = lo + 1 → b = lo + 2 → c = lo + 3 →
  between lo hi = [a; b; c].
Proof.
  intros -> -> -> ->. unfold between.
  replace (lo + 4 - lo - 1) with 3 by lia.
  change (Z.to_nat 3) with 3%nat. cbn [seq fmap list_fmap].
  replace (lo + 1 + Z.of_nat 0) with (lo + 1) by lia.
  replace (lo + 1 + Z.of_nat 1) with (lo + 2) by lia.
  replace (lo + 1 + Z.of_nat 2) with (lo + 3) by lia. reflexivity.
Qed.

(** The castling dots of a king on file 3 or 4, whatever the colour of
    the rook. *)
Lemma castling_marks_any_rook (b : Board) (i : Z) :
  wf_board b → 0 ≤ i < 64 →
  piece (cell b i) = KING → has16 (cell b i) = true →
  (Z.land i 7 = 3 ∨ Z.land i 7 = 4) →
  castling_marks false b i.
Proof.
  intros Hwf Hi Hk H16 Hfile. pose proof (wf_length _ Hwf) as Hlen.
  pose proof (land7_mod i) as Hi7.
  unfold castling_marks. apply returns_Some.
  unfold calculateMoves. rewrite (rd_cell b i) by len. mb. cbv zeta.
  rewrite Hk. change (KING =? PAWN) with false.
  change (KING =? KNIGHT) with false. change (KING =? BISHOP) with false.
  change (KING =? QUEEN) with false. change (KING =? ROOK) with false.
  change (KING =? KING) with true. cbv iota.
  eapply returns_bind; [apply kingSteps_returns; assumption|].
  intros b1 H1. cbv beta.
  assert (Hsame : ∀ x, 0 ≤ x < 64 → x = i - 2 ∨ x = i + 2 →
                       cell b1 x = cell b x).
  { intros x Hx Hx2. destruct H1 as [_ H1].
    destruct (H1 x Hx) as [Heq|[Hs _]]; [exact Heq|exfalso; lia]. }
  destruct (dots_within_fields _ b b1 i Hwf H1 Hi) as (_ & _ & H16' & _).
  assert (H16b : has16 (cell b1 i) = true)
    by (unfold has16 in *; rewrite H16'; exact H16).
  unfold left_corner, right_corner.
  destruct Hfile as [Hf|Hf].
  - eapply returns_impl;
      [apply kingCastle_file3; [apply H1|exact Hi|exact H16b|exact Hf]|].
    intros b' [_ Hb']. cbv beta in Hb'.
    replace (8 * (i / 8)) with (i - 3) by zlia.
    replace (i - 3 + 7) with (i + 4) by lia.
    rewrite (between_two (i - 3) i (i - 2) (i - 1)) by lia.
    rewrite (between_three i (i + 4) (i + 1) (i + 2) (i + 3)) by lia.
    rewrite !(castle_ready_dots _ b b1) in Hb'
      by first [exact Hwf | exact H1 | zlia
               | repeat (apply List.Forall_cons; [zlia|]);
                 apply List.Forall_nil].
    split.
    + rewrite (Hb' (i - 2)) by zlia. rewrite Hsame by zlia.
      rewrite Z.eqb_refl.
      destruct (Z.eqb_spec (i - 2) (i + 2)); [lia|].
      cbn [andb orb]. rewrite orb_false_r. reflexivity.
    + rewrite (Hb' (i + 2)) by zlia. rewrite Hsame by zlia.
      rewrite Z.eqb_refl.
      destruct (Z.eqb_spec (i + 2) (i - 2)); [lia|].
      cbn [andb orb]. reflexivity.
  - eapply returns_impl;
      [apply kingCastle_file4; [apply H1|zlia|exact H16b|zlia]|].
    intros b' [_ Hb']. cbv beta in Hb'.
    replace (8 * (i / 8)) with (i - 4) by zlia.
    replace (i - 4 + 7) with (i + 3) by lia.
    rewrite (between_three (i - 4) i (i - 3) (i - 2) (i - 1)) by lia.
    rewrite (between_two i (i + 3) (i + 1) (i + 2)) by lia.
    rewrite !(castle_ready_dots _ b b1) in Hb'
      by first [exact Hwf | exact H1 | zlia
               | repeat (apply List.Forall_cons; [zlia|]);
                 apply List.Forall_nil].
    assert (Hl : castle_ready false b i (i - 4) [i - 1; i - 2; i - 3]
                 = castle_ready false b i (i - 4) [i - 3; i - 2; i - 1]).
    { unfold castle_ready. cbn [forallb].
      destruct (is_piece NONE (cell b (i - 1))),
               (is_piece NONE (cell b (i - 2))),
               (is_piece NONE (cell b (i - 3))); reflexivity. }
    assert (Hr : castle_ready false b i (i + 3) [i + 2; i + 1]
                 = castle_ready false b i (i + 3) [i + 1; i + 2]).
    { unfold castle_ready. cbn [forallb].
      destruct (is_piece NONE (cell b (i + 1))),
               (is_piece NONE (cell b (i + 2))); reflexivity. }
    rewrite Hl, Hr in Hb'.
    split.
    + rewrite (Hb' (i - 2)) by zlia. rewrite Hsame by zlia.
      rewrite Z.eqb_refl.
      destruct (Z.eqb_spec (i - 2) (i + 2)); [lia|].
      cbn [andb orb]. reflexivity.
    + rewrite (Hb' (i + 2)) by zlia. rewrite Hsame by zlia.
      rewrite Z.eqb_refl.
      destruct (Z.eqb_spec (i + 2) (i - 2)); [lia|].
      cbn [andb orb]. rewrite orb_false_r. reflexivity.
Qed.

(** Castling as [calculateMoves] has it on any board: for a king on
    file 3 or 4 with its unmoved flag set, the square two files towards
    a corner gets a dot exactly when that corner holds a rook with its
    unmoved flag set and the squares between king and rook are empty.
    The colour of the rook is not looked at. *)
Theorem calculateMoves_castling (b : Board) (i : Z) :
  wf_board b → 0 ≤ i < 64 →
  piece (cell b i) = KING → has16 (cell b i) = true →
  (Z.land i 7 = 3 ∨ Z.land i 7 = 4) →
  castling_marks false b i.
Proof. apply castling_marks_any_rook. Qed.

(** With the colour of the rook in the condition the statement fails:
    the white king on square 3 is offered the castling square 1 beside a
    black rook that has not moved. *)
Lemma castling_ignores_rook_color :
  wf_board foreign_rook_board
  ∧ piece (cell foreign_rook_board 3) = KING
  ∧ has16 (cell foreign_rook_board 3) = true
  ∧ Z.land 3 7 = 3
  ∧ ¬ castling_marks true foreign_rook_board 3.
Proof.
  split; [apply wf_check_ok; reflexivity|].
  split; [reflexivity|]. split; [reflexivity|]. split; [reflexivity|].
  intros (b' & Hc & Hl & _).
  vm_compute in Hc. injection Hc as <-.
  vm_compute in Hl. discriminate.
Qed.


(** ** The geometry of the board, by running through its squares *)

Lemma squares_cases (P : Z → bool) :
  forallb P (Z.of_nat <$> seq 0 64) = true →
  ∀ p, 0 ≤ p < 64 → P p = true.
Proof.
  intros Hall p Hp. rewrite forallb_forall in Hall. apply Hall.
  apply list_elem_of_In, list_elem_of_fmap. exists (Z.to_nat p).
  split; [lia|]. apply elem_of_seq. lia.
Qed.

Lemma rays_ok (ds : list (Z * Z)) :
  forallb (λ i, rays_okb (ray i <$> ds)) (Z.of_nat <$> seq 0 64) = true →
  ∀ i, 0 ≤ i < 64 → rays_okb (ray i <$> ds) = true.
Proof. intros H i Hi. exact (squares_cases _ H i Hi). Qed.

Lemma rays_ok_all i :
  0 ≤ i < 64 → rays_okb (ray i <$> diagonals ++ straights) = true.
Proof. apply rays_ok. vm_compute. reflexivity. Qed.

Lemma rays_ok_diagonals i :
  0 ≤ i < 64 → rays_okb (ray i <$> diagonals) = true.
Proof. apply rays_ok. vm_compute. reflexivity. Qed.

Lemma rays_ok_straights i :
  0 ≤ i < 64 → rays_okb (ray i <$> straights) = true.
Proof. apply rays_ok. vm_compute. reflexivity. Qed.

Lemma dir_ok (guard : Z → bool) (step df dr : Z) :
  forallb (dir_okb guard step df dr) (Z.of_nat <$> seq 0 64) = true →
  ∀ p, 0 ≤ p < 64 →
    let j := u8 (p + step) in
    guard j = on_board (file p + df) (rank p + dr)
    ∧ (guard j = true → j = square (file p + df) (rank p + dr)).
Proof.
  intros H p Hp j. pose proof (squares_cases _ H p Hp) as Hb.
  unfold dir_okb in Hb. fold j in Hb.
  apply andb_true_iff in Hb as [H1 H2]. split.
  - apply eqb_prop, H1.
  - intros Hg. rewrite Hg in H2. apply Z.eqb_eq, H2.
Qed.

Lemma memb_In k l : memb k l = true ↔ In k l.
Proof.
  unfold memb. rewrite existsb_exists. split.
  - intros (x & Hx & ->%Z.eqb_eq). exact Hx.
  - intros Hk. exists k. split; [exact Hk|apply Z.eqb_refl].
Qed.

Lemma file_square f r : on_board f r = true → file (square f r) = f.
Proof. unfold on_board, file, square. intros H. zlia. Qed.

Lemma rank_square f r : on_board f r = true → rank (square f r) = r.
Proof. unfold on_board, rank, square. intros H. zlia. Qed.

Lemma square_on_board f r : on_board f r = true → 0 ≤ square f r < 64.
Proof. unfold on_board, square. intros H. lia. Qed.

(** ** A sliding loop is the square rule along the ray *)

Section Slide.
Variables (guard : Z → bool) (step df dr : Z).
Hypothesis Hdir :
  ∀ p, 0 ≤ p < 64 →
    let j := u8 (p + step) in
    guard j = on_board (file p + df) (rank p + dr)
    ∧ (guard j = true → j = square (file p + df) (rank p + dr)).
Variable i : Z.
Hypothesis Hi : 0 ≤ i < 64.

Lemma slide_mark_ray (n : nat) :
  ∀ (fuel : nat) (B : Board) (p : Z),
    (n ≤ fuel)%nat → wf_board B → 0 ≤ p < 64 →
    (length (ray_from n (file p) (rank p) df dr) < n)%nat →
    slide fuel guard step B i (u8 (p + step))
    = Some (mark_ray B i (ray_from n (file p) (rank p) df dr)).
Proof.
  induction n as [|n IH]; intros fuel B p Hfuel Hwf Hp Hlen.
  { simpl in Hlen. lia. }
  destruct fuel as [|fuel]; [lia|].
  destruct (Hdir p Hp) as [Hg Hj]. cbv zeta in Hg, Hj.
  cbn [slide ray_from]. rewrite Hg.
  destruct (on_board (file p + df) (rank p + dr)) eqn:Hon;
    [|reflexivity].
  rewrite Hj by (rewrite Hg; reflexivity).
  set (q := square (file p + df) (rank p + dr)) in *.
  pose proof (square_on_board _ _ Hon) as Hq. fold q in Hq.
  rewrite (dotSquare_spec B i q Hwf Hi Hq).
  cbn [mbind option_bind mark_ray]. cbv zeta.
  destruct (Z.eqb_spec (square_rule B i q) 1) as [H1|H1]; cbn [negb].
  - rewrite H1. change (1 =? 0) with false. cbv iota.
    cbn [ray_from length] in Hlen. rewrite Hon in Hlen.
    cbn [length] in Hlen.
    pose proof (file_square _ _ Hon) as Hfq.
    pose proof (rank_square _ _ Hon) as Hrq. fold q in Hfq, Hrq.
    rewrite <- Hfq, <- Hrq in Hlen |- *.
    apply IH; [lia| |exact Hq|lia].
    pose proof (dotSquare_dots B i q Hwf Hi Hq) as [Hwf' _].
    rewrite H1 in Hwf'. exact Hwf'.
  - reflexivity.
Qed.
End Slide.

(** ** The square rule along a ray *)

Lemma square_rule_dots S b0 b pos k :
  wf_board b0 → dots_within S b0 b → 0 ≤ pos < 64 → 0 ≤ k < 64 →
  square_rule b pos k = square_rule b0 pos k.
Proof.
  intros Hwf Hd Hp Hk. unfold square_rule.
  destruct (dots_within_fields S b0 b k Hwf Hd Hk) as (-> & -> & _).
  destruct (dots_within_fields S b0 b pos Hwf Hd Hp) as (_ & -> & _).
  reflexivity.
Qed.

Lemma dots_within_insert S b0 b k :
  wf_board b0 → dots_within S b0 b → 0 ≤ k < 64 →
  dots_within (λ _, True) b0 (<[Z.to_nat k := Z.lor (cell b k) 64]> b).
Proof.
  intros Hwf0 Hd Hk.
  pose proof Hd as [Hwf Hcells]. pose proof (wf_length _ Hwf) as Hlen.
  split; [wf_tac|]. intros x Hx. simp_cells.
  destruct (Z.eqb_spec x k) as [->|Hne].
  - right. split; [exact I|].
    destruct (Hcells k Hk) as [->|[_ ->]]; [reflexivity|apply lor64_idem].
  - destruct (Hcells x Hx) as [->|[_ ->]]; [left|right]; auto.
Qed.

Section MarkRay.
Variables (b0 : Board) (pos : Z).
Hypothesis Hwf0 : wf_board b0.
Hypothesis Hpos : 0 ≤ pos < 64.

Lemma mark_ray_spec (l : list Z) :
  ∀ b, dots_within (λ _, True) b0 b →
       nodupb l = true → forallb on_array l = true →
    dots_within (λ x, In x l) b (mark_ray b pos l)
    ∧ ∀ pre k post, l = pre ++ k :: post →
        cell (mark_ray b pos l) k
        = if ray_clear b0 pre && negb (square_rule b0 pos k =? 0)
          then Z.lor (cell b k) 64 else cell b k.
Proof.
  induction l as [|q rest IH]; intros b Hd Hnd Hin.
  { split; [apply dots_within_refl, Hd|].
    intros [|? ?] k post Heq; discriminate. }
  cbn [nodupb forallb] in Hnd, Hin.
  apply andb_true_iff in Hnd as [Hq Hnd], Hin as [Hqb Hin].
  apply negb_true_iff in Hq. unfold on_array in Hqb.
  assert (Hqr : 0 ≤ q < 64) by lia.
  pose proof Hd as [Hwf _]. pose proof (wf_length _ Hwf) as Hlen.
  assert (Hnotin : ∀ pre k post, rest = pre ++ k :: post → k ≠ q).
  { intros pre k post -> ->.
    assert (Hm : memb q (pre ++ q :: post) = true)
      by (apply memb_In, in_elt).
    congruence. }
  cbn [mark_ray]. cbv zeta.
  rewrite (square_rule_dots _ b0 b pos q Hwf0 Hd Hpos Hqr).
  pose proof (dots_within_insert _ b0 b q Hwf0 Hd Hqr) as Hd1.
  set (b1 := <[Z.to_nat q := Z.lor (cell b q) 64]> b) in *.
  assert (Hb1 : dots_within (λ x, x = q) b b1).
  { split; [apply Hd1|]. intros x Hx. unfold b1. simp_cells.
    split_ifs; [subst; right; split; reflexivity|left; reflexivity]. }
  assert (Hempty : (square_rule b0 pos q =? 1) = is_piece NONE (cell b0 q)).
  { unfold square_rule, is_piece.
    destruct (piece (cell b0 q) =? NONE); [reflexivity|].
    destruct (negb _); reflexivity. }
  destruct (Z.eqb_spec (square_rule b0 pos q) 1) as [H1|H1].
  - (* empty: mark and continue *)
    destruct (IH b1 Hd1 Hnd Hin) as [Hrest Hcells]. split.
    + eapply dots_within_trans; [| |exact Hb1|exact Hrest]; cbv beta.
      * intros x ->. left. reflexivity.
      * intros x Hx. right. exact Hx.
    + intros [|q' pre] k post Heq; injection Heq as <- Heq.
      * cbn [ray_clear forallb andb]. rewrite H1.
        change (negb (1 =? 0)) with true. cbv iota.
        destruct Hrest as [_ Hrest].
        destruct (Hrest q Hqr) as [->|[Hm _]].
        -- unfold b1. simp_cells. reflexivity.
        -- apply memb_In in Hm. congruence.
      * rewrite (Hcells pre k post Heq).
        cbn [ray_clear forallb]. rewrite <- Hempty. cbn [andb].
        fold (ray_clear b0 pre).
        assert (Hk : cell b1 k = cell b k).
        { unfold b1.
          destruct (Z.leb_spec 0 k).
          - simp_cells.
            destruct (Z.eqb_spec k q) as [Hkq|]; [|reflexivity].
            exfalso. exact (Hnotin pre k post Heq Hkq).
          - unfold cell, rd. destruct (Z.leb_spec 0 k); [lia|reflexivity]. }
        rewrite Hk. reflexivity.
  - (* occupied: stop, marking a piece of the other colour *)
    assert (Hstop : ∀ pre k post, rest = pre ++ k :: post →
              ray_clear b0 (q :: pre) = false).
    { intros pre k post _. cbn [ray_clear forallb].
      rewrite <- Hempty. reflexivity. }
    destruct (Z.eqb_spec (square_rule b0 pos q) 0) as [H0|H0].
    + split; [apply dots_within_refl, Hwf|].
      intros [|q' pre] k post Heq; injection Heq as <- Heq.
      * rewrite H0. rewrite andb_false_r. reflexivity.
      * rewrite (Hstop pre k post Heq). reflexivity.
    + split.
      * eapply dots_within_weaken; [|exact Hb1].
        intros x ->. left. reflexivity.
      * intros [|q' pre] k post Heq; injection Heq as <- Heq.
        -- cbn [ray_clear forallb andb].
           destruct (Z.eqb_spec (square_rule b0 pos q) 0); [contradiction|].
           unfold b1. simp_cells. reflexivity.
        -- rewrite (Hstop pre k post Heq). cbn [andb].
           unfold b1.
           destruct (Z.leb_spec 0 k).
           ++ simp_cells.
              destruct (Z.eqb_spec k q) as [Hkq|]; [|reflexivity].
              exfalso. exact (Hnotin pre k post Heq Hkq).
           ++ unfold cell, rd.
              destruct (Z.leb_spec 0 k); [lia|reflexivity].
Qed.
End MarkRay.

(** ** Several rays *)

Section MarkRays.
Variables (b0 : Board) (pos : Z).
Hypothesis Hwf0 : wf_board b0.
Hypothesis Hpos : 0 ≤ pos < 64.

Lemma mark_rays_spec (rays : list (list Z)) :
  ∀ b, dots_within (λ _, True) b0 b → rays_okb rays = true →
    dots_within (λ x, ∃ r, In r rays ∧ In x r) b (mark_rays b pos rays)
    ∧ ∀ r pre k post, In r rays → r = pre ++ k :: post →
        cell (mark_rays b pos rays) k
        = if ray_clear b0 pre && negb (square_rule b0 pos k =? 0)
          then Z.lor (cell b k) 64 else cell b k.
Proof.
  induction rays as [|r rays IH]; intros b Hd Hok.
  { split; [apply dots_within_refl, Hd|]. intros r pre k post []. }
  unfold rays_okb in Hok. cbn [forallb apartb] in Hok.
  apply andb_true_iff in Hok as [Hall Hapart].
  apply andb_true_iff in Hall as [Hr Hall].
  apply andb_true_iff in Hr as [Hr _].
  apply andb_true_iff in Hr as [Hnd Hin].
  apply andb_true_iff in Hapart as [Hrapart Hapart].
  assert (Hok' : rays_okb rays = true)
    by (unfold rays_okb; rewrite Hall, Hapart; reflexivity).
  destruct (mark_ray_spec b0 pos Hwf0 Hpos r b Hd Hnd Hin) as [Hd1 Hc1].
  set (b1 := mark_ray b pos r) in *.
  assert (Hd01 : dots_within (λ _, True) b0 b1).
  { eapply dots_within_trans; [| |exact Hd|exact Hd1]; auto. }
  destruct (IH b1 Hd01 Hok') as [Hd2 Hc2].
  change (mark_rays b pos (r :: rays)) with (mark_rays b1 pos rays).
  assert (Hbound : ∀ k, In k r → 0 ≤ k < 64).
  { intros k Hk. rewrite forallb_forall in Hin.
    specialize (Hin k Hk). unfold on_array in Hin. lia. }
  assert (Hdisj : ∀ k r', In k r → In r' rays → ¬ In k r').
  { intros k r' Hk Hr' Hk'. rewrite forallb_forall in Hrapart.
    specialize (Hrapart k Hk). rewrite forallb_forall in Hrapart.
    specialize (Hrapart r' Hr'). apply negb_true_iff in Hrapart.
    apply memb_In in Hk'. congruence. }
  split.
  - eapply dots_within_trans; [| |exact Hd1|exact Hd2]; cbv beta.
    + intros x Hx. exists r. split; [left; reflexivity|exact Hx].
    + intros x (r' & Hr' & Hx). exists r'. split; [right; exact Hr'|exact Hx].
  - intros r' pre k post [<-|Hr'] Heq.
    + assert (Hk : In k r) by (rewrite Heq; apply in_elt).
      destruct Hd2 as [_ Hd2].
      destruct (Hd2 k (Hbound k Hk)) as [->|[(r' & Hr' & Hk') _]].
      * apply (Hc1 pre k post Heq).
      * exfalso. exact (Hdisj k r' Hk Hr' Hk').
    + rewrite (Hc2 r' pre k post Hr' Heq).
      assert (Hk : In k r') by (rewrite Heq; apply in_elt).
      assert (Hkb : 0 ≤ k < 64).
      { rewrite forallb_forall in Hall. specialize (Hall r' Hr').
        apply andb_true_iff in Hall as [Hall _].
        apply andb_true_iff in Hall as [_ Hall].
        rewrite forallb_forall in Hall. specialize (Hall k Hk). unfold on_array in Hall. lia. }
      destruct Hd1 as [_ Hd1].
      destruct (Hd1 k Hkb) as [->|[Hkr _]]; [reflexivity|].
      exfalso. exact (Hdisj k r' Hkr Hr' Hk).
Qed.
End MarkRays.

Lemma mark_rays_wf b pos rays :
  wf_board b → 0 ≤ pos < 64 → rays_okb rays = true →
  wf_board (mark_rays b pos rays).
Proof.
  intros Hwf Hpos Hok.
  destruct (mark_rays_spec b pos Hwf Hpos rays b
              (dots_within_refl _ b Hwf) Hok) as [[Hwf' _] _].
  exact Hwf'.
Qed.

(** ** The loops of the source are rays *)

Lemma ray_length i (ds : list (Z * Z)) d :
  rays_okb (ray i <$> ds) = true → In d ds → (length (ray i d) < 8)%nat.
Proof.
  intros Hok Hd. unfold rays_okb in Hok.
  apply andb_true_iff in Hok as [Hall _].
  rewrite forallb_forall in Hall.
  specialize (Hall (ray i d)).
  assert (Hin : In (ray i d) (ray i <$> ds)).
  { apply list_elem_of_In, list_elem_of_fmap. exists d.
    split; [reflexivity|apply list_elem_of_In, Hd]. }
  specialize (Hall Hin). apply andb_true_iff in Hall as [_ Hl].
  apply Nat.ltb_lt, Hl.
Qed.

Lemma slide_ray (guard : Z → bool) (step : Z) (d : Z * Z) (B : Board) i :
  forallb (dir_okb guard step d.1 d.2) (Z.of_nat <$> seq 0 64) = true →
  wf_board B → 0 ≤ i < 64 → (length (ray i d) < 8)%nat →
  slide slide_fuel guard step B i (u8 (i + step))
  = Some (mark_ray B i (ray i d)).
Proof.
  intros Hdir Hwf Hi Hlen.
  apply (slide_mark_ray guard step d.1 d.2 (dir_ok _ _ _ _ Hdir) i Hi 8);
    [unfold slide_fuel; lia|exact Hwf|exact Hi|exact Hlen].
Qed.

Lemma mark_ray_wf b pos i d (ds : list (Z * Z)) :
  wf_board b → 0 ≤ pos < 64 →
  rays_okb (ray i <$> ds) = true → In d ds →
  wf_board (mark_ray b pos (ray i d)).
Proof.
  intros Hwf Hpos Hok Hd. unfold rays_okb in Hok.
  apply andb_true_iff in Hok as [Hall _].
  rewrite forallb_forall in Hall.
  assert (Hin : In (ray i d) (ray i <$> ds)).
  { apply list_elem_of_In, list_elem_of_fmap. exists d.
    split; [reflexivity|apply list_elem_of_In, Hd]. }
  specialize (Hall _ Hin). apply andb_true_iff in Hall as [Hall _].
  apply andb_true_iff in Hall as [Hnd Hin'].
  destruct (mark_ray_spec b pos Hwf Hpos (ray i d) b
              (dots_within_refl _ b Hwf) Hnd Hin') as [[Hwf' _] _].
  exact Hwf'.
Qed.

Ltac wf_rays i Hi ds Hok :=
  first [ assumption
        | eapply (mark_ray_wf _ _ i _ ds);
          [wf_rays i Hi ds Hok|exact Hi|exact Hok|cbn; tauto] ].

Ltac ray_step i Hi ds Hok d :=
  match goal with
  | |- context [slide slide_fuel ?g ?s ?B i (u8 ?e)] =>
      change e with (i + s);
      rewrite (slide_ray g s d B i);
      [ cbn [mbind option_bind]
      | vm_compute; reflexivity
      | wf_rays i Hi ds Hok
      | exact Hi
      | apply (ray_length i ds); [exact Hok|cbn; tauto] ]
  end.

Lemma dotDiagonals_rays (B : Board) i :
  wf_board B → 0 ≤ i < 64 →
  dotDiagonals B i = Some (mark_rays B i (ray i <$> diagonals)).
Proof.
  intros Hwf Hi. pose proof (rays_ok_diagonals i Hi) as Hok.
  unfold dotDiagonals.
  ray_step i Hi diagonals Hok (-1, -1).
  ray_step i Hi diagonals Hok (1, -1).
  ray_step i Hi diagonals Hok (-1, 1).
  ray_step i Hi diagonals Hok (1, 1).
  reflexivity.
Qed.

Lemma dotStraights_rays (B : Board) i :
  wf_board B → 0 ≤ i < 64 →
  dotStraights B i = Some (mark_rays B i (ray i <$> straights)).
Proof.
  intros Hwf Hi. pose proof (rays_ok_straights i Hi) as Hok.
  unfold dotStraights.
  ray_step i Hi straights Hok (0, -1).
  ray_step i Hi straights Hok (-1, 0).
  ray_step i Hi straights Hok (1, 0).
  ray_step i Hi straights Hok (0, 1).
  reflexivity.
Qed.


(** ** Bishop, rook and queen *)

Example ray_d4_down_right : ray 27 (1, 1) = [36; 45; 54; 63].
Proof. reflexivity. Qed.

Example ray_a8_left : ray 0 (-1, 0) = [].
Proof. reflexivity. Qed.

Example ray_h5_left : ray 31 (-1, 0) = [30; 29; 28; 27; 26; 25; 24].
Proof. reflexivity. Qed.

Lemma slider_rays_ok p i :
  0 ≤ i < 64 → rays_okb (ray i <$> slider_dirs p) = true.
Proof.
  intros Hi. unfold slider_dirs.
  destruct (p =? BISHOP); [apply rays_ok_diagonals, Hi|].
  destruct (p =? ROOK); [apply rays_ok_straights, Hi|].
  destruct (p =? QUEEN); [apply rays_ok_all, Hi|reflexivity].
Qed.

Lemma calculateMoves_slider_rays (b : Board) (i : Z) :
  wf_board b → 0 ≤ i < 64 →
  (piece (cell b i) = BISHOP ∨ piece (cell b i) = ROOK
   ∨ piece (cell b i) = QUEEN) →
  calculateMoves b i
  = Some (mark_rays b i (ray i <$> slider_dirs (piece (cell b i)))).
Proof.
  intros Hwf Hi Hp. pose proof (wf_length _ Hwf) as Hlen.
  unfold calculateMoves. rewrite (rd_cell b i) by len.
  cbn [mbind option_bind]. cbv zeta.
  destruct Hp as [Hp|[Hp|Hp]]; rewrite Hp; unfold slider_dirs.
  - change (BISHOP =? PAWN) with false. change (BISHOP =? KNIGHT) with false.
    change (BISHOP =? BISHOP) with true. cbv iota.
    apply dotDiagonals_rays; assumption.
  - change (ROOK =? PAWN) with false. change (ROOK =? KNIGHT) with false.
    change (ROOK =? BISHOP) with false. change (ROOK =? QUEEN) with false.
    change (ROOK =? ROOK) with true. cbv iota.
    apply dotStraights_rays; assumption.
  - change (QUEEN =? PAWN) with false. change (QUEEN =? KNIGHT) with false.
    change (QUEEN =? BISHOP) with false. change (QUEEN =? ROOK) with false.
    change (QUEEN =? QUEEN) with true. cbv iota.
    rewrite dotDiagonals_rays by assumption. cbn [mbind option_bind].
    rewrite dotStraights_rays;
      [|apply mark_rays_wf; [exact Hwf|exact Hi|apply rays_ok_diagonals, Hi]
       |exact Hi].
    unfold mark_rays. rewrite fmap_app, foldl_app. reflexivity.
Qed.

(** C8: for a bishop, rook or queen on [i], along every ray of the
    piece the squares are settled one after the other by the square
    rule: a square gets its dot exactly when every square before it on
    the ray is empty and it is itself empty or holds the other colour;
    any square behind the first occupied one, and the first occupied
    one when it is of the mover's colour, is left as it was, and so is
    every square that lies on no ray of the piece. *)
Theorem calculateMoves_slides (b : Board) (i : Z) :
  wf_board b → 0 ≤ i < 64 →
  (piece (cell b i) = BISHOP ∨ piece (cell b i) = ROOK
   ∨ piece (cell b i) = QUEEN) →
  ∃ b', calculateMoves b i = Some b'
        ∧ (∀ d pre k post,
             d ∈ slider_dirs (piece (cell b i)) →
             ray i d = pre ++ k :: post →
             cell b' k
             = if ray_clear b pre && negb (square_rule b i k =? 0)
               then Z.lor (cell b k) 64 else cell b k)
        ∧ (∀ k, 0 ≤ k < 64 →
             (∀ d, d ∈ slider_dirs (piece (cell b i)) → k ∉ ray i d) →
             cell b' k = cell b k).
Proof.
  intros Hwf Hi Hp.
  rewrite (calculateMoves_slider_rays b i Hwf Hi Hp).
  eexists. split; [reflexivity|].
  destruct (mark_rays_spec b i Hwf Hi _ b (dots_within_refl _ b Hwf)
              (slider_rays_ok (piece (cell b i)) i Hi)) as [[_ Hframe] Hcells].
  split.
  - intros d pre k post Hd Heq.
    apply (Hcells (ray i d) pre k post); [|exact Heq].
    apply list_elem_of_In, list_elem_of_fmap. exists d. auto.
  - intros k Hk Hoff.
    destruct (Hframe k Hk) as [Heq|[(r & Hr & Hkr) _]]; [exact Heq|].
    exfalso. apply list_elem_of_In, list_elem_of_fmap in Hr as (d & -> & Hd).
    apply (Hoff d Hd). apply list_elem_of_In, Hkr.
Qed.


(** ** calculateMoves only adds dots *)

Lemma castling_reads_inside_check_ok b :
  castling_reads_inside_check b = true → castling_reads_inside b.
Proof.
  unfold castling_reads_inside_check. intros Hall k Hk Hp H16.
  rewrite forallb_forall in Hall.
  assert (Hin : In (Z.to_nat k) (seq 0 64)) by (apply in_seq; lia).
  specialize (Hall _ Hin). cbv zeta in Hall.
  rewrite Z2Nat.id in Hall by lia.
  unfold is_piece in Hall. rewrite Hp, H16 in Hall.
  change (KING =? KING) with true in Hall. cbn in Hall. lia.
Qed.

Lemma kingCastle_returns (B : Board) (i : Z) :
  wf_board B → 0 ≤ i < 64 →
  (has16 (cell B i) = true → 3 ≤ i ≤ 60) →
  returns (kingCastle B i) (dots_within (λ _, True) B).
Proof.
  intros Hwf Hi Hsafe. pose proof (wf_length _ Hwf) as Hlen.
  pose proof (land7_mod i) as Hi7.
  assert (Hcells : ∀ (c : Z → bool) b',
    wf_board b' →
    (∀ x, 0 ≤ x < 64 →
       cell b' x = if c x then Z.lor (cell B x) 64 else cell B x) →
    dots_within (λ _, True) B b').
  { intros c b' Hwf' Hc. split; [exact Hwf'|]. intros x Hx.
    rewrite (Hc x Hx). destruct (c x); [right|left]; auto. }
  destruct (has16 (cell B i)) eqn:H16.
  - specialize (Hsafe eq_refl).
    destruct (Z.eq_dec (Z.land i 7) 3) as [Hf|Hf].
    + eapply returns_impl; [apply kingCastle_file3; assumption|].
      intros b' [Hwf' Hc]. eapply Hcells; [exact Hwf'|exact Hc].
    + eapply returns_impl; [apply kingCastle_file4; [assumption|zlia|assumption..]|].
      intros b' [Hwf' Hc]. eapply Hcells; [exact Hwf'|exact Hc].
  - unfold kingCastle. rewrite (rd_cell B i) by len.
    cbn [mbind option_bind]. rewrite H16. cbn [returns].
    apply dots_within_refl, Hwf.
Qed.

Lemma calculateMoves_returns (b : Board) (i : Z) :
  wf_board b → 0 ≤ i < 64 →
  (piece (cell b i) = KING → has16 (cell b i) = true → 3 ≤ i ≤ 60) →
  returns (calculateMoves b i) (dots_within (λ _, True) b).
Proof.
  intros Hwf Hi Hsafe. pose proof (wf_length _ Hwf) as Hlen.
  destruct (Z.eq_dec (piece (cell b i)) BISHOP) as [Hb|Hb];
    [|destruct (Z.eq_dec (piece (cell b i)) ROOK) as [Hr|Hr];
      [|destruct (Z.eq_dec (piece (cell b i)) QUEEN) as [Hq|Hq]]].
  1-3: rewrite calculateMoves_slider_rays by tauto; cbn [returns];
       destruct (mark_rays_spec b i Hwf Hi _ b (dots_within_refl _ b Hwf)
                   (slider_rays_ok (piece (cell b i)) i Hi)) as [Hd _];
       eapply dots_within_weaken; [|exact Hd]; auto.
  unfold calculateMoves. rewrite (rd_cell b i) by len.
  cbn [mbind option_bind]. cbv zeta.
  destruct (Z.eqb_spec (piece (cell b i)) PAWN).
  { eapply returns_impl; [apply pawnMoves_returns; assumption|].
    intros b'. apply dots_within_weaken. auto. }
  destruct (Z.eqb_spec (piece (cell b i)) KNIGHT).
  { eapply returns_impl; [apply knightMoves_returns; assumption|].
    intros b'. apply dots_within_weaken. auto. }
  destruct (Z.eqb_spec (piece (cell b i)) BISHOP); [contradiction|].
  destruct (Z.eqb_spec (piece (cell b i)) QUEEN); [contradiction|].
  destruct (Z.eqb_spec (piece (cell b i)) ROOK); [contradiction|].
  destruct (Z.eqb_spec (piece (cell b i)) KING) as [Hk|Hk].
  - eapply returns_bind; [apply kingSteps_returns; assumption|].
    intros b1 H1. cbv beta.
    eapply returns_impl.
    + apply kingCastle_returns; [apply H1|exact Hi|].
      intros H16. apply Hsafe; [exact Hk|].
      destruct (dots_within_fields _ b b1 i Hwf H1 Hi) as (_ & _ & Hf & _).
      unfold has16 in *. rewrite <- Hf. exact H16.
    + intros b' H'. eapply dots_within_trans; [| |exact H1|exact H']; auto.
  - cbn [returns]. apply dots_within_refl, Hwf.
Qed.

(** ** verifyMove *)

Lemma copy_board_app (l2 : list Z) :
  ∀ l1 junk, length junk = length l2 → Forall byte l2 →
    copy_board (length l2) (Z.of_nat (length l1))
      {| live := l1 ++ l2; scratch := l1 ++ junk |}
    = Some {| live := l1 ++ l2; scratch := l1 ++ l2 |}.
Proof.
  induction l2 as [|x l2 IH]; intros l1 junk Hlen Hb.
  - destruct junk; [reflexivity|discriminate].
  - destruct junk as [|y junk]; [discriminate|].
    injection Hlen as Hlen. inversion Hb as [|? ? Hx Hb']; subst.
    cbn [copy_board length live scratch].
    assert (Hrd : rd (l1 ++ x :: l2) (Z.of_nat (length l1)) = Some x).
    { unfold rd. destruct (Z.leb_spec 0 (Z.of_nat (length l1))); [|lia].
      rewrite Nat2Z.id. rewrite lookup_app_r; [|lia].
      replace (length l1 - length l1)%nat with 0%nat by lia. reflexivity. }
    rewrite Hrd. cbn [mbind option_bind].
    rewrite wr_Some; [|rewrite length_app; simpl; lia|exact Hx].
    cbn [mbind option_bind]. rewrite Nat2Z.id.
    rewrite insert_app_r_alt; [|lia].
    replace (length l1 - length l1)%nat with 0%nat by lia. cbn [insert list_insert].
    specialize (IH (l1 ++ [x]) junk Hlen Hb').
    rewrite length_app in IH. cbn [length] in IH.
    replace (Z.of_nat (length l1 + 1)) with (Z.of_nat (length l1) + 1) in IH by lia.
    rewrite <- !app_assoc in IH. cbn [app] in IH. exact IH.
Qed.

Lemma copy_board_spec b :
  wf_board b →
  copy_board 64 0 {| live := b; scratch := replicate 64 0 |}
  = Some {| live := b; scratch := b |}.
Proof.
  intros [Hl Hb].
  pose proof (copy_board_app b [] (replicate 64 0)) as H.
  rewrite Hl in H. apply H; [reflexivity|exact Hb].
Qed.

Lemma king_dotted_returns (b : Board) (n : nat) :
  wf_board b → ∀ i, 0 ≤ i → i + Z.of_nat n ≤ 64 →
  returns (king_dotted n i b) (λ _, True).
Proof.
  intros Hwf. pose proof (wf_length _ Hwf) as Hlen.
  induction n as [|n IH]; intros i Hi Hn; [exact I|].
  cbn [king_dotted]. unfold test.
  rewrite (rd_cell b i) by len. mb.
  destruct (negb (dotted (cell b i) =? 0)); mb;
    [destruct (is_piece KING (cell b i)); mb|];
    first [exact I | apply IH; lia].
Qed.

Lemma verify_scan_returns (side : Z) (n : nat) :
  ∀ j b2, wf_board b2 → castling_reads_inside b2 →
    0 ≤ j → j + Z.of_nat n ≤ 64 →
    returns (verify_scan n j b2 side) (λ r, r = 0 ∨ r = 1).
Proof.
  induction n as [|n IH]; intros j b2 Hwf Hsafe Hj Hn; [right; reflexivity|].
  pose proof (wf_length _ Hwf) as Hlen.
  cbn [verify_scan]. unfold test.
  rewrite (rd_cell b2 j) by len. mb.
  assert (Hskip : returns (verify_scan n (j + 1) b2 side) (λ r, r = 0 ∨ r = 1))
    by (apply IH; [assumption..|lia|lia]).
  destruct (occupied (cell b2 j)); mb; [|exact Hskip].
  destruct (color (cell b2 j) =? side); mb; [|exact Hskip].
  eapply returns_bind.
  { apply calculateMoves_returns; [exact Hwf|lia|]. apply Hsafe. lia. }
  intros b3 H3. cbv beta.
  eapply returns_bind; [apply (king_dotted_returns b3 64); [apply H3|lia|lia]|].
  intros [|] _; cbv beta iota; [left; reflexivity|].
  rewrite (removeDots_spec b3) by apply H3. cbn [mbind option_bind].
  apply IH; [apply removeDots_wf, H3| |lia|lia].
  intros k Hk Hp H16.
  destruct (removeDots_fields b3 k (proj1 H3) Hk) as (_ & Hp' & _ & Hf' & _).
  cbv zeta in Hp', Hf'.
  destruct (dots_within_fields _ b2 b3 k Hwf H3 Hk) as (Hp3 & _ & Hf3 & _).
  apply (Hsafe k Hk).
  - rewrite <- Hp3, <- Hp'. exact Hp.
  - unfold has16 in *. rewrite <- Hf3, <- Hf'. exact H16.
Qed.

(** Under the contract of the call [verifyMove] returns 0 or 1, and the
    board it hands back is the board it was given. *)
Lemma verifyMove_returns (b : Board) (i side : Z) :
  wf_board b →
  (∃ j, 0 ≤ j < 64 ∧ selected (cell b j) ≠ 0) →
  castling_reads_inside b →
  0 ≤ i < 64 →
  ∃ r, verifyMove b i side = Some (r, b) ∧ (r = 0 ∨ r = 1).
Proof.
  intros Hwf Hsel Hsafe Hi.
  enough (Hmain : ∃ p, verifyMove b i side = Some p
                       ∧ p = (p.1, b) ∧ (p.1 = 0 ∨ p.1 = 1)).
  { destruct Hmain as ([r b'] & Hv & Heq & Hr). cbn [fst] in *.
    injection Heq as ->. exists r. split; [exact Hv|exact Hr]. }
  destruct (find_selected_spec b 64 0 Hwf) as (j & _ & Hj & Hs & Hmin);
    [lia|lia| |].
  { destruct Hsel as (k & Hk & Hks). exists k. split; [lia|exact Hks]. }
  assert (Hfirst : first_selected b j) by (split; [lia|split; assumption]).
  apply returns_Some.
  assert (Hret : returns (verifyMove b i side)
                   (λ p, p = (p.1, b) ∧ (p.1 = 0 ∨ p.1 = 1))).
  { unfold verifyMove.
    eapply returns_bind with (P := λ fr, fr = {| live := b; scratch := b |}).
    { rewrite (copy_board_spec b Hwf). reflexivity. }
    intros fr ->. cbn [live scratch].
    eapply returns_bind; [apply (movePiece_returns b i j Hwf Hfirst Hi)|].
    intros b2 (Hwf2 & _ & _ & Hcells). cbv beta.
    assert (Hsafe2 : castling_reads_inside b2).
    { intros k Hk Hp H16.
      destruct (Hcells k Hk) as [(_ & _ & Hp' & Hf' & _)|[_ Hno]].
      - apply (Hsafe k Hk); [rewrite <- Hp'; exact Hp|].
        unfold has16 in *. rewrite <- Hf'. exact H16.
      - exfalso. apply Hno. split; [left; exact Hp|].
        unfold has16 in H16. intros Hz. rewrite Hz in H16. discriminate. }
    eapply returns_bind;
      [apply (verify_scan_returns side 64 0 b2 Hwf2 Hsafe2); lia|].
    intros r Hr. cbn [returns fst]. split; [reflexivity|exact Hr]. }
  exact Hret.
Qed.

(** C5, with the contract of the call: when some square is selected and
    the castling tests stay inside the array, [verifyMove] returns 0 or
    1 and the caller's board is what it was. *)
Theorem verifyMove_pure (b : Board) (i side : Z) :
  wf_board b →
  (∃ j, 0 ≤ j < 64 ∧ selected (cell b j) ≠ 0) →
  castling_reads_inside b →
  0 ≤ i < 64 →
  ∃ r, verifyMove b i side = Some (r, b) ∧ (r = 0 ∨ r = 1).
Proof. apply verifyMove_returns. Qed.

(** Without a selected square the scan of [movePiece] runs off the
    scratch copy, and the call has no result. *)
Lemma verifyMove_needs_selection :
  wf_board (setupBoard 1)
  ∧ ¬ ∃ r b', verifyMove (setupBoard 1) 24 1 = Some (r, b').
Proof.
  split; [apply wf_check_ok; reflexivity|].
  intros (r & b' & H). vm_compute in H. discriminate.
Qed.


(** ** Boards that agree up to some bits *)

Lemma board_ext (b b' : Board) :
  Z.of_nat (length b) = 64 → Z.of_nat (length b') = 64 →
  (∀ k, 0 ≤ k < 64 → cell b k = cell b' k) → b = b'.
Proof.
  intros Hl Hl' Hc. apply list_eq. intros n.
  destruct (Nat.lt_ge_cases n 64) as [Hn|Hn].
  - specialize (Hc (Z.of_nat n)). unfold cell, rd in Hc.
    destruct (Z.leb_spec 0 (Z.of_nat n)); [|lia].
    rewrite Nat2Z.id in Hc.
    destruct (lookup_lt_is_Some_2 b n) as [x Hx]; [lia|].
    destruct (lookup_lt_is_Some_2 b' n) as [x' Hx']; [lia|].
    rewrite Hx, Hx' in *. simpl in Hc. rewrite Hc by lia. reflexivity.
  - rewrite !lookup_ge_None_2 by lia. reflexivity.
Qed.

Lemma same_mod_refl m b : wf_board b → same_mod m b b.
Proof. intros Hwf. split; [exact Hwf|]. reflexivity. Qed.

Lemma same_mod_trans m b1 b2 b3 :
  same_mod m b1 b2 → same_mod m b2 b3 → same_mod m b1 b3.
Proof.
  intros [_ H12] [Hwf H23]. split; [exact Hwf|].
  intros k Hk. rewrite H23, H12 by assumption. reflexivity.
Qed.

Lemma same_mod_sym m b1 b2 : wf_board b1 → same_mod m b1 b2 → same_mod m b2 b1.
Proof.
  intros Hwf [_ H]. split; [exact Hwf|]. intros k Hk. symmetry. auto.
Qed.

Lemma same_mod_3f b b' : same_mod 0xbf b b' → same_mod 0x3f b b'.
Proof.
  intros [Hwf H]. split; [exact Hwf|]. intros k Hk.
  change 0x3f with (Z.land 0xbf 0x3f).
  rewrite !Z.land_assoc, (H k Hk). reflexivity.
Qed.

Lemma dots_within_same S b b' :
  wf_board b → dots_within S b b' → same_mod 0xbf b b'.
Proof.
  intros Hwf [Hwf' H]. split; [exact Hwf'|]. intros k Hk.
  destruct (H k Hk) as [->|[_ ->]]; [reflexivity|].
  pose proof (wf_cell b k Hwf Hk) as Hb. byte_fact (cell b k).
Qed.

Lemma fmap_same (f : Z → Z) m b :
  wf_board b → (∀ x, byte x → byte (f x) ∧ Z.land (f x) m = Z.land x m) →
  same_mod m b (f <$> b).
Proof.
  intros Hwf Hf. split.
  - apply wf_fmap; [intros x Hx; apply Hf, Hx|exact Hwf].
  - intros k Hk. rewrite cell_fmap by (rewrite (wf_length b Hwf); lia).
    apply Hf, wf_cell; assumption.
Qed.

(** The fields below bit 6 are functions of the low six bits. *)
Lemma same_3f_fields b b' k :
  wf_board b → same_mod 0x3f b b' → 0 ≤ k < 64 →
  piece (cell b' k) = piece (cell b k)
  ∧ color (cell b' k) = color (cell b k)
  ∧ flag16 (cell b' k) = flag16 (cell b k)
  ∧ flag32 (cell b' k) = flag32 (cell b k).
Proof.
  intros Hwf [Hwf' H] Hk. specialize (H k Hk).
  pose proof (wf_cell b k Hwf Hk) as Hb.
  pose proof (wf_cell b' k Hwf' Hk) as Hb'.
  assert (Hlow : ∀ x, byte x →
    piece x = piece (Z.land x 0x3f) ∧ color x = color (Z.land x 0x3f)
    ∧ flag16 x = flag16 (Z.land x 0x3f) ∧ flag32 x = flag32 (Z.land x 0x3f)).
  { intros x Hx. byte_fact x. }
  destruct (Hlow _ Hb) as (-> & -> & -> & ->).
  destruct (Hlow _ Hb') as (-> & -> & -> & ->).
  rewrite H. repeat split.
Qed.

Lemma same_bf_selected b b' k :
  wf_board b → same_mod 0xbf b b' → 0 ≤ k < 64 →
  selected (cell b' k) = selected (cell b k).
Proof.
  intros Hwf [Hwf' H] Hk. specialize (H k Hk).
  pose proof (wf_cell b k Hwf Hk) as Hb.
  pose proof (wf_cell b' k Hwf' Hk) as Hb'.
  assert (Hs : ∀ x, byte x → selected x = selected (Z.land x 0xbf))
    by (intros x Hx; byte_fact x).
  rewrite (Hs _ Hb), (Hs _ Hb'), H. reflexivity.
Qed.

Lemma castling_reads_inside_same b b' :
  wf_board b → same_mod 0x3f b b' →
  castling_reads_inside b → castling_reads_inside b'.
Proof.
  intros Hwf Hs Hsafe k Hk Hp H16.
  destruct (same_3f_fields b b' k Hwf Hs Hk) as (Hp' & _ & Hf' & _).
  apply (Hsafe k Hk); [rewrite <- Hp'; exact Hp|].
  unfold has16 in *. rewrite <- Hf'. exact H16.
Qed.

Lemma flags_ok_same b b' :
  wf_board b → same_mod 0x3f b b' → flags_ok b → flags_ok b'.
Proof.
  intros Hwf Hs Hok k k' Hk Hk' Hf Hf'.
  destruct (same_3f_fields b b' k Hwf Hs Hk) as (Hp & _ & _ & H32).
  destruct (same_3f_fields b b' k' Hwf Hs Hk') as (_ & _ & _ & H32').
  rewrite H32 in Hf. rewrite H32' in Hf'. rewrite Hp.
  apply (Hok k k'); assumption.
Qed.

Lemma only_selected_same b b' j :
  wf_board b → same_mod 0xbf b b' → only_selected b j → only_selected b' j.
Proof.
  intros Hwf Hs (Hj & Hsel & Hothers). split; [exact Hj|]. split.
  - rewrite (same_bf_selected b b' j Hwf Hs Hj). exact Hsel.
  - intros k Hk Hne. rewrite (same_bf_selected b b' k Hwf Hs Hk). auto.
Qed.

Lemma home_flags_same w b b' :
  wf_board b → same_mod 0x3f b b' → home_flags w b → home_flags w b'.
Proof.
  intros Hwf Hs Hhome k Hk H16 Hp.
  destruct (same_3f_fields b b' k Hwf Hs Hk) as (Hp' & _ & Hf' & _).
  destruct Hs as [_ Hs]. specialize (Hs k Hk).
  assert (H31 : Z.land (cell b' k) 31 = Z.land (cell b k) 31).
  { change 31 with (Z.land 0x3f 31). rewrite !Z.land_assoc, Hs. reflexivity. }
  rewrite H31. apply (Hhome k Hk).
  - unfold has16 in *. rewrite <- Hf'. exact H16.
  - rewrite <- Hp'. exact Hp.
Qed.

(** ** The filter of the dots *)

Lemma filter_dots_returns (t : Z) (n : nat) :
  ∀ j b, wf_board b → (∃ s, 0 ≤ s < 64 ∧ selected (cell b s) ≠ 0) →
    castling_reads_inside b → 0 ≤ j → j + Z.of_nat n ≤ 64 →
    returns (filter_dots n j b t) (λ b',
      same_mod 0xbf b b'
      ∧ ∀ k, 0 ≤ k < 64 → dotted (cell b' k) ≠ 0 → dotted (cell b k) ≠ 0).
Proof.
  induction n as [|n IH]; intros j b Hwf Hsel Hsafe Hj Hn.
  { split; [apply same_mod_refl, Hwf|auto]. }
  pose proof (wf_length _ Hwf) as Hlen.
  cbn [filter_dots]. unfold test.
  rewrite (rd_cell b j) by len. cbn [mbind option_bind].
  assert (Hskip : returns (filter_dots n (j + 1) b t) (λ b',
      same_mod 0xbf b b'
      ∧ ∀ k, 0 ≤ k < 64 → dotted (cell b' k) ≠ 0 → dotted (cell b k) ≠ 0))
    by (apply IH; [assumption..|lia|lia]).
  destruct (negb (dotted (cell b j) =? 0)); [|exact Hskip].
  destruct (verifyMove_returns b j t Hwf Hsel Hsafe) as (r & -> & _); [lia|].
  cbn [mbind option_bind].
  destruct (r =? 0); [|exact Hskip].
  rewrite (rd_cell b j) by len. cbn [mbind option_bind].
  rewrite (wr_Some b j) by first [len | bytes]. cbn [mbind option_bind].
  set (b1 := <[Z.to_nat j := Z.land (cell b j) 0xbf]> b).
  assert (H1 : same_mod 0xbf b b1).
  { split; [unfold b1; wf_tac|]. intros k Hk. unfold b1. simp_cells.
    destruct (Z.eqb_spec k j) as [->|]; [|reflexivity].
    rewrite <- Z.land_assoc. reflexivity. }
  assert (Hd1 : ∀ k, 0 ≤ k < 64 →
                  dotted (cell b1 k) ≠ 0 → dotted (cell b k) ≠ 0).
  { intros k Hk. unfold b1. simp_cells.
    destruct (Z.eqb_spec k j) as [->|]; [|auto].
    intros Hd. exfalso. apply Hd.
    pose proof (wf_cell b j Hwf Hk) as Hb. byte_fact (cell b j). }
  eapply returns_impl.
  - apply IH; [apply H1| | |lia|lia].
    + destruct Hsel as (s & Hs & Hss). exists s. split; [exact Hs|].
      rewrite (same_bf_selected b b1 s Hwf H1 Hs). exact Hss.
    + apply (castling_reads_inside_same b b1 Hwf); [|exact Hsafe].
      apply same_mod_3f, H1.
  - intros b' [H' Hd']. split.
    + eapply same_mod_trans; [exact H1|exact H'].
    + intros k Hk Hd. apply Hd1; [exact Hk|]. apply Hd'; assumption.
Qed.

(** ** One click *)

Lemma removeDots_same b :
  wf_board b → same_mod 0xbf b ((λ x, Z.land x 0xbf) <$> b).
Proof.
  intros Hwf. apply fmap_same; [exact Hwf|]. intros x Hx. byte_fact x.
Qed.

Lemma removeDots_dotted b k :
  wf_board b → 0 ≤ k < 64 →
  dotted (cell ((λ x, Z.land x 0xbf) <$> b) k) = 0.
Proof.
  intros Hwf Hk.
  destruct (removeDots_fields b k Hwf Hk) as (_ & _ & _ & _ & _ & Hd & _).
  exact Hd.
Qed.

(** A board without dots is what [removeDots] makes of any board that
    agrees with it up to the dots. *)
Lemma removeDots_back b0 b :
  wf_board b0 → (∀ k, 0 ≤ k < 64 → dotted (cell b0 k) = 0) →
  same_mod 0xbf b0 b →
  (λ x, Z.land x 0xbf) <$> b = b0.
Proof.
  intros Hwf0 Hclean [Hwf H].
  apply board_ext.
  - rewrite length_fmap. apply wf_length, Hwf.
  - apply wf_length, Hwf0.
  - intros k Hk. rewrite cell_fmap by (rewrite (wf_length b Hwf); lia).
    rewrite (H k Hk). specialize (Hclean k Hk).
    pose proof (wf_cell b0 k Hwf0 Hk) as Hb. cell_fact b0 k.
Qed.

Lemma idle_same_picking_false b j : idle b → only_selected b j → False.
Proof.
  intros Hidle (Hj & Hsel & _). destruct (Hidle j Hj) as [_ Hs]. congruence.
Qed.

(** Selecting a piece: the last branch of the click handler. *)
Lemma select_returns (b : Board) (t i : Z) :
  session_inv b → 0 ≤ i < 64 →
  returns (b1 ← mask_all 0x3f b;
           x ← rd b1 i;
           b2 ← wr b1 i (Z.lor x 128);
           b3 ← calculateMoves b2 i;
           b4 ← filter_dots 64 0 b3 t;
           Some (b4, t))
    (λ st, session_inv st.1 ∧ picking st.1 i ∧ same_mod 0x3f b st.1).
Proof.
  intros (Hwf & Hsafe & Hflags & _ & w & Hhome) Hi.
  eapply returns_bind_eq;
    [apply mask_all_spec; [exact Hwf|intros x Hx; byte_fact x]|].
  set (b1 := (λ x, Z.land x 0x3f) <$> b).
  assert (H1 : same_mod 0x3f b b1)
    by (apply fmap_same; [exact Hwf|]; intros x Hx; byte_fact x).
  pose proof H1 as [Hwf1 _]. pose proof (wf_length _ Hwf1) as Hlen1.
  eapply returns_bind_eq; [apply (rd_cell b1 i); len|].
  eapply returns_bind_eq; [apply (wr_Some b1 i); first [len | bytes]|].
  set (b2 := <[Z.to_nat i := Z.lor (cell b1 i) 128]> b1).
  assert (Hc1 : ∀ k, 0 ≤ k < 64 → cell b1 k = Z.land (cell b k) 0x3f).
  { intros k Hk. unfold b1.
    rewrite cell_fmap by (rewrite (wf_length b Hwf); lia). reflexivity. }
  assert (H12 : same_mod 0x3f b1 b2).
  { split; [unfold b2; wf_tac|]. intros k Hk. unfold b2. simp_cells.
    destruct (Z.eqb_spec k i) as [->|]; [|reflexivity].
    pose proof (wf_cell b1 i Hwf1 Hi) as Hb. byte_fact (cell b1 i). }
  pose proof H12 as [Hwf2 _].
  assert (H02 : same_mod 0x3f b b2) by (eapply same_mod_trans; eassumption).
  assert (Hclean2 : ∀ k, 0 ≤ k < 64 → dotted (cell b2 k) = 0).
  { intros k Hk. unfold b2. simp_cells.
    pose proof (wf_cell b k Hwf Hk) as Hb.
    pose proof (wf_cell b i Hwf Hi) as Hbi.
    destruct (Z.eqb_spec k i) as [->|]; rewrite Hc1 by assumption.
    - byte_fact (cell b i).
    - byte_fact (cell b k). }
  assert (Hsel2 : only_selected b2 i).
  { split; [exact Hi|]. split.
    - unfold b2. simp_cells. rewrite Hc1 by assumption.
      pose proof (wf_cell b i Hwf Hi) as Hb. byte_fact (cell b i).
    - intros k Hk Hne. unfold b2. simp_cells.
      destruct (Z.eqb_spec k i); [contradiction|]. rewrite Hc1 by assumption.
      pose proof (wf_cell b k Hwf Hk) as Hb. byte_fact (cell b k). }
  assert (Hsafe2 : castling_reads_inside b2)
    by (apply (castling_reads_inside_same b b2 Hwf H02 Hsafe)).
  assert (Hret := calculateMoves_returns b2 i Hwf2 Hi (Hsafe2 i Hi)).
  apply returns_Some in Hret. destruct Hret as (b3 & Hb3 & H3).
  eapply returns_bind_eq; [exact Hb3|].
  pose proof (dots_within_same _ b2 b3 Hwf2 H3) as H23.
  pose proof H23 as [Hwf3 _].
  assert (Hsel3 : only_selected b3 i)
    by (apply (only_selected_same b2 b3 i Hwf2 H23 Hsel2)).
  eapply returns_bind.
  { apply (filter_dots_returns t 64 0 b3 Hwf3); [| |lia|lia].
    - exists i. split; [exact Hi|apply Hsel3].
    - apply (castling_reads_inside_same b2 b3 Hwf2); [|exact Hsafe2].
      apply same_mod_3f, H23. }
  intros b4 [H34 Hd34]. cbn [returns fst].
  pose proof H34 as [Hwf4 Hc34].
  assert (H24 : same_mod 0xbf b2 b4) by (eapply same_mod_trans; eassumption).
  assert (H04 : same_mod 0x3f b b4).
  { eapply same_mod_trans; [exact H02|apply same_mod_3f, H24]. }
  assert (Hpick : picking b4 i).
  { split; [apply (only_selected_same b2 b4 i Hwf2 H24 Hsel2)|].
    intros k Hk Hdot. exists b2, b3.
    split; [|split].
    - rewrite (removeDots_spec b4 Hwf4). f_equal.
      apply removeDots_back; assumption.
    - exact Hb3.
    - apply Hd34; assumption. }
  split; [|split; [exact Hpick|exact H04]].
  split; [exact Hwf4|]. split; [|split].
  - apply (castling_reads_inside_same b b4 Hwf H04 Hsafe).
  - apply (flags_ok_same b b4 Hwf H04 Hflags).
  - split; [right; exists i; exact Hpick|].
    exists w. apply (home_flags_same w b b4 Hwf H04 Hhome).
Qed.

(** The flag of [movePiece], without looking at how the destination
    was chosen. *)
Lemma movePiece_flags_ok (b : Board) (i j : Z) :
  wf_board b → first_selected b j → 0 ≤ i < 64 →
  returns (movePiece b i) flags_ok.
Proof.
  intros Hwf Hsel Hi.
  rewrite (movePiece_switch_first b i j Hwf Hsel).
  destruct Hsel as (Hj & _ & _).
  eapply returns_impl.
  - apply (relocate_flag32 (cleared b) j i (cleared_wf b Hwf) Hj Hi).
    intros k Hk.
    destruct (cleared_fields b k Hwf Hk) as (_ & _ & _ & _ & Hf & _).
    exact Hf.
  - intros b' Hflag k k' Hk Hk' Hf Hf'.
    destruct (Hflag k Hk) as [Hiff Hpawn].
    destruct (Hflag k' Hk') as [Hiff' _].
    apply Hiff in Hf as Hki. apply Hiff' in Hf'.
    destruct Hki as [-> _], Hf' as [-> _].
    split; [reflexivity|apply Hpawn, Hf].
Qed.

Lemma click_returns (b : Board) (t i : Z) :
  session_inv b → 0 ≤ i < 64 →
  returns (click (b, t) i) (λ st,
    session_inv st.1
    ∧ ((dotted (cell b i) ≠ 0 ∧ movePiece b i = Some st.1)
       ∨ (dotted (cell b i) = 0 ∧ same_mod 0x3f b st.1))).
Proof.
  intros Hinv Hi.
  pose proof Hinv as (Hwf & Hsafe & Hflags & Hshape & w & Hhome).
  pose proof (wf_length _ Hwf) as Hlen.
  assert (Hstay : ∀ t', dotted (cell b i) = 0 →
            returns (Some (b, t')) (λ st : Board * Z,
              session_inv st.1
              ∧ ((dotted (cell b i) ≠ 0 ∧ movePiece b i = Some st.1)
                 ∨ (dotted (cell b i) = 0 ∧ same_mod 0x3f b st.1)))).
  { intros t' Hd. split; [exact Hinv|]. right.
    split; [exact Hd|apply same_mod_refl, Hwf]. }
  unfold click. cbv beta iota.
  eapply returns_bind_eq; [apply (rd_cell b i); len|].
  destruct (Z.eqb_spec (cell b i) 0) as [Hz|_];
    [apply Hstay; rewrite Hz; reflexivity|].
  destruct (Z.eqb_spec (dotted (cell b i)) 0) as [Hnd|Hd]; cbn [negb].
  2:{ (* a dot was clicked: the move is made *)
    destruct Hshape as [Hidle|[j [Hsel Hgen]]];
      [destruct (Hidle i Hi); contradiction|].
    pose proof (only_selected_first b j Hsel) as Hfirst.
    pose proof (movePiece_returns b i j Hwf Hfirst Hi) as Hret.
    pose proof (movePiece_flags_ok b i j Hwf Hfirst Hi) as Hfl.
    apply returns_Some in Hret.
    destruct Hret as (b' & Hb' & Hwf' & _ & Hdots & Hcells).
    rewrite Hb' in Hfl. cbn [returns] in Hfl.
    eapply returns_bind_eq; [exact Hb'|]. cbn [returns fst].
    destruct Hsel as (Hj & _ & Hothers).
    split; [|left; split; [exact Hd|exact Hb']].
    split; [exact Hwf'|]. split; [|split; [exact Hfl|split; [left|]]].
    3:{ exists w. intros k Hk H16 Hp.
        destruct (Hcells k Hk) as [(_ & _ & Hp' & Hf' & H31)|[_ Hno]].
        - rewrite H31. apply (Hhome k Hk).
          + unfold has16 in *. rewrite <- Hf'. exact H16.
          + rewrite <- Hp'. exact Hp.
        - exfalso. apply Hno. split; [exact Hp|].
          unfold has16 in H16. intros Hz. rewrite Hz in H16. discriminate. }
    - intros k Hk Hp H16.
      destruct (Hcells k Hk) as [(_ & _ & Hp' & Hf' & _)|[_ Hno]].
      + apply (Hsafe k Hk); [rewrite <- Hp'; exact Hp|].
        unfold has16 in *. rewrite <- Hf'. exact H16.
      + exfalso. apply Hno. split; [left; exact Hp|].
        unfold has16 in H16. intros Hz. rewrite Hz in H16. discriminate.
    - intros k Hk. split; [apply Hdots, Hk|].
      destruct (Hcells k Hk) as [(Hne & Hs & _)|[Hs _]]; [|exact Hs].
      rewrite Hs. apply Hothers; assumption. }
  destruct (piece (cell b i) =? NONE); [apply Hstay, Hnd|].
  destruct (color (cell b i) =? t); [apply Hstay, Hnd|].
  destruct (Z.eqb_spec (selected (cell b i)) 0) as [Hns|Hs]; cbn [negb].
  - (* another piece of the side to move is selected *)
    eapply returns_impl; [apply (select_returns b t i Hinv Hi)|].
    intros st (Hst & _ & Hsame). split; [exact Hst|]. right. auto.
  - (* the selected piece is clicked again *)
    eapply returns_bind_eq; [apply (wr_Some b i); first [len | bytes]|].
    set (b1 := <[Z.to_nat i := Z.land (cell b i) 127]> b).
    assert (Hwf1 : wf_board b1) by (unfold b1; wf_tac).
    eapply returns_bind_eq; [apply (removeDots_spec b1 Hwf1)|].
    cbn [returns fst].
    set (b2 := (λ x, Z.land x 0xbf) <$> b1).
    assert (H01 : same_mod 0x3f b b1).
    { split; [exact Hwf1|]. intros k Hk. unfold b1. simp_cells.
      destruct (Z.eqb_spec k i) as [->|]; [|reflexivity].
      rewrite <- Z.land_assoc. reflexivity. }
    assert (H02 : same_mod 0x3f b b2).
    { eapply same_mod_trans; [exact H01|].
      apply same_mod_3f, removeDots_same, Hwf1. }
    split; [|right; split; [exact Hnd|exact H02]].
    split; [apply H02|]. split; [|split; [|split; [left|]]].
    4:{ exists w. apply (home_flags_same w b b2 Hwf H02 Hhome). }
    + apply (castling_reads_inside_same b b2 Hwf H02 Hsafe).
    + apply (flags_ok_same b b2 Hwf H02 Hflags).
    + destruct Hshape as [Hidle|[j [(Hj & Hsj & Hothers) _]]];
        [destruct (Hidle i Hi); contradiction|].
      assert (i = j) as <-.
      { destruct (Z.eq_dec i j); [assumption|].
        exfalso. apply Hs, Hothers; assumption. }
      intros k Hk. split; [apply removeDots_dotted; assumption|].
      destruct (removeDots_fields b1 k Hwf1 Hk) as (_ & _ & _ & _ & _ & _ & Hsl).
      cbv zeta in Hsl. fold b2 in Hsl. rewrite Hsl.
      unfold b1. simp_cells.
      destruct (Z.eqb_spec k i) as [->|Hne]; [|apply Hothers; assumption].
      pose proof (wf_cell b i Hwf Hi) as Hb. byte_fact (cell b i).
Qed.

(** ** Every position of a game *)

Lemma setupBoard_cases (w : Z) :
  setupBoard w = setupBoard 1 ∨ setupBoard w = setupBoard 0.
Proof. unfold setupBoard. destruct (negb (w =? 0)); [left|right]; reflexivity. Qed.

Lemma setupBoard_inv (w : Z) : session_inv (setupBoard w).
Proof.
  assert (Hchk : ∀ b : Board,
    wf_check b = true → castling_reads_inside_check b = true →
    forallb (λ p, (flag32 (cell b p) =? 0) && (dotted (cell b p) =? 0)
                  && (selected (cell b p) =? 0)
                  && (Z.land (cell b p) 31 =? cell b p))
      (Z.of_nat <$> seq 0 64) = true →
    wf_board b ∧ castling_reads_inside b ∧ flags_ok b
    ∧ (idle b ∨ ∃ j, picking b j)
    ∧ ∀ k, 0 ≤ k < 64 → Z.land (cell b k) 31 = cell b k).
  { intros b H1 H2 H3.
    assert (Hall := squares_cases _ H3). cbv beta in Hall.
    split; [apply wf_check_ok, H1|].
    split; [apply castling_reads_inside_check_ok, H2|].
    split; [|split; [left|]].
    - intros k k' Hk Hk' Hf _. specialize (Hall k Hk). exfalso. lia.
    - intros k Hk. specialize (Hall k Hk). lia.
    - intros k Hk. specialize (Hall k Hk). lia. }
  assert (Hboth : ∀ v, v = 1 ∨ v = 0 → session_inv (setupBoard v)).
  { intros v Hv.
    destruct (Hchk (setupBoard v)) as (H1 & H2 & H3 & H4 & H5);
      [destruct Hv as [->| ->]; vm_compute; reflexivity..|].
    split; [exact H1|]. split; [exact H2|]. split; [exact H3|].
    split; [exact H4|]. exists v. intros k Hk _ _. apply H5, Hk. }
  destruct (setupBoard_cases w) as [-> | ->]; apply Hboth; auto.
Qed.

(** Every position of a game satisfies the invariant of the session: it
    is a 64-byte board, at most one square carries the en passant flag
    and it holds a pawn, and either nothing is selected or dotted, or
    one square is selected and the dots are moves generated for it. *)
Theorem reachable_session_inv (st : Board * Z) :
  reachable st → session_inv st.1.
Proof.
  induction 1 as [w|[b t] st' i Hreach IH Hi Hclick].
  - apply setupBoard_inv.
  - apply (returns_eq _ _ _ (click_returns b t i IH Hi) Hclick).
Qed.

(** No click on a square of the board, in any position of a game, makes
    the program read or write outside the board. *)
Theorem click_defined (st : Board * Z) (i : Z) :
  reachable st → 0 ≤ i < 64 → ∃ st', click st i = Some st'.
Proof.
  intros Hreach Hi. pose proof (reachable_session_inv st Hreach) as Hinv.
  destruct st as [b t].
  pose proof (click_returns b t i Hinv Hi) as Hret.
  apply returns_Some in Hret. destruct Hret as (st' & Hst' & _).
  exists st'. exact Hst'.
Qed.

(** In every position of a game at most one square carries the en
    passant flag, and the square holds a pawn. *)
Corollary reachable_flags_ok (st : Board * Z) :
  reachable st → flags_ok st.1.
Proof. intros Hreach. apply (reachable_session_inv st Hreach). Qed.

(** In every position of a game in which a dot is shown, [movePiece] is
    called under its contract: one square is selected and the clicked
    dot is a move generated for the piece on it. *)
Corollary reachable_move_contract (st : Board * Z) (i : Z) :
  reachable st → 0 ≤ i < 64 → dotted (cell st.1 i) ≠ 0 →
  ∃ j, only_selected st.1 j ∧ generated st.1 j i.
Proof.
  intros Hreach Hi Hd.
  destruct (reachable_session_inv st Hreach)
    as (_ & _ & _ & [Hidle|[j Hp]] & _).
  - destruct (Hidle i Hi). contradiction.
  - exists j. destruct Hp as [Hsel Hgen]. split; [exact Hsel|].
    apply Hgen; assumption.
Qed.

(** What [play] returns is a position of a game. *)
Lemma play_reachable (w : Z) (clicks : list Z) (st : Board * Z) :
  forallb on_array clicks = true →
  play w clicks = Some st → reachable st.
Proof.
  unfold play. revert st.
  induction clicks as [|i clicks IH] using rev_ind; intros st Hin Hplay.
  - injection Hplay as <-. apply reach_setup.
  - rewrite forallb_app in Hin. apply andb_true_iff in Hin as [Hin Hi].
    cbn [forallb] in Hi. unfold on_array in Hi.
    rewrite foldl_app in Hplay. cbn [foldl] in Hplay.
    destruct (foldl _ _ clicks) as [st0|] eqn:Hst0; [|discriminate].
    cbn [mbind option_bind] in Hplay.
    apply (reach_click st0 st i); [apply IH; auto|lia|exact Hplay].
Qed.

(** ** Castling in play *)

(** C3, for the positions of a game: for a king whose unmoved flag is
    set, the square two files towards a corner gets a dot exactly when
    that corner holds a rook of the king's colour with its unmoved flag
    set and the squares between king and rook are empty.  The code does
    not read the colour of the rook; in a game a rook with its flag set
    in a corner of the king's rank is always the king's own. *)
Theorem reachable_castling (st : Board * Z) (i : Z) :
  reachable st → 0 ≤ i < 64 →
  piece (cell st.1 i) = KING → has16 (cell st.1 i) = true →
  castling_marks true st.1 i.
Proof.
  intros Hreach Hi Hk H16.
  destruct (reachable_session_inv st Hreach) as (Hwf & _ & _ & _ & w & Hhome).
  destruct st as [b t]. cbn [fst] in *.
  pose proof (wf_cell b i Hwf Hi) as Hbi.
  assert (Hlow : ∀ x, byte x →
            piece (Z.land x 31) = piece x ∧ color (Z.land x 31) = color x
            ∧ has16 (Z.land x 31) = has16 x)
    by (intros x Hx; byte_fact x).
  (* the king stands where setupBoard put it *)
  pose proof (Hhome i Hi H16 (or_introl Hk)) as Hki.
  assert (Hhomes : ∀ v, v = 1 ∨ v = 0 → ∀ k, 0 ≤ k < 64 →
    is_piece KING (cell (setupBoard v) k) && has16 (cell (setupBoard v) k)
    = true → k = 3 ∨ k = 59 ∨ k = 4 ∨ k = 60).
  { intros v Hv k Hkr Hking.
    assert (Hall : forallb (λ p,
              implb (is_piece KING (cell (setupBoard v) p)
                     && has16 (cell (setupBoard v) p))
                    ((p =? 3) || (p =? 59) || (p =? 4) || (p =? 60)))
              (Z.of_nat <$> seq 0 64) = true)
      by (destruct Hv as [->| ->]; vm_compute; reflexivity).
    pose proof (squares_cases _ Hall k Hkr) as Hp. cbv beta in Hp.
    rewrite Hking in Hp. cbn [implb] in Hp. lia. }
  assert (Hcolors : ∀ v, v = 1 ∨ v = 0 → ∀ k c,
    (k = 3 ∨ k = 59 ∨ k = 4 ∨ k = 60) →
    (c = left_corner k ∨ c = right_corner k) →
    color (cell (setupBoard v) c) = color (cell (setupBoard v) k)).
  { intros v Hv k c Hkk Hc.
    destruct Hv as [->| ->]; destruct Hkk as [->|[->|[->| ->]]];
      destruct Hc as [->| ->]; reflexivity. }
  unfold home_flags in Hhome.
  assert (Hmain : ∀ v, v = 1 ∨ v = 0 → setupBoard w = setupBoard v →
                       castling_marks true b i).
  2:{ destruct (setupBoard_cases w) as [Hw|Hw];
        [apply (Hmain 1)|apply (Hmain 0)]; auto. }
  intros v Hv Hw. rewrite Hw in Hki. setoid_rewrite Hw in Hhome.
  assert (Hsq : i = 3 ∨ i = 59 ∨ i = 4 ∨ i = 60).
  { apply (Hhomes v Hv i Hi). unfold is_piece. rewrite <- Hki.
    destruct (Hlow _ Hbi) as (-> & _ & ->). rewrite Hk, H16. reflexivity. }
  assert (Hfile : Z.land i 7 = 3 ∨ Z.land i 7 = 4)
    by (destruct Hsq as [->|[->|[->| ->]]]; auto).
  assert (Hready : ∀ c gap, 0 ≤ c < 64 →
         (c = left_corner i ∨ c = right_corner i) →
         castle_ready true b i c gap = castle_ready false b i c gap).
  { intros c gap Hcr Hc. unfold castle_ready.
    destruct (is_piece ROOK (cell b c)) eqn:Hr; [|reflexivity].
    destruct (has16 (cell b c)) eqn:Hf; [|rewrite !andb_false_r; reflexivity].
    pose proof (wf_cell b c Hwf Hcr) as Hbc.
    apply Z.eqb_eq in Hr.
    pose proof (Hhome c Hcr Hf (or_intror Hr)) as Hkc.
    destruct (Hlow _ Hbi) as (_ & <- & _).
    destruct (Hlow _ Hbc) as (_ & <- & _).
    rewrite Hki, Hkc, (Hcolors v Hv i c Hsq Hc), Z.eqb_refl. reflexivity. }
  destruct (castling_marks_any_rook b i Hwf Hi Hk H16 Hfile)
    as (b' & Hb' & Hl & Hr).
  exists b'. split; [exact Hb'|].
  assert (Hcorners : 0 ≤ left_corner i < 64 ∧ 0 ≤ right_corner i < 64).
  { unfold left_corner, right_corner.
    destruct Hsq as [->|[->|[->| ->]]]; vm_compute;
      repeat split; first [discriminate|reflexivity]. }
  rewrite (Hready (left_corner i)) by (try apply Hcorners; left; reflexivity).
  rewrite (Hready (right_corner i)) by (try apply Hcorners; right; reflexivity).
  split; assumption.
Qed.

(** ** The en passant flag in play *)

Lemma mask_df_clears (b : Board) :
  wf_board b →
  ∃ b1, mask_all 0xdf b = Some b1 ∧ ∀ k, 0 ≤ k < 64 → flag32 (cell b1 k) = 0.
Proof.
  intros Hwf. exists ((λ x, Z.land x 0xdf) <$> b). split.
  - apply mask_all_spec; [exact Hwf|]. intros x Hx. byte_fact x.
  - intros k Hk. rewrite cell_fmap by (rewrite (wf_length b Hwf); lia).
    pose proof (wf_cell b k Hwf Hk) as Hb. byte_fact (cell b k).
Qed.

(** C4: in a game, a click on a dot runs [movePiece], whose first loop
    takes the en passant flag off every square and which then leaves it
    on exactly one kind of square, the destination of a pawn that has
    just gone two ranks; any other click leaves the flags as they are.
    Every click on a square of the board returns.
    So in every position at most one square carries the flag, it holds
    the pawn that went two ranks in the last move made, and no flag
    outlives the next move. *)
Theorem en_passant_flag_in_play (st : Board * Z) (i : Z) :
  reachable st → 0 ≤ i < 64 →
  ∃ st', click st i = Some st'
  ∧ flags_ok st.1 ∧ flags_ok st'.1
  ∧ ((dotted (cell st.1 i) ≠ 0
      ∧ movePiece st.1 i = Some st'.1
      ∧ (∃ b1, mask_all 0xdf st.1 = Some b1
               ∧ ∀ k, 0 ≤ k < 64 → flag32 (cell b1 k) = 0)
      ∧ ∃ j, only_selected st.1 j
             ∧ ∀ k, 0 ≤ k < 64 →
                 (flag32 (cell st'.1 k) ≠ 0 ↔
                    k = i ∧ piece (cell st.1 j) = PAWN
                    ∧ (i - j = 16 ∨ j - i = 16)))
     ∨ (dotted (cell st.1 i) = 0
        ∧ ∀ k, 0 ≤ k < 64 → flag32 (cell st'.1 k) = flag32 (cell st.1 k))).
Proof.
  intros Hreach Hi.
  destruct (click_defined st i Hreach Hi) as [st' Hclick].
  exists st'. split; [exact Hclick|].
  pose proof (reachable_session_inv st Hreach) as Hinv.
  pose proof (reachable_flags_ok st Hreach) as Hfl.
  destruct st as [b t]. cbn [fst] in *.
  destruct (returns_eq _ _ _ (click_returns b t i Hinv Hi) Hclick)
    as [Hinv' Hbranch].
  pose proof Hinv as (Hwf & _).
  split; [exact Hfl|]. split; [apply Hinv'|].
  destruct Hbranch as [[Hd Hmove]|[Hnd Hsame]]; [left|right].
  - split; [exact Hd|]. split; [exact Hmove|].
    split; [apply mask_df_clears, Hwf|].
    destruct (reachable_move_contract (b, t) i Hreach Hi Hd) as (j & Hsel & Hgen).
    cbn [fst] in *. exists j. split; [exact Hsel|].
    destruct (movePiece_en_passant_flag b i j Hwf Hsel Hi Hgen)
      as (b' & Hb' & Hiff & _).
    rewrite Hmove in Hb'. injection Hb' as <-. exact Hiff.
  - split; [exact Hnd|]. intros k Hk.
    apply (same_3f_fields b st'.1 k Hwf Hsame Hk).
Qed.

(** ** Castling moves in play *)

Lemma between_In (lo hi i : Z) : lo < i < hi → In i (between lo hi).
Proof.
  intros H. apply list_elem_of_In. unfold between.
  apply list_elem_of_fmap. exists (Z.to_nat (i - lo - 1)).
  split; [lia|]. apply elem_of_seq. lia.
Qed.

(** A king gets a dot two files away only when its unmoved flag is set:
    the eight steps reach the neighbouring squares only. *)
Lemma king_far_dot (b bc : Board) (i j : Z) :
  wf_board b → 0 ≤ j < 64 → 0 ≤ i < 64 →
  piece (cell b j) = KING → (j - i = 2 ∨ i - j = 2) →
  dotted (cell b i) = 0 →
  calculateMoves b j = Some bc → dotted (cell bc i) ≠ 0 →
  has16 (cell b j) = true.
Proof.
  intros Hwf Hj Hi Hk Hside Hclean Hcalc Hdot.
  destruct (has16 (cell b j)) eqn:H16; [reflexivity|exfalso].
  apply Hdot.
  refine (returns_eq _ (λ bc, dotted (cell bc i) = 0) bc _ Hcalc).
  pose proof (wf_length _ Hwf) as Hlen.
  unfold calculateMoves. rewrite (rd_cell b j) by len. mb. cbv zeta.
  rewrite Hk. change (KING =? PAWN) with false.
  change (KING =? KNIGHT) with false. change (KING =? BISHOP) with false.
  change (KING =? QUEEN) with false. change (KING =? ROOK) with false.
  change (KING =? KING) with true. cbv iota.
  eapply returns_bind; [apply kingSteps_returns; assumption|].
  intros b1 H1. cbv beta.
  destruct (dots_within_fields _ b b1 j Hwf H1 Hj) as (_ & _ & H16' & _).
  pose proof (wf_length _ (proj1 H1)) as Hlen1.
  unfold kingCastle. rewrite (rd_cell b1 j) by len. mb.
  assert (H16b : has16 (cell b1 j) = false)
    by (unfold has16 in *; rewrite H16'; exact H16).
  rewrite H16b. cbn [returns].
  destruct H1 as [_ H1].
  destruct (H1 i Hi) as [->|[Hs _]]; [exact Hclean|exfalso; lia].
Qed.

(** A king whose unmoved flag is set stands on one of the four squares
    [setupBoard] puts kings on. *)
Lemma flagged_king_home (w : Z) (b : Board) (i : Z) :
  wf_board b → home_flags w b → 0 ≤ i < 64 →
  piece (cell b i) = KING → has16 (cell b i) = true →
  i = 3 ∨ i = 59 ∨ i = 4 ∨ i = 60.
Proof.
  intros Hwf Hhome Hi Hk H16.
  pose proof (wf_cell b i Hwf Hi) as Hbi.
  pose proof (Hhome i Hi H16 (or_introl Hk)) as Hki.
  assert (Hking : is_piece KING (cell (setupBoard w) i)
                  && has16 (cell (setupBoard w) i) = true).
  { assert (Hlow : piece (Z.land (cell b i) 31) = piece (cell b i)
                   ∧ has16 (Z.land (cell b i) 31) = has16 (cell b i))
      by byte_fact (cell b i).
    rewrite <- Hki. unfold is_piece. destruct Hlow as [-> ->].
    rewrite Hk, H16. reflexivity. }
  assert (Hall : forallb (λ p,
            implb (is_piece KING (cell (setupBoard w) p)
                   && has16 (cell (setupBoard w) p))
                  ((p =? 3) || (p =? 59) || (p =? 4) || (p =? 60)))
            (Z.of_nat <$> seq 0 64) = true)
    by (destruct (setupBoard_cases w) as [-> | ->]; vm_compute; reflexivity).
  pose proof (squares_cases _ Hall i Hi) as Hp. cbv beta in Hp.
  rewrite Hking in Hp. cbn [implb] in Hp. lia.
Qed.

(** A rook with its unmoved flag set in a corner of the rank of such a
    king is of the king's colour. *)
Lemma flagged_rook_color (w : Z) (b : Board) (i c : Z) :
  wf_board b → home_flags w b → 0 ≤ i < 64 → 0 ≤ c < 64 →
  piece (cell b i) = KING → has16 (cell b i) = true →
  piece (cell b c) = ROOK → has16 (cell b c) = true →
  (c = left_corner i ∨ c = right_corner i) →
  color (cell b c) = color (cell b i).
Proof.
  intros Hwf Hhome Hi Hc Hk H16 Hr Hr16 Hcorner.
  pose proof (flagged_king_home w b i Hwf Hhome Hi Hk H16) as Hsq.
  pose proof (wf_cell b i Hwf Hi) as Hbi.
  pose proof (wf_cell b c Hwf Hc) as Hbc.
  pose proof (Hhome i Hi H16 (or_introl Hk)) as Hki.
  pose proof (Hhome c Hc Hr16 (or_intror Hr)) as Hkc.
  assert (Hlow : ∀ x, byte x → color (Z.land x 31) = color x)
    by (intros x Hx; byte_fact x).
  rewrite <- (Hlow _ Hbi), <- (Hlow _ Hbc), Hki, Hkc.
  destruct (setupBoard_cases w) as [-> | ->];
    destruct Hsq as [->|[->|[->| ->]]];
    destruct Hcorner as [->| ->]; reflexivity.
Qed.

(** In a game a dot two files from the selected king is a castling
    move: the king and the rook in the corner on that side have their
    unmoved flags set and the same colour, the dotted square is empty,
    on the king's rank and not the corner itself.  These are the
    conditions under which [movePiece] is shown to castle. *)
Lemma castling_move_in_play (st : Board * Z) (i j : Z) :
  let corner := if i <? j then 8 * (i / 8) else 8 * (i / 8) + 7 in
  reachable st → 0 ≤ i < 64 → dotted (cell st.1 i) ≠ 0 →
  only_selected st.1 j → piece (cell st.1 j) = KING →
  (j - i = 2 ∨ i - j = 2) →
  i / 8 = j / 8 ∧ i ≠ corner
  ∧ piece (cell st.1 corner) = ROOK
  ∧ color (cell st.1 corner) = color (cell st.1 j)
  ∧ has16 (cell st.1 corner) = true ∧ has16 (cell st.1 j) = true
  ∧ piece (cell st.1 i) = NONE.
Proof.
  intros corner Hreach Hi Hd Hsel Hk Hside.
  destruct (reachable_session_inv st Hreach) as (Hwf & _ & _ & _ & w & Hhome).
  destruct (reachable_move_contract st i Hreach Hi Hd) as (j' & Hsel' & Hgen).
  assert (Hjj : j' = j).
  { destruct Hsel as (Hj & Hs & Ho), Hsel' as (Hj' & Hs' & _).
    destruct (Z.eq_dec j' j) as [He|Hne]; [exact He|].
    exfalso. apply Hs'. apply Ho; assumption. }
  subst j'. destruct st as [b t]. cbn [fst] in *.
  pose proof Hsel as (Hj & _ & _).
  destruct Hgen as (b0' & bc & Hrm & Hcalc & Hdot).
  rewrite (removeDots_spec b Hwf) in Hrm. injection Hrm as <-.
  pose proof (removeDots_wf b Hwf) as Hwf0.
  pose proof (λ k Hk, removeDots_fields b k Hwf Hk) as Hf. cbv zeta in Hf.
  set (b0 := (λ x, Z.land x 0xbf) <$> b) in *. clearbody b0.
  assert (Hh : ∀ k, 0 ≤ k < 64 → has16 (cell b0 k) = has16 (cell b k)).
  { intros k Hkr. destruct (Hf k Hkr) as (_ & _ & _ & H16 & _).
    unfold has16. rewrite H16. reflexivity. }
  assert (Hk0 : piece (cell b0 j) = KING)
    by (destruct (Hf j Hj) as (_ & -> & _); exact Hk).
  assert (H16 : has16 (cell b0 j) = true).
  { apply (king_far_dot b0 bc i j); try assumption.
    destruct (Hf i Hi) as (_ & _ & _ & _ & _ & H & _). exact H. }
  assert (H16b : has16 (cell b j) = true) by (rewrite <- Hh; assumption).
  pose proof (flagged_king_home w b j Hwf Hhome Hj Hk H16b) as Hsq.
  assert (Hfile : Z.land j 7 = 3 ∨ Z.land j 7 = 4)
    by (destruct Hsq as [->|[->|[->| ->]]]; auto).
  pose proof (land7_mod j) as Hj7.
  destruct (castling_marks_any_rook b0 j Hwf0 Hj Hk0 H16 Hfile)
    as (b' & Hb' & Hl & Hr).
  rewrite Hcalc in Hb'. injection Hb' as <-.
  assert (Hmain : ∀ c gap,
            castle_ready false b0 j c gap = true →
            0 ≤ c < 64 → (c = left_corner j ∨ c = right_corner j) →
            In i gap →
            piece (cell b c) = ROOK ∧ color (cell b c) = color (cell b j)
            ∧ has16 (cell b c) = true ∧ has16 (cell b j) = true
            ∧ piece (cell b i) = NONE).
  { intros c gap Hready Hc Hcorner Hin. unfold castle_ready in Hready.
    apply andb_true_iff in Hready as [Hready Hgap].
    apply andb_true_iff in Hready as [Hready Hc16].
    apply andb_true_iff in Hready as [Hrook _].
    apply Z.eqb_eq in Hrook.
    destruct (Hf c Hc) as (_ & Hpc & _).
    rewrite Hpc in Hrook. rewrite Hh in Hc16 by exact Hc.
    split; [exact Hrook|].
    split; [apply (flagged_rook_color w b j c); assumption|].
    split; [exact Hc16|]. split; [exact H16b|].
    pose proof (proj1 (forallb_forall _ _) Hgap i Hin) as He.
    apply Z.eqb_eq in He. destruct (Hf i Hi) as (_ & <- & _). exact He. }
  assert (Hclean : dotted (cell b0 i) = 0)
    by (destruct (Hf i Hi) as (_ & _ & _ & _ & _ & H & _); exact H).
  unfold left_corner, right_corner in *.
  destruct Hside as [Hs|Hs].
  - assert (Hlt : (i <? j) = true) by (apply Z.ltb_lt; lia).
    subst corner. rewrite Hlt.
    replace (j - 2) with i in Hl by lia.
    destruct (castle_ready false b0 j (8 * (j / 8)) (between (8 * (j / 8)) j))
      eqn:Hready; [|rewrite Hl in Hdot; contradiction].
    replace (8 * (i / 8)) with (8 * (j / 8)) by zlia.
    split; [zlia|]. split; [zlia|].
    apply (Hmain _ _ Hready); [zlia|left; reflexivity|].
    apply between_In. zlia.
  - assert (Hlt : (i <? j) = false) by (apply Z.ltb_ge; lia).
    subst corner. rewrite Hlt.
    replace (j + 2) with i in Hr by lia.
    destruct (castle_ready false b0 j (8 * (j / 8) + 7)
                (between j (8 * (j / 8) + 7)))
      eqn:Hready; [|rewrite Hr in Hdot; contradiction].
    replace (8 * (i / 8)) with (8 * (j / 8)) by zlia.
    split; [zlia|]. split; [zlia|].
    apply (Hmain _ _ Hready); [zlia|right; reflexivity|].
    apply between_In. zlia.
Qed.


(** ** Two games *)

(** C1 on the code: with a knight on the square in front of it, the
    pawn of square 8 is still offered its double step to square 24, and
    the move is carried out. *)
Theorem pawn_double_step_jumps :
  ∃ b, play 1 knight_in_front = Some (b, 1)
       ∧ piece (cell b 8) = PAWN ∧ has16 (cell b 8) = true
       ∧ piece (cell b 16) = KNIGHT
       ∧ piece (cell b 24) = NONE
       ∧ (∃ bc, calculateMoves b 8 = Some bc ∧ dotted (cell bc 24) = 1)
       ∧ (∃ b1, click (b, 1) 8 = Some (b1, 1) ∧ dotted (cell b1 24) = 1)
       ∧ (∃ b2, play 1 (knight_in_front ++ [8; 24]) = Some (b2, 0)
                ∧ piece (cell b2 24) = PAWN ∧ piece (cell b2 16) = KNIGHT
                ∧ cell b2 8 = NONE).
Proof.
  eexists. split; [vm_compute; reflexivity|].
  repeat split; try reflexivity.
  - eexists. split; [vm_compute; reflexivity|reflexivity].
  - eexists. split; [vm_compute; reflexivity|reflexivity].
  - eexists. split; [vm_compute; reflexivity|]. repeat split; reflexivity.
Qed.

(** C2 on the code: the white pawn of square 32, beside a black pawn
    that has just gone two squares, is offered the diagonal square 41
    although a white knight stands on it, and taking the offer removes
    the knight and leaves the black pawn. *)
Theorem en_passant_marks_own_piece :
  ∃ b, play 1 pawn_beside_pawn = Some (b, 1)
       ∧ piece (cell b 32) = PAWN ∧ color (cell b 32) = WHITE
       ∧ piece (cell b 41) = KNIGHT ∧ color (cell b 41) = WHITE
       ∧ dotted (cell b 41) = 0
       ∧ (∃ bc, calculateMoves b 32 = Some bc ∧ dotted (cell bc 41) = 1)
       ∧ (∃ b1, click (b, 1) 32 = Some (b1, 1) ∧ dotted (cell b1 41) = 1)
       ∧ (∃ b2, play 1 (pawn_beside_pawn ++ [32; 41]) = Some (b2, 0)
                ∧ piece (cell b2 41) = PAWN ∧ color (cell b2 41) = WHITE
                ∧ piece (cell b2 33) = PAWN ∧ color (cell b2 33) = 1).
Proof.
  eexists. split; [vm_compute; reflexivity|].
  repeat split; try reflexivity.
  - eexists. split; [vm_compute; reflexivity|reflexivity].
  - eexists. split; [vm_compute; reflexivity|reflexivity].
  - eexists. split; [vm_compute; reflexivity|]. repeat split; reflexivity.
Qed.

(** ** The theorems at concrete positions *)

Lemma calculateMoves_castling_witness : castling_marks false castle_ready_board 3.
Proof.
  apply calculateMoves_castling;
    [apply wf_check_ok; reflexivity|lia|reflexivity|reflexivity
    |left; reflexivity].
Defined.

Lemma reachable_castling_witness :
  ∃ st, play 1 castling_game = Some st
        ∧ castle_ready true st.1 3 (left_corner 3) (between (left_corner 3) 3)
          = true
        ∧ castling_marks true st.1 3.
Proof.
  eexists. split; [vm_compute; reflexivity|]. split; [reflexivity|].
  apply reachable_castling.
  - apply (play_reachable 1 castling_game); [reflexivity|].
    vm_compute. reflexivity.
  - cbn. lia.
  - reflexivity.
  - reflexivity.
Defined.

Lemma movePiece_en_passant_flag_witness :
  ∃ b', movePiece pawn_selected_board 24 = Some b'
        ∧ (∀ k, 0 ≤ k < 64 →
             (flag32 (cell b' k) ≠ 0 ↔
                k = 24 ∧ piece (cell pawn_selected_board 8) = PAWN
                ∧ (24 - 8 = 16 ∨ 8 - 24 = 16)))
        ∧ (∀ k, 0 ≤ k < 64 →
             flag32 (cell b' k) ≠ 0 → piece (cell b' k) = PAWN)
        ∧ (∀ k k', 0 ≤ k < 64 → 0 ≤ k' < 64 →
             flag32 (cell b' k) ≠ 0 → flag32 (cell b' k') ≠ 0 → k = k').
Proof.
  apply (movePiece_en_passant_flag pawn_selected_board 24 8).
  - apply wf_check_ok; reflexivity.
  - apply only_selected_check_ok; reflexivity.
  - lia.
  - eexists _, _. split; [vm_compute; reflexivity|].
    split; [vm_compute; reflexivity|]. vm_compute. discriminate.
Defined.

Lemma en_passant_flag_in_play_witness :
  ∃ st', click (pawn_selected_board, 1) 24 = Some st'
    ∧ flags_ok pawn_selected_board ∧ flags_ok st'.1
    ∧ ((dotted (cell pawn_selected_board 24) ≠ 0
        ∧ movePiece pawn_selected_board 24 = Some st'.1
        ∧ (∃ b1, mask_all 0xdf pawn_selected_board = Some b1
                 ∧ ∀ k, 0 ≤ k < 64 → flag32 (cell b1 k) = 0)
        ∧ ∃ j, only_selected pawn_selected_board j
               ∧ ∀ k, 0 ≤ k < 64 →
                   (flag32 (cell st'.1 k) ≠ 0 ↔
                      k = 24 ∧ piece (cell pawn_selected_board j) = PAWN
                      ∧ (24 - j = 16 ∨ j - 24 = 16)))
       ∨ (dotted (cell pawn_selected_board 24) = 0
          ∧ ∀ k, 0 ≤ k < 64 →
              flag32 (cell st'.1 k) = flag32 (cell pawn_selected_board k))).
Proof.
  apply (en_passant_flag_in_play (pawn_selected_board, 1) 24).
  - apply (play_reachable 1 [8]); [reflexivity|vm_compute; reflexivity].
  - lia.
Defined.

Lemma verifyMove_pure_witness :
  ∃ r, verifyMove pawn_selected_board 24 1 = Some (r, pawn_selected_board)
       ∧ (r = 0 ∨ r = 1).
Proof.
  apply verifyMove_pure.
  - apply wf_check_ok; reflexivity.
  - exists 8. split; [lia|]. vm_compute. discriminate.
  - apply castling_reads_inside_check_ok; reflexivity.
  - lia.
Defined.

Lemma movePiece_castles_witness :
  ∃ b', movePiece castle_board 1 = Some b'
        ∧ cell b' 2 = Z.land (cell castle_board 0) 15
        ∧ piece (cell b' 2) = ROOK
        ∧ color (cell b' 2) = color (cell castle_board 0)
        ∧ flag16 (cell b' 2) = 0
        ∧ cell b' 0 = NONE
        ∧ cell b' 1 = Z.land (cell castle_board 3) 15
        ∧ piece (cell b' 1) = KING
        ∧ color (cell b' 1) = color (cell castle_board 3)
        ∧ flag16 (cell b' 1) = 0
        ∧ cell b' 3 = NONE.
Proof.
  apply (movePiece_castles castle_board 1 3).
  - apply wf_check_ok; reflexivity.
  - apply only_selected_check_ok; reflexivity.
  - lia.
  - reflexivity.
  - reflexivity.
  - left. reflexivity.
  - reflexivity.
  - vm_compute. discriminate.
Defined.

Lemma movePiece_promotes_to_queen_witness :
  ∃ b', movePiece promotion_board 56 = Some b'
        ∧ piece (cell b' 56) = QUEEN
        ∧ color (cell b' 56) = color (cell promotion_board 48)
        ∧ cell b' 56 = Z.lor (Z.land (cell promotion_board 48) 8) QUEEN
        ∧ cell b' 48 = NONE.
Proof.
  apply (movePiece_promotes_to_queen promotion_board 56 48).
  - apply wf_check_ok; reflexivity.
  - apply only_selected_check_ok; reflexivity.
  - lia.
  - lia.
  - reflexivity.
  - right. lia.
Defined.

Lemma calculateMoves_slides_witness :
  ∃ b', calculateMoves rook_board 27 = Some b'
        ∧ (∀ d pre k post,
             d ∈ slider_dirs (piece (cell rook_board 27)) →
             ray 27 d = pre ++ k :: post →
             cell b' k
             = if ray_clear rook_board pre
                  && negb (square_rule rook_board 27 k =? 0)
               then Z.lor (cell rook_board k) 64 else cell rook_board k)
        ∧ (∀ k, 0 ≤ k < 64 →
             (∀ d, d ∈ slider_dirs (piece (cell rook_board 27)) →
                   k ∉ ray 27 d) →
             cell b' k = cell rook_board k).
Proof.
  apply (calculateMoves_slides rook_board 27).
  - apply wf_check_ok; reflexivity.
  - lia.
  - right. left. reflexivity.
Defined.

Lemma movePiece_scan_in_bounds_witness :
  ∃ b1 s, mask_all 0xdf pawn_selected_board = Some b1
          ∧ find_selected 65 b1 0 = Some s
          ∧ 0 ≤ s < 64 ∧ selected (cell pawn_selected_board s) ≠ 0
          ∧ ∃ b', movePiece pawn_selected_board 24 = Some b'.
Proof.
  apply movePiece_scan_in_bounds.
  - apply wf_check_ok; reflexivity.
  - exists 8. apply only_selected_check_ok; reflexivity.
  - lia.
Defined.

Lemma movePiece_deselects_witness :
  ∃ b', movePiece pawn_selected_board 24 = Some b'
        ∧ cell b' 8 = NONE
        ∧ ∀ k, 0 ≤ k < 64 →
            selected (cell b' k) = 0 ∧ dotted (cell b' k) = 0.
Proof.
  apply (movePiece_deselects pawn_selected_board 24 8).
  - apply wf_check_ok; reflexivity.
  - apply only_selected_check_ok; reflexivity.
  - lia.
Defined.

(** The example positions are positions of the program. *)
Example pawn_selected_board_played :
  play 1 [8] = Some (pawn_selected_board, 1).
Proof. vm_compute. reflexivity. Qed.

Example rook_board_marks :
  ∃ b', calculateMoves rook_board 27 = Some b'
        ∧ cell b' 19 = 64 ∧ cell b' 11 = 17
        ∧ cell b' 28 = 64 ∧ cell b' 29 = 73 ∧ cell b' 30 = 0.
Proof. eexists. split; [vm_compute; reflexivity|]. repeat split. Qed.


(** * Further properties of the code *)

(** ** Tiles and clicks *)

Lemma tile_len : TILE_LEN = 75.
Proof. reflexivity. Qed.

Lemma click_index_eq (x y : Z) :
  0 ≤ x → 0 ≤ y →
  click_index x y = (8 * (y / 75) + x / 75) mod 256.
Proof.
  intros Hx Hy. unfold click_index, u8. rewrite tile_len.
  rewrite !Z.quot_div_nonneg by lia.
  rewrite Z.shiftl_mul_pow2 by lia. f_equal. change (2 ^ 3) with 8. lia.
Qed.

(** X1: the tile [drawBoard] draws square [i] on lies inside the window,
    and a button press anywhere on it is turned back into [i]. *)
Theorem click_index_tile (i dx dy : Z) :
  0 ≤ i < 64 → 0 ≤ dx < TILE_LEN → 0 ≤ dy < TILE_LEN →
  0 ≤ tile_x i ∧ tile_x i + TILE_LEN ≤ WIN_WIDTH
  ∧ 0 ≤ tile_y i ∧ tile_y i + TILE_LEN ≤ WIN_HEIGHT
  ∧ click_index (tile_x i + dx) (tile_y i + dy) = i.
Proof.
  rewrite tile_len. intros Hi Hdx Hdy.
  unfold tile_x, tile_y, WIN_WIDTH, WIN_HEIGHT. rewrite tile_len.
  rewrite land7_mod, Z.shiftr_div_pow2 by lia. change (2 ^ 3) with 8.
  assert (Hf : 0 ≤ i mod 8 < 8) by (apply Z.mod_pos_bound; lia).
  assert (Hr : 0 ≤ i / 8 < 8) by zlia.
  repeat (split; [lia|]).
  rewrite click_index_eq by lia.
  replace ((i / 8 * 75 + dy) / 75) with (i / 8)
    by (apply (Z.div_unique _ 75 _ dy); lia).
  replace ((i mod 8 * 75 + dx) / 75) with (i mod 8)
    by (apply (Z.div_unique _ 75 _ dx); lia).
  rewrite Z.mod_small by lia. zlia.
Qed.

(** X2: a button press inside the window gives the index of the tile
    under the cursor, a square of the board.  The handler does not check
    the index: a press below the window, at a height from 600 to 2399,
    gives an index from 64 to 255, and the read of [board[i]] is then
    outside the array. *)
Theorem click_index_window (st : Board * Z) (x y : Z) :
  wf_board st.1 → 0 ≤ x < WIN_WIDTH → 0 ≤ y →
  (y < WIN_HEIGHT →
     0 ≤ click_index x y < 64
     ∧ file (click_index x y) = x / TILE_LEN
     ∧ rank (click_index x y) = y / TILE_LEN)
  ∧ (WIN_HEIGHT ≤ y < 4 * WIN_HEIGHT →
     64 ≤ click_index x y < 256 ∧ mouse_down st x y = None).
Proof.
  unfold WIN_WIDTH, WIN_HEIGHT. rewrite tile_len. intros Hwf Hx Hy.
  rewrite click_index_eq by lia.
  assert (Hxf : 0 ≤ x / 75 < 8) by zlia.
  split; intros Hyr.
  - assert (Hyf : 0 ≤ y / 75 < 8) by zlia.
    rewrite Z.mod_small by lia. unfold file, rank.
    split; [lia|]. split; zlia.
  - assert (Hyf : 8 ≤ y / 75 < 32) by zlia.
    assert (Hidx : 64 ≤ (8 * (y / 75) + x / 75) mod 256 < 256)
      by (rewrite Z.mod_small by lia; lia).
    split; [exact Hidx|].
    unfold mouse_down. rewrite click_index_eq by lia.
    destruct st as [b t]. cbn [fst] in Hwf. unfold click, rd.
    destruct (Z.leb_spec 0 ((8 * (y / 75) + x / 75) mod 256)); [|lia].
    rewrite lookup_ge_None_2; [reflexivity|].
    pose proof (wf_length b Hwf). lia.
Qed.

(** ** Textures *)

(** X3: for a square that holds a piece [getTextureID] gives an index
    of the array of textures: the piece type less one for a white piece,
    plus five for a black one, so that the twelve kinds of pieces get
    the twelve piece textures, each its own, and none the dot.  For an
    empty white square the subtraction wraps to 255. *)
Theorem getTextureID_pieces (x y : Z) :
  byte x → byte y → piece x ≠ NONE → piece y ≠ NONE →
  0 ≤ getTextureID x < TEXTURES_NUM
  ∧ (piece x ≤ KING →
       getTextureID x = piece x - 1 + 6 * color x
       ∧ getTextureID x < 12
       ∧ (piece y ≤ KING →
            (getTextureID x = getTextureID y
             ↔ piece x = piece y ∧ color x = color y)))
  ∧ getTextureID (Z.land x 0xf8) = if color x =? 0 then 255 else 5.
Proof.
  intros Hx Hy Hpx Hpy.
  assert (Hfx : 0 ≤ piece x ≤ 7 ∧ (color x = 0 ∨ color x = 1))
    by byte_fact x.
  assert (Hfy : 0 ≤ piece y ≤ 7 ∧ (color y = 0 ∨ color y = 1))
    by byte_fact y.
  assert (Hid : ∀ z, 1 ≤ piece z ≤ 7 → color z = 0 ∨ color z = 1 →
            getTextureID z = piece z - 1 + 6 * color z).
  { intros z Hp Hc. unfold getTextureID. cbv zeta.
    change (Z.land z 7) with (piece z).
    change (Z.land (Z.shiftr z 3) 1) with (color z). unfold u8.
    destruct Hc as [-> | ->]; cbn [Z.eqb negb];
      rewrite Z.mod_small by lia; lia. }
  unfold NONE, KING, TEXTURES_NUM in *.
  rewrite (Hid x) by (try apply Hfx; lia).
  rewrite (Hid y) by (try apply Hfy; lia).
  split; [lia|]. split.
  - intros Hk. split; [reflexivity|]. split; [lia|]. intros Hky. lia.
  - clear - Hx. byte_fact x.
Qed.

(** ** Outside the contracts *)

Lemma find_selected_none (b : Board) (n : nat) (j : Z) :
  wf_board b → 0 ≤ j → j + Z.of_nat n = 65 →
  (∀ k, j ≤ k < 64 → selected (cell b k) = 0) →
  find_selected n b j = None.
Proof.
  intros Hwf. pose proof (wf_length b Hwf) as Hlen. revert j.
  induction n as [|n IH]; intros j Hj Hn Hnone; [reflexivity|].
  cbn [find_selected].
  destruct (Z.eq_dec j 64) as [->|Hne].
  - unfold rd. cbn [Z.leb]. rewrite lookup_ge_None_2 by lia. reflexivity.
  - rewrite (rd_cell b j) by lia. cbn [mbind option_bind].
    rewrite Hnone by lia. cbn [Z.eqb].
    rewrite u8_byte by (unfold byte; lia). apply IH; [lia|lia|].
    intros k Hk. apply Hnone. lia.
Qed.

(** X4: on a board without a selected square the scan of [movePiece]
    for the mover runs through all 64 squares and reads [board[64]]:
    the call has no defined outcome, whatever the destination. *)
Theorem movePiece_without_selection (b : Board) (i : Z) :
  wf_board b → (∀ k, 0 ≤ k < 64 → selected (cell b k) = 0) →
  movePiece b i = None.
Proof.
  intros Hwf Hnone. unfold movePiece.
  rewrite mask_all_spec by (auto; intros x Hx; byte_fact x).
  cbn [mbind option_bind].
  rewrite find_selected_none; [reflexivity| | lia | lia |].
  - apply wf_fmap; [intros x Hx; byte_fact x|exact Hwf].
  - intros k Hk. rewrite cell_fmap by (rewrite (wf_length b Hwf); lia).
    pose proof (wf_cell b k Hwf ltac:(lia)) as Hb.
    transitivity (selected (cell b k)); [byte_fact (cell b k)|].
    apply Hnone. lia.
Qed.

(** X5: for a king whose unmoved flag is set and which stands on one of
    the first three or the last three squares of the board, the castling
    tests of [calculateMoves] read [board[i + 3]] beyond the end of the
    array or [board[i - 4]] before its start: the call has no defined
    outcome. *)
Theorem calculateMoves_castling_out_of_bounds (b : Board) (i : Z) :
  wf_board b → piece (cell b i) = KING → has16 (cell b i) = true →
  0 ≤ i ≤ 2 ∨ 61 ≤ i ≤ 63 →
  calculateMoves b i = None.
Proof.
  intros Hwf Hk H16 Hcorner. pose proof (wf_length _ Hwf) as Hlen.
  assert (Hi : 0 ≤ i < 64) by lia.
  pose proof (land7_mod i) as Hi7.
  unfold calculateMoves. rewrite (rd_cell b i) by len. mb. cbv zeta.
  rewrite Hk. change (KING =? PAWN) with false.
  change (KING =? KNIGHT) with false. change (KING =? BISHOP) with false.
  change (KING =? QUEEN) with false. change (KING =? ROOK) with false.
  change (KING =? KING) with true. cbv iota.
  pose proof (kingSteps_returns b i Hwf Hi) as Hsteps.
  destruct (kingSteps b i) as [b1|]; [|contradiction].
  cbn [returns mbind option_bind] in *.
  destruct (dots_within_fields _ b b1 i Hwf Hsteps Hi) as (_ & _ & Hf & _).
  pose proof (proj1 Hsteps) as Hwf1.
  pose proof (wf_length _ Hwf1) as Hlen1.
  unfold kingCastle. rewrite (rd_cell b1 i) by len. mb.
  assert (H16b : has16 (cell b1 i) = true)
    by (unfold has16 in *; rewrite Hf; exact H16).
  rewrite H16b.
  destruct (Z.eqb_spec (Z.land i 7) 3) as [H3|H3]; [exfalso; zlia|].
  destruct Hcorner as [Hlow|Hhigh].
  - (* the first test is inside the array, the second starts at i - 4 *)
    match goal with
    | |- mbind _ ?m = None =>
        assert (Hfirst : returns m (dots_within (λ x, x = i + 2 ∧ True) b1))
    end.
    { apply dotSquare_if_returns; [exact Hwf1|exact Hi|].
      unfold test. rewrite !(rd_cell b1) by len. mb.
      destruct (is_piece ROOK (cell b1 (i + 3)) && has16 (cell b1 (i + 3))
                && is_piece NONE (cell b1 (i + 2))
                && is_piece NONE (cell b1 (i + 1))) eqn:Hc.
      - apply andb_true_iff in Hc as [Hc ->].
        apply andb_true_iff in Hc as [Hc ->].
        apply andb_true_iff in Hc as [-> ->].
        cbn [returns]. intros _. split; [lia|exact I].
      - destruct (is_piece ROOK (cell b1 (i + 3))); cbn [returns];
          [|discriminate].
        destruct (has16 (cell b1 (i + 3))); cbn [returns]; [|discriminate].
        destruct (is_piece NONE (cell b1 (i + 2))); cbn [returns];
          [|discriminate].
        destruct (is_piece NONE (cell b1 (i + 1))); cbn [returns];
          [discriminate Hc|discriminate]. }
    match goal with
    | |- mbind _ ?m = None => destruct m as [b2|]; [|contradiction]
    end.
    cbn [mbind option_bind]. unfold dotSquare_if, test, rd.
    destruct (Z.leb_spec 0 (i - 4)); [lia|]. reflexivity.
  - (* the first test starts at i + 3 *)
    unfold dotSquare_if, test, rd.
    destruct (Z.leb_spec 0 (i + 3)); [|lia].
    rewrite lookup_ge_None_2 by lia. reflexivity.
Qed.

(** ** calculateMoves only adds dots *)

Lemma rays_miss_origin (i : Z) (r : list Z) :
  0 ≤ i < 64 → In r (ray i <$> diagonals ++ straights) → ¬ In i r.
Proof.
  intros Hi Hr Hin.
  assert (Hall : forallb (λ i, forallb (λ r, negb (memb i r))
                                 (ray i <$> diagonals ++ straights))
                   (Z.of_nat <$> seq 0 64) = true)
    by (vm_compute; reflexivity).
  pose proof (squares_cases _ Hall i Hi) as Hrow. cbv beta in Hrow.
  rewrite forallb_forall in Hrow. specialize (Hrow r Hr).
  apply negb_true_iff in Hrow. apply memb_In in Hin. congruence.
Qed.

(** No piece is offered the square it stands on. *)
Lemma calculateMoves_self (b b' : Board) (i : Z) :
  wf_board b → 0 ≤ i < 64 →
  (piece (cell b i) = KING → has16 (cell b i) = true → 3 ≤ i ≤ 60) →
  calculateMoves b i = Some b' → cell b' i = cell b i.
Proof.
  intros Hwf Hi Hsafe Hcalc. pose proof (wf_length _ Hwf) as Hlen.
  assert (Hfrom : ∀ S : Z → Prop, ¬ S i →
            returns (calculateMoves b i) (dots_within S b) →
            cell b' i = cell b i).
  { intros S Hno Hret. rewrite Hcalc in Hret. cbn in Hret.
    destruct Hret as [_ Hd].
    destruct (Hd i Hi) as [Heq|[Hs _]]; [exact Heq|contradiction]. }
  assert (Hslider : piece (cell b i) = BISHOP ∨ piece (cell b i) = ROOK
                    ∨ piece (cell b i) = QUEEN → cell b' i = cell b i).
  { intros Hp.
    apply (Hfrom (λ x, ∃ r, In r (ray i <$> slider_dirs (piece (cell b i)))
                            ∧ In x r)).
    - intros (r & Hr & Hin). apply (rays_miss_origin i r Hi); [|exact Hin].
      rewrite fmap_app, in_app_iff.
      destruct Hp as [Hp|[Hp|Hp]]; rewrite Hp in Hr.
      + change (slider_dirs BISHOP) with diagonals in Hr. tauto.
      + change (slider_dirs ROOK) with straights in Hr. tauto.
      + change (slider_dirs QUEEN) with (diagonals ++ straights) in Hr.
        rewrite fmap_app, in_app_iff in Hr. exact Hr.
    - rewrite calculateMoves_slider_rays by tauto. cbn [returns].
      apply (mark_rays_spec b i Hwf Hi _ b (dots_within_refl _ b Hwf)
               (slider_rays_ok (piece (cell b i)) i Hi)). }
  destruct (Z.eq_dec (piece (cell b i)) BISHOP) as [Hb|Hb]; [tauto|].
  destruct (Z.eq_dec (piece (cell b i)) ROOK) as [Hr|Hr]; [tauto|].
  destruct (Z.eq_dec (piece (cell b i)) QUEEN) as [Hq|Hq]; [tauto|].
  clear Hslider.
  revert Hfrom. unfold calculateMoves. rewrite (rd_cell b i) by len.
  cbn [mbind option_bind]. cbv zeta. intros Hfrom.
  destruct (Z.eqb_spec (piece (cell b i)) PAWN).
  { eapply Hfrom; [|apply pawnMoves_returns; assumption].
    unfold pawn_targets. destruct (has16 (cell b i)); lia. }
  destruct (Z.eqb_spec (piece (cell b i)) KNIGHT).
  { eapply Hfrom; [|apply knightMoves_returns; assumption]. cbv beta. lia. }
  destruct (Z.eqb_spec (piece (cell b i)) BISHOP); [contradiction|].
  destruct (Z.eqb_spec (piece (cell b i)) QUEEN); [contradiction|].
  destruct (Z.eqb_spec (piece (cell b i)) ROOK); [contradiction|].
  destruct (Z.eqb_spec (piece (cell b i)) KING) as [Hk|Hk].
  2:{ apply (Hfrom (λ _, False)); [tauto|].
      cbn [returns]. apply dots_within_refl, Hwf. }
  apply (Hfrom (λ x, x ≠ i)); [tauto|].
  eapply returns_bind; [apply kingSteps_returns; assumption|].
  intros b1 H1. cbv beta.
  assert (H01 : dots_within (λ x, x ≠ i) b b1)
    by (eapply dots_within_weaken; [|exact H1]; cbv beta; lia).
  pose proof (proj1 H1) as Hwf1. pose proof (wf_length _ Hwf1) as Hlen1.
  pose proof (land7_mod i) as Hi7.
  destruct (dots_within_fields _ b b1 i Hwf H1 Hi) as (_ & _ & Hf & _).
  assert (Hcells : ∀ (c : Z → bool) b',
    wf_board b' → (∀ x, c x = true → x ≠ i) →
    (∀ x, 0 ≤ x < 64 →
       cell b' x = if c x then Z.lor (cell b1 x) 64 else cell b1 x) →
    dots_within (λ x, x ≠ i) b b').
  { intros c b2 Hwf2 Hc Hb2.
    apply (dots_within_trans (λ x, x ≠ i) (λ x, x ≠ i) (λ x, x ≠ i) b b1 b2);
      [auto|auto|exact H01|].
    split; [exact Hwf2|]. intros x Hx. rewrite (Hb2 x Hx).
    destruct (c x) eqn:Hcx; [right; split; [apply Hc, Hcx|reflexivity]|left].
    reflexivity. }
  destruct (has16 (cell b1 i)) eqn:H16.
  - assert (H16b : has16 (cell b i) = true)
      by (unfold has16 in *; rewrite <- Hf; exact H16).
    specialize (Hsafe Hk H16b).
    destruct (Z.eq_dec (Z.land i 7) 3) as [H3|H3].
    + eapply returns_impl; [apply kingCastle_file3; assumption|].
      intros b2 [Hwf2 Hc]. eapply Hcells; [exact Hwf2| |exact Hc].
      intros x Hx. cbv beta in Hx.
      destruct (Z.eqb_spec x (i - 2)); [lia|].
      destruct (Z.eqb_spec x (i + 2)); [lia|]. discriminate.
    + eapply returns_impl;
        [apply kingCastle_file4; [assumption|zlia|assumption..]|].
      intros b2 [Hwf2 Hc]. eapply Hcells; [exact Hwf2| |exact Hc].
      intros x Hx. cbv beta in Hx.
      destruct (Z.eqb_spec x (i - 2)); [lia|].
      destruct (Z.eqb_spec x (i + 2)); [lia|]. discriminate.
  - unfold kingCastle. rewrite (rd_cell b1 i) by len.
    cbn [mbind option_bind]. rewrite H16. cbn [returns]. exact H01.
Qed.

(** X6: when no king with its flag set stands on the first three or the
    last three squares, [calculateMoves] returns for every square of
    every board, and all it has done is set dot bits: piece, colour,
    flags and selection of every square are as before, no dot is
    removed, and the square asked about is as it was.  For an empty
    square nothing is changed at all. *)
Theorem calculateMoves_only_dots (b : Board) (i : Z) :
  wf_board b → 0 ≤ i < 64 →
  (piece (cell b i) = KING → has16 (cell b i) = true → 3 ≤ i ≤ 60) →
  ∃ b', calculateMoves b i = Some b' ∧ wf_board b'
        ∧ (∀ x, 0 ≤ x < 64 →
             (cell b' x = cell b x ∨ cell b' x = Z.lor (cell b x) 64)
             ∧ Z.land (cell b' x) 0xbf = Z.land (cell b x) 0xbf
             ∧ (dotted (cell b x) ≠ 0 → dotted (cell b' x) ≠ 0))
        ∧ cell b' i = cell b i
        ∧ (piece (cell b i) = NONE → b' = b).
Proof.
  intros Hwf Hi Hsafe. pose proof (wf_length _ Hwf) as Hlen.
  pose proof (calculateMoves_returns b i Hwf Hi Hsafe) as Hret.
  apply returns_Some in Hret. destruct Hret as (b' & Hb' & Hd).
  exists b'. split; [exact Hb'|]. split; [apply Hd|]. split; [|split].
  - intros x Hx. destruct (dots_within_same _ b b' Hwf Hd) as [_ Hs].
    pose proof (wf_cell b x Hwf Hx) as Hbx.
    split; [destruct Hd as [_ Hd]; destruct (Hd x Hx) as [->|[_ ->]]; auto|].
    split; [apply Hs, Hx|].
    destruct Hd as [_ Hd]. destruct (Hd x Hx) as [->|[_ ->]]; [auto|].
    intros _. byte_fact (cell b x).
  - apply (calculateMoves_self b b' i Hwf Hi Hsafe Hb').
  - intros Hnone. revert Hb'. unfold calculateMoves.
    rewrite (rd_cell b i) by len. mb. cbv zeta. rewrite Hnone.
    cbn. congruence.
Qed.


(** ** Guarded calls of the square rule, one after the other *)

Lemma dotted_by_refl (b : Board) : wf_board b → dotted_by (λ _, false) b b.
Proof. intros Hwf. split; [exact Hwf|]. reflexivity. Qed.

Lemma dotted_by_ext (T T' : Z → bool) (b b' : Board) :
  (∀ x, 0 ≤ x < 64 → T x = T' x) → dotted_by T b b' → dotted_by T' b b'.
Proof.
  intros HT [Hwf H]. split; [exact Hwf|]. intros x Hx.
  rewrite <- (HT x Hx). apply H, Hx.
Qed.

Lemma dotted_by_dots (T : Z → bool) (b b' : Board) :
  dotted_by T b b' → dots_within (λ x, T x = true) b b'.
Proof.
  intros [Hwf H]. split; [exact Hwf|]. intros x Hx. rewrite (H x Hx).
  destruct (T x); [right|left]; auto.
Qed.

Lemma marks_refl (b : Board) (i : Z) : wf_board b → marks (λ _, false) b i b.
Proof. intros Hwf. split; [exact Hwf|]. reflexivity. Qed.

Lemma marks_ext (G G' : Z → bool) (b : Board) (i : Z) (b' : Board) :
  (∀ x, 0 ≤ x < 64 → G x = G' x) → marks G b i b' → marks G' b i b'.
Proof.
  intros HG. unfold marks. apply dotted_by_ext.
  intros x Hx. rewrite (HG x Hx). reflexivity.
Qed.

Lemma takes_dots S (b0 b : Board) (i k : Z) :
  wf_board b0 → dots_within S b0 b → 0 ≤ i < 64 → 0 ≤ k < 64 →
  takes b i k = takes b0 i k.
Proof.
  intros Hwf Hd Hi Hk. unfold takes, square_rule.
  destruct (dots_within_fields S b0 b i Hwf Hd Hi) as (_ & -> & _).
  destruct (dots_within_fields S b0 b k Hwf Hd Hk) as (-> & -> & _).
  reflexivity.
Qed.

(** One guarded call of [dotSquare]. *)
Lemma dotSquare_if_marks (G : Z → bool) (g : bool) (b0 b : Board) (i k : Z) :
  wf_board b0 → marks G b0 i b → 0 ≤ i < 64 → (g = true → 0 ≤ k < 64) →
  returns (dotSquare_if (Some g) b i k)
    (marks (λ x, G x || g && (x =? k)) b0 i).
Proof.
  intros Hwf0 Hm Hi Hk. pose proof Hm as [Hwf Hcells].
  pose proof (wf_length _ Hwf) as Hlen.
  unfold dotSquare_if. cbn [mbind option_bind].
  destruct g; cbn [andb].
  2:{ cbn [returns]. eapply marks_ext; [|exact Hm].
      intros x Hx. cbv beta. rewrite orb_false_r. reflexivity. }
  specialize (Hk eq_refl).
  unfold dotSquare_. rewrite dotSquare_spec by assumption.
  cbn [fmap option_fmap option_map returns fst].
  assert (Ht : takes b i k = takes b0 i k)
    by (apply (takes_dots _ b0 b i k Hwf0 (dotted_by_dots _ _ _ Hm) Hi Hk)).
  unfold takes in Ht at 1.
  destruct (square_rule b i k =? 0) eqn:Hr; cbn [negb] in Ht.
  - split; [exact Hwf|]. intros x Hx. rewrite (Hcells x Hx).
    destruct (Z.eqb_spec x k) as [->|Hne];
      [rewrite <- Ht|]; rewrite ?andb_false_r, ?orb_false_r; reflexivity.
  - split; [wf_tac|]. intros x Hx. simp_cells.
    destruct (Z.eqb_spec x k) as [->|Hne].
    + rewrite <- Ht, orb_true_r. cbn [andb].
      rewrite (Hcells k Hk).
      destruct (G k && takes b0 i k); [apply lor64_idem|reflexivity].
    + rewrite orb_false_r. apply Hcells, Hx.
Qed.

Ltac guard_range :=
  decide_cmps; cbn [negb andb orb]; intros;
  first [discriminate | zlia].

Ltac mark_steps Hwf Hi :=
  repeat (eapply returns_bind;
    [ match goal with
      | H : marks _ _ _ _ |- _ =>
          apply (dotSquare_if_marks _ _ _ _ _ _ Hwf H Hi); guard_range
      end
    | let b' := fresh "b" in let H' := fresh "H" in
      intros b' H'; cbv beta;
      repeat match goal with
             | H : marks _ _ _ ?bb |- _ =>
                 lazymatch bb with b' => fail | _ => clear H end
             end ]);
  eapply returns_impl;
    [ match goal with
      | H : marks _ _ _ _ |- _ =>
          apply (dotSquare_if_marks _ _ _ _ _ _ Hwf H Hi); guard_range
      end
    | let b' := fresh "b" in let H' := fresh "H" in
      intros b' H'; exact H' ].

Lemma knightMoves_marks (b : Board) (i : Z) :
  wf_board b → 0 ≤ i < 64 →
  returns (knightMoves b i) (marks (knight_guards i) b i).
Proof.
  intros Hwf Hi. pose proof (land7_mod i) as Hi7.
  unfold knightMoves. cbv zeta.
  pose proof (marks_refl b i Hwf) as H0.
  mark_steps Hwf Hi.
Qed.

Lemma kingSteps_marks (b : Board) (i : Z) :
  wf_board b → 0 ≤ i < 64 →
  returns (kingSteps b i) (marks (king_guards i) b i).
Proof.
  intros Hwf Hi. pose proof (land7_mod i) as Hi7.
  unfold kingSteps. cbv zeta.
  pose proof (marks_refl b i Hwf) as H0.
  mark_steps Hwf Hi.
Qed.

(** The guards of the source are the geometry of the board. *)
Lemma squares_pairs (P : Z → Z → bool) :
  forallb (λ i, forallb (P i) squares) squares = true →
  ∀ i x, 0 ≤ i < 64 → 0 ≤ x < 64 → P i x = true.
Proof.
  intros H i x Hi Hx.
  pose proof (squares_cases _ H i Hi) as Hrow. cbv beta in Hrow.
  exact (squares_cases _ Hrow x Hx).
Qed.

Lemma knight_guards_jump (i x : Z) :
  0 ≤ i < 64 → 0 ≤ x < 64 → knight_guards i x = knight_jump i x.
Proof.
  intros Hi Hx. apply eqb_prop.
  apply (squares_pairs (λ i x, eqb (knight_guards i x) (knight_jump i x)));
    [vm_compute; reflexivity|assumption..].
Qed.

Lemma king_guards_step (i x : Z) :
  0 ≤ i < 64 → 0 ≤ x < 64 → king_guards i x = king_step i x.
Proof.
  intros Hi Hx. apply eqb_prop.
  apply (squares_pairs (λ i x, eqb (king_guards i x) (king_step i x)));
    [vm_compute; reflexivity|assumption..].
Qed.

Ltac pick_case p :=
  unfold calculateMoves;
  match goal with
  | Hlen : Z.of_nat (length ?b) = 64, Hp : piece (cell ?b ?i) = p |- _ =>
      rewrite (rd_cell b i) by len; cbn [mbind option_bind]; cbv zeta;
      rewrite Hp
  end;
  repeat match goal with
         | |- context [?a =? ?c] =>
             let v := eval vm_compute in (a =? c) in
             change (a =? c) with v
         end;
  cbv iota.

(** ** The knight *)

(** X7: a knight is offered exactly the squares one file and two ranks
    or two files and one rank away that are empty or hold a piece of the
    other colour; the index tests of the source never let a jump wrap
    around an edge of the board.  Every other square is left as it was. *)
Theorem calculateMoves_knight (b : Board) (i : Z) :
  wf_board b → 0 ≤ i < 64 → piece (cell b i) = KNIGHT →
  ∃ b', calculateMoves b i = Some b'
        ∧ ∀ x, 0 ≤ x < 64 →
            cell b' x = if knight_jump i x && takes b i x
                        then Z.lor (cell b x) 64 else cell b x.
Proof.
  intros Hwf Hi Hp. pose proof (wf_length _ Hwf) as Hlen.
  apply returns_Some. pick_case KNIGHT.
  eapply returns_impl; [apply knightMoves_marks; assumption|].
  intros b' Hm. cbv beta.
  apply (marks_ext _ (knight_jump i)) in Hm;
    [apply Hm|intros x Hx; apply knight_guards_jump; assumption].
Qed.

(** ** The king *)

(** X8: a king is offered exactly the neighbouring squares, on the
    board, that are empty or hold a piece of the other colour.  Castling
    apart (the two squares two files away, for a king whose flag is
    set), every other square is left as it was. *)
Theorem calculateMoves_king (b : Board) (i : Z) :
  wf_board b → 0 ≤ i < 64 → piece (cell b i) = KING →
  (has16 (cell b i) = true → 3 ≤ i ≤ 60) →
  ∃ b', calculateMoves b i = Some b'
        ∧ ∀ x, 0 ≤ x < 64 →
            has16 (cell b i) = false ∨ (x ≠ i - 2 ∧ x ≠ i + 2) →
            cell b' x = if king_step i x && takes b i x
                        then Z.lor (cell b x) 64 else cell b x.
Proof.
  intros Hwf Hi Hp Hsafe. pose proof (wf_length _ Hwf) as Hlen.
  apply returns_Some. pick_case KING.
  eapply returns_bind; [apply kingSteps_marks; assumption|].
  intros b1 Hm. cbv beta.
  apply (marks_ext _ (king_step i)) in Hm;
    [|intros x Hx; apply king_guards_step; assumption].
  pose proof Hm as [Hwf1 Hcells].
  pose proof (wf_length _ Hwf1) as Hlen1.
  destruct (dots_within_fields _ b b1 i Hwf (dotted_by_dots _ _ _ Hm) Hi)
    as (_ & _ & Hf & _).
  assert (H16 : has16 (cell b1 i) = has16 (cell b i))
    by (unfold has16; rewrite Hf; reflexivity).
  destruct (has16 (cell b i)) eqn:Hflag.
  - specialize (Hsafe eq_refl).
    assert (Hfar : ∀ (c1 c2 : bool) b',
      (∀ x, 0 ≤ x < 64 →
         cell b' x = if (x =? i - 2) && c1 || (x =? i + 2) && c2
                     then Z.lor (cell b1 x) 64 else cell b1 x) →
      ∀ x, 0 ≤ x < 64 → true = false ∨ (x ≠ i - 2 ∧ x ≠ i + 2) →
        cell b' x = if king_step i x && takes b i x
                    then Z.lor (cell b x) 64 else cell b x).
    { intros c1 c2 b' Hb' x Hx [Hf'|[Hl Hr]]; [discriminate|].
      rewrite (Hb' x Hx).
      destruct (Z.eqb_spec x (i - 2)); [contradiction|].
      destruct (Z.eqb_spec x (i + 2)); [contradiction|].
      cbn [andb orb]. apply Hcells, Hx. }
    destruct (Z.eq_dec (Z.land i 7) 3) as [H3|H3].
    + eapply returns_impl; [apply kingCastle_file3; assumption|].
      intros b' [_ Hb']. cbv beta in Hb'.
      intros x Hx [Hf'|Hne]; [discriminate|].
      apply (Hfar _ _ b' Hb' x Hx). right. exact Hne.
    + pose proof (land7_mod i) as Hi7.
      eapply returns_impl;
        [apply kingCastle_file4; [assumption|zlia|assumption..]|].
      intros b' [_ Hb']. cbv beta in Hb'.
      intros x Hx [Hf'|Hne]; [discriminate|].
      assert (Hb'' : ∀ x, 0 ≤ x < 64 →
         cell b' x
         = if (x =? i - 2) && castle_ready false b1 i (i - 4) [i - 1; i - 2; i - 3]
              || (x =? i + 2) && castle_ready false b1 i (i + 3) [i + 2; i + 1]
           then Z.lor (cell b1 x) 64 else cell b1 x).
      { intros y Hy. rewrite (Hb' y Hy). rewrite orb_comm. reflexivity. }
      apply (Hfar _ _ b' Hb'' x Hx). right. exact Hne.
  - unfold kingCastle. rewrite (rd_cell b1 i) by len.
    cbn [mbind option_bind]. rewrite H16. cbn [returns].
    intros x Hx _. apply Hcells, Hx.
Qed.


(** ** The pawn *)

Lemma andM_Some (g1 g2 : bool) : Some g1 &&& Some g2 = Some (g1 && g2).
Proof. destruct g1; reflexivity. Qed.

Lemma andM_guard (g : bool) (c : option bool) (v : bool) :
  (g = true → returns c (λ t, t = v)) →
  returns (Some g &&& c) (λ t, t = g && v).
Proof.
  intros H. destruct g; cbn; [|reflexivity].
  specialize (H eq_refl). destruct c as [t|]; [|contradiction].
  cbn in *. destruct t; assumption.
Qed.

Lemma orM_returns (a c : option bool) (va vc : bool) :
  returns a (λ t, t = va) → (va = false → returns c (λ t, t = vc)) →
  returns (a ||| c) (λ t, t = va || vc).
Proof.
  intros Ha Hc. destruct a as [t|]; [|contradiction]. cbn in Ha. subst t.
  destruct va; cbn; [reflexivity|]. apply Hc. reflexivity.
Qed.

Section Dotted.
Variables (T : Z → bool) (b0 b : Board).
Hypothesis Hwf0 : wf_board b0.
Hypothesis Hd : dotted_by T b0 b.

Lemma dotted_fields (x : Z) :
  0 ≤ x < 64 →
  piece (cell b x) = piece (cell b0 x)
  ∧ color (cell b x) = color (cell b0 x)
  ∧ flag32 (cell b x) = flag32 (cell b0 x).
Proof.
  intros Hx.
  destruct (dots_within_fields _ b0 b x Hwf0 (dotted_by_dots _ _ _ Hd) Hx)
    as (Hp & Hc & _ & Hf & _).
  auto.
Qed.

Lemma empty_dotted (k : Z) :
  0 ≤ k < 64 →
  returns (test b k (is_piece NONE)) (λ t, t = empty_at b0 k).
Proof.
  intros Hk. pose proof (wf_length _ (proj1 Hd)) as Hlen.
  unfold test. rewrite (rd_cell b k) by len. cbn.
  unfold empty_at, is_piece.
  destruct (dotted_fields k Hk) as (-> & _). reflexivity.
Qed.

Lemma capture_dotted (i k : Z) :
  0 ≤ i < 64 → 0 ≤ k < 64 →
  returns (capture b i k) (λ t, t = enemy_at b0 i k).
Proof.
  intros Hi Hk. pose proof (wf_length _ (proj1 Hd)) as Hlen.
  unfold capture, test, differ. rewrite !(rd_cell b) by len.
  cbn [mbind option_bind]. rewrite andM_Some. cbn [returns].
  unfold enemy_at, occupied.
  destruct (dotted_fields k Hk) as (-> & -> & _).
  destruct (dotted_fields i Hi) as (_ & -> & _). reflexivity.
Qed.

Lemma en_passant_dotted (i s : Z) :
  0 ≤ i < 64 → 0 ≤ s < 64 →
  returns (en_passant b i s) (λ t, t = passing_pawn b0 i s).
Proof.
  intros Hi Hs. pose proof (wf_length _ (proj1 Hd)) as Hlen.
  unfold en_passant, test, differ. rewrite !(rd_cell b) by len.
  cbn [mbind option_bind]. rewrite !andM_Some. cbn [returns].
  unfold passing_pawn, is_piece, has32.
  destruct (dotted_fields s Hs) as (-> & -> & ->).
  destruct (dotted_fields i Hi) as (_ & -> & _). reflexivity.
Qed.

(** One guarded [board[k] |= 64]. *)
Lemma dot_if_dotted (c : option bool) (v : bool) (k : Z) :
  returns c (λ t, t = v) → (v = true → 0 ≤ k < 64) →
  returns (dot_if c b k) (dotted_by (λ x, T x || v && (x =? k)) b0).
Proof.
  intros Hc Hk. pose proof Hd as [Hwf Hcells].
  pose proof (wf_length _ Hwf) as Hlen.
  unfold dot_if. destruct c as [t|]; [|contradiction].
  cbn in Hc. subst t. cbn [mbind option_bind].
  destruct v; cbn [andb].
  2:{ cbn [returns]. eapply dotted_by_ext; [|exact Hd].
      intros x Hx. cbv beta. rewrite orb_false_r. reflexivity. }
  specialize (Hk eq_refl). unfold dot. mrun.
  split; [wf_tac|]. intros x Hx. simp_cells.
  destruct (Z.eqb_spec x k) as [->|Hne].
  - rewrite orb_true_r, (Hcells k Hk).
    destruct (T k); [apply lor64_idem|reflexivity].
  - rewrite orb_false_r. apply Hcells, Hx.
Qed.

End Dotted.

Ltac pawn_cond Hwf H Hi :=
  rewrite ?andM_Some;
  first
  [ apply andM_guard; intros Hg;
    first
    [ apply (empty_dotted _ _ _ Hwf H); revert Hg; guard_range
    | apply orM_returns;
      [ apply (capture_dotted _ _ _ Hwf H); [exact Hi|revert Hg; guard_range]
      | intros _; apply (en_passant_dotted _ _ _ Hwf H);
        [exact Hi|revert Hg; guard_range] ] ] ].

Ltac pawn_range :=
  intros Hv; repeat (apply andb_true_iff in Hv as [Hv ?]);
  revert Hv; guard_range.

Ltac pawn_steps Hwf Hi :=
  repeat (eapply returns_bind;
    [ match goal with
      | H : dotted_by _ _ _ |- _ =>
          eapply (dot_if_dotted _ _ _ H);
          [pawn_cond Hwf H Hi|pawn_range]
      end
    | let b' := fresh "b" in let H' := fresh "H" in
      intros b' H'; cbv beta;
      repeat match goal with
             | H : dotted_by _ _ ?bb |- _ =>
                 lazymatch bb with b' => fail | _ => clear H end
             end ]);
  eapply returns_impl;
    [ match goal with
      | H : dotted_by _ _ _ |- _ =>
          eapply (dot_if_dotted _ _ _ H);
          [pawn_cond Hwf H Hi|pawn_range]
      end
    | let b' := fresh "b" in let H' := fresh "H" in
      intros b' H'; exact H' ].

Lemma pawnMoves_dotted (b : Board) (i : Z) :
  wf_board b → 0 ≤ i < 64 →
  returns (pawnMoves b i) (dotted_by (pawn_guards b i) b).
Proof.
  intros Hwf Hi. pose proof (wf_length _ Hwf) as Hlen.
  pose proof (land7_mod i) as Hi7.
  unfold pawnMoves, pawn_guards. rewrite (rd_cell b i) by len.
  cbn [mbind option_bind].
  pose proof (dotted_by_refl b Hwf) as H0.
  destruct (has16 (cell b i)); pawn_steps Hwf Hi.
Qed.

Lemma pawn_geometry (i x : Z) :
  0 ≤ i < 64 → 0 ≤ x < 64 →
  let cR := (i <? 55) && negb (Z.land i 7 =? 7) && (x =? i + 9) in
  let cL := (i <? 57) && negb (Z.land i 7 =? 0) && (x =? i + 7) in
  let dL := (i >=? 9) && negb (Z.land i 7 =? 0) && (x =? i - 9) in
  let dR := (i >? 7) && negb (Z.land i 7 =? 7) && (x =? i - 7) in
  ((i <? 56) && (x =? i + 8) = pawn_ahead true i x 1
   ∧ (i <? 16) && (x =? i + 16) = pawn_ahead true i x 2 && pawn_home true i
   ∧ cR || cL = pawn_diag true i x
   ∧ (cR = true → beside i x = i + 1)
   ∧ (cL = true → beside i x = i - 1))
  ∧ ((i >=? 8) && (x =? i - 8) = pawn_ahead false i x 1
     ∧ (i >=? 48) && (x =? i - 16)
       = pawn_ahead false i x 2 && pawn_home false i
     ∧ dL || dR = pawn_diag false i x
     ∧ (dL = true → beside i x = i - 1)
     ∧ (dR = true → beside i x = i + 1)).
Proof.
  intros Hi Hx.
  pose proof (squares_pairs (λ i x,
    let cR := (i <? 55) && negb (Z.land i 7 =? 7) && (x =? i + 9) in
    let cL := (i <? 57) && negb (Z.land i 7 =? 0) && (x =? i + 7) in
    let dL := (i >=? 9) && negb (Z.land i 7 =? 0) && (x =? i - 9) in
    let dR := (i >? 7) && negb (Z.land i 7 =? 7) && (x =? i - 7) in
    eqb ((i <? 56) && (x =? i + 8)) (pawn_ahead true i x 1)
    && eqb ((i <? 16) && (x =? i + 16))
           (pawn_ahead true i x 2 && pawn_home true i)
    && eqb (cR || cL) (pawn_diag true i x)
    && implb cR (beside i x =? i + 1)
    && implb cL (beside i x =? i - 1)
    && eqb ((i >=? 8) && (x =? i - 8)) (pawn_ahead false i x 1)
    && eqb ((i >=? 48) && (x =? i - 16))
           (pawn_ahead false i x 2 && pawn_home false i)
    && eqb (dL || dR) (pawn_diag false i x)
    && implb dL (beside i x =? i - 1)
    && implb dR (beside i x =? i + 1))
    ltac:(vm_compute; reflexivity) i x Hi Hx) as H.
  cbv zeta in *.
  repeat (apply andb_true_iff in H as [H ?]).
  repeat match goal with
         | H : eqb _ _ = true |- _ => apply eqb_prop in H
         end.
  split; repeat split; try assumption.
  all: intros Hc;
    match goal with
    | H : implb ?c _ = true |- beside _ _ = _ =>
        match type of Hc with c = true =>
          rewrite Hc in H; apply Z.eqb_eq in H; exact H
        end
    end.
Qed.

Lemma pawn_guards_offer (b : Board) (i x : Z) :
  0 ≤ i < 64 → 0 ≤ x < 64 → pawn_guards b i x = pawn_offer b i x.
Proof.
  intros Hi Hx.
  destruct (pawn_geometry i x Hi Hx)
    as [(A1 & A2 & D & BR & BL) (A1' & A2' & D' & BL' & BR')].
  unfold pawn_guards, pawn_offer. cbv zeta.
  destruct (has16 (cell b i)).
  - rewrite <- A1, <- A2, <- D.
    destruct (Z.eqb_spec x (i + 16));
      destruct (Z.eqb_spec x (i + 8));
      destruct (Z.eqb_spec x (i + 9));
      destruct (Z.eqb_spec x (i + 7));
      try (exfalso; lia); try subst x;
      repeat match goal with
             | |- context [?a =? ?c] =>
                 destruct (Z.eqb_spec a c); try (exfalso; lia)
             end;
      rewrite ?andb_true_r, ?andb_false_r, ?orb_false_r in *;
      cbn [orb andb]; try reflexivity; try apply orb_comm;
      try (match goal with |- ?g && _ = ?g && _ => destruct g end;
           [|reflexivity]);
      first [rewrite BR by reflexivity | rewrite BL by reflexivity];
      reflexivity.
  - rewrite <- A1', <- A2', <- D'.
    destruct (Z.eqb_spec x (i - 16));
      destruct (Z.eqb_spec x (i - 8));
      destruct (Z.eqb_spec x (i - 9));
      destruct (Z.eqb_spec x (i - 7));
      try (exfalso; lia); try subst x;
      repeat match goal with
             | |- context [?a =? ?c] =>
                 destruct (Z.eqb_spec a c); try (exfalso; lia)
             end;
      rewrite ?andb_true_r, ?andb_false_r, ?orb_false_r in *;
      cbn [orb andb]; try reflexivity; try apply orb_comm;
      try (match goal with |- ?g && _ = ?g && _ => destruct g end;
           [|reflexivity]);
      first [rewrite BR' by reflexivity | rewrite BL' by reflexivity];
      reflexivity.
Qed.

(** X9: the squares a pawn is offered, as the code has them.  A pawn
    whose bit 4 is set travels towards the higher ranks of the array,
    any other pawn towards the lower ones.  It is offered the square
    straight ahead when that square is empty; the square two ranks
    ahead when that square is empty and the pawn stands on one of the
    first two ranks of its way (the square in between is not read); and
    a square diagonally ahead, on a neighbouring file, when it holds a
    piece of the other colour or when the square beside the pawn on
    that file holds a pawn of the other colour with the en passant bit
    (the diagonal square is then not read).  No other square is
    changed, and no move wraps around an edge of the board. *)
Theorem calculateMoves_pawn (b : Board) (i : Z) :
  wf_board b → 0 ≤ i < 64 → piece (cell b i) = PAWN →
  ∃ b', calculateMoves b i = Some b'
        ∧ ∀ x, 0 ≤ x < 64 →
            cell b' x = if pawn_offer b i x
                        then Z.lor (cell b x) 64 else cell b x.
Proof.
  intros Hwf Hi Hp. pose proof (wf_length _ Hwf) as Hlen.
  apply returns_Some. pick_case PAWN.
  eapply returns_impl; [apply pawnMoves_dotted; assumption|].
  intros b' Hm. cbv beta.
  apply (dotted_by_ext _ (pawn_offer b i)) in Hm;
    [apply Hm|intros x Hx; apply pawn_guards_offer; assumption].
Qed.

(** The dots of a pawn, read off a run of [calculateMoves]. *)
Lemma pawn_dots (b b' : Board) (i : Z) :
  wf_board b → 0 ≤ i < 64 → piece (cell b i) = PAWN →
  calculateMoves b i = Some b' →
  ∀ x, 0 ≤ x < 64 →
    cell b' x = if pawn_offer b i x then Z.lor (cell b x) 64 else cell b x.
Proof.
  intros Hwf Hi Hp Hcalc. pose proof (wf_length _ Hwf) as Hlen.
  assert (Hret : returns (calculateMoves b i) (dotted_by (pawn_offer b i) b)).
  { pick_case PAWN.
    eapply returns_impl; [apply pawnMoves_dotted; assumption|].
    intros c Hm. apply (dotted_by_ext _ (pawn_offer b i)) in Hm;
      [exact Hm|intros x Hx; apply pawn_guards_offer; assumption]. }
  rewrite Hcalc in Hret. apply Hret.
Qed.


(** ** What a move leaves on the board *)

(** The bytes of the cleared board in terms of the caller's. *)
Ltac uncleared b Hwf :=
  repeat match goal with
         | |- context [cell (cleared b) ?k] =>
             rewrite (cleared_cell b k Hwf) by zlia
         end.

Ltac frame_cells b Hwf :=
  simp_cells; split_ifs; try (exfalso; zlia); uncleared b Hwf;
  first [reflexivity | value_fact b].

(** Comparisons of constants of the source. *)
Ltac const_cmps :=
  repeat match goal with
         | |- context [?a =? ?c] =>
             let a' := eval cbv in a in
             let c' := eval cbv in c in
             lazymatch a' with Z0 => idtac | Zpos _ => idtac end;
             lazymatch c' with Z0 => idtac | Zpos _ => idtac end;
             let v := eval cbv in (a' =? c') in
             change (a =? c) with v
         end.

(** X10: a knight, bishop, queen or rook, or a king that does not go
    two squares along the array, arrives on the destination as it
    stood on the origin: same type and colour, neither selected nor
    dotted, a rook or king without its unmoved flag.  Whatever stood on
    the destination is replaced, whatever its colour; the origin is
    emptied; every other square keeps its piece, colour and bit 4, and
    has lost its dot and its en passant bit. *)
Theorem movePiece_plain (b : Board) (i j : Z) :
  wf_board b → only_selected b j → 0 ≤ i < 64 → i ≠ j →
  piece (cell b j) = KNIGHT ∨ piece (cell b j) = BISHOP
  ∨ piece (cell b j) = QUEEN ∨ piece (cell b j) = ROOK
  ∨ (piece (cell b j) = KING ∧ j - i ≠ 2 ∧ i - j ≠ 2) →
  ∃ b', movePiece b i = Some b'
        ∧ cell b' i
          = Z.land (cell b j)
              (if (piece (cell b j) =? ROOK) || (piece (cell b j) =? KING)
               then 15 else 31)
        ∧ cell b' j = NONE
        ∧ ∀ x, 0 ≤ x < 64 → x ≠ i → x ≠ j →
            cell b' x = Z.land (cell b x) 0x9f.
Proof.
  intros Hwf Hsel Hi Hij Hp.
  rewrite (movePiece_switch b i j Hwf Hsel).
  destruct Hsel as (Hj & _ & _).
  pose proof (cleared_wf b Hwf) as HwfB.
  pose proof (wf_length _ HwfB) as HlenB.
  destruct (cleared_fields b j Hwf Hj) as (_ & Hpj & _).
  cbv zeta in Hpj.
  apply returns_Some. unfold relocate.
  rewrite (rd_cell (cleared b) j) by len. mb. rewrite Hpj.
  destruct Hp as [Hp|[Hp|[Hp|[Hp|(Hp & Hl & Hr)]]]]; rewrite Hp;
    const_cmps; cbn [orb]; cbv iota.
  5: destruct (Z.eqb_spec (j - i) 2); [contradiction|].
  5: destruct (Z.eqb_spec (i - j) 2); [contradiction|].
  all: mrun; unfold NONE.
  all: split; [frame_cells b Hwf|].
  all: split; [frame_cells b Hwf|].
  all: intros x Hx Hxi Hxj; frame_cells b Hwf.
Qed.

(** The en passant branch of the [switch]. *)
Lemma movePiece_en_passant_cells (b : Board) (i j : Z) :
  let victim := if file i <? file j then j - 1 else j + 1 in
  wf_board b → only_selected b j → 8 ≤ i < 56 →
  piece (cell b j) = PAWN → piece (cell b i) = NONE →
  file i ≠ file j → i ≠ victim →
  ∃ b', movePiece b i = Some b'
        ∧ 0 ≤ victim < 64
        ∧ cell b' i = Z.land (cell b j) 31
        ∧ cell b' j = NONE
        ∧ cell b' victim = NONE
        ∧ ∀ x, 0 ≤ x < 64 → x ≠ i → x ≠ j → x ≠ victim →
            cell b' x = Z.land (cell b x) 0x9f.
Proof.
  intros victim Hwf Hsel Hi Hp Hempty Hfile Hv.
  rewrite (movePiece_switch b i j Hwf Hsel).
  destruct Hsel as (Hj & _ & _).
  pose proof (cleared_wf b Hwf) as HwfB.
  pose proof (wf_length _ HwfB) as HlenB.
  pose proof (land7_mod i) as Hi7. pose proof (land7_mod j) as Hj7.
  destruct (cleared_fields b j Hwf Hj) as (_ & Hpj & _).
  destruct (cleared_fields b i Hwf ltac:(lia)) as (_ & Hpi & _).
  cbv zeta in Hpj, Hpi. unfold file in *.
  assert (Hvr : 0 ≤ victim < 64)
    by (subst victim; destruct (Z.ltb_spec (i mod 8) (j mod 8)); zlia).
  apply returns_Some. unfold relocate.
  rewrite (rd_cell (cleared b) j) by len. mb. rewrite Hpj, Hp.
  const_cmps. cbv iota.
  destruct (Z.ltb_spec i 8); [lia|].
  destruct (Z.geb_spec i 56); [lia|]. cbn [orb].
  rewrite (rd_cell (cleared b) i) by len. mb. rewrite Hpi, Hempty.
  const_cmps. cbv iota. rewrite Hi7, Hj7.
  destruct (Z.eqb_spec (j mod 8) (i mod 8)); [congruence|]. cbn [negb].
  cbv iota. subst victim.
  rewrite (Z.gtb_ltb (j mod 8) (i mod 8)) in *.
  destruct (Z.ltb_spec (i mod 8) (j mod 8)).
  all: mrun; unfold NONE.
  all: split; [lia|].
  all: split; [frame_cells b Hwf|].
  all: split; [frame_cells b Hwf|].
  all: split; [frame_cells b Hwf|].
  all: intros x Hx Hxi Hxj Hxv; frame_cells b Hwf.
Qed.


(** X12: a pawn moved straight ahead, or onto an occupied square, and
    not onto a far rank, arrives on the destination with its colour and
    its bit 4, and with the en passant bit exactly when it went sixteen
    squares; what stood on the destination is replaced, the origin is
    emptied, and every other square keeps its piece, colour and bit 4. *)
Theorem movePiece_pawn_step (b : Board) (i j : Z) :
  wf_board b → only_selected b j → 8 ≤ i < 56 → i ≠ j →
  piece (cell b j) = PAWN →
  piece (cell b i) ≠ NONE ∨ file i = file j →
  ∃ b', movePiece b i = Some b'
        ∧ cell b' i
          = Z.lor (Z.land (cell b j) 31)
              (if (i - j =? 16) || (j - i =? 16) then 32 else 0)
        ∧ cell b' j = NONE
        ∧ ∀ x, 0 ≤ x < 64 → x ≠ i → x ≠ j →
            cell b' x = Z.land (cell b x) 0x9f.
Proof.
  intros Hwf Hsel Hi Hij Hp Hstep.
  rewrite (movePiece_switch b i j Hwf Hsel).
  destruct Hsel as (Hj & _ & _).
  pose proof (cleared_wf b Hwf) as HwfB.
  pose proof (wf_length _ HwfB) as HlenB.
  pose proof (land7_mod i) as Hi7. pose proof (land7_mod j) as Hj7.
  destruct (cleared_fields b j Hwf Hj) as (_ & Hpj & _).
  destruct (cleared_fields b i Hwf ltac:(lia)) as (_ & Hpi & _).
  cbv zeta in Hpj, Hpi. unfold file in *.
  apply returns_Some. unfold relocate.
  rewrite (rd_cell (cleared b) j) by len. mb. rewrite Hpj, Hp.
  const_cmps. cbv iota.
  destruct (Z.ltb_spec i 8); [lia|].
  destruct (Z.geb_spec i 56); [lia|]. cbn [orb].
  rewrite (rd_cell (cleared b) i) by len. mb. rewrite Hpi, Hi7, Hj7.
  assert (Hc : (piece (cell b i) =? NONE) && negb (j mod 8 =? i mod 8)
               = false).
  { destruct Hstep as [Hocc|Hsame].
    - destruct (Z.eqb_spec (piece (cell b i)) NONE); [contradiction|].
      reflexivity.
    - rewrite Hsame, Z.eqb_refl. apply andb_false_r. }
  destruct (piece (cell b i) =? NONE); cbn [andb] in Hc;
    cbn [mbind option_bind]; rewrite ?Hc; cbv iota.
  all: destruct ((i - j =? 16) || (j - i =? 16)).
  all: mrun; unfold NONE.
  all: split; [frame_cells b Hwf|].
  all: split; [frame_cells b Hwf|].
  all: intros x Hx Hxi Hxj; frame_cells b Hwf.
Qed.


(** ** The search of verifyMove *)

Lemma king_dotted_spec (b : Board) (n : nat) :
  wf_board b → ∀ i, 0 ≤ i → i + Z.of_nat n ≤ 64 →
  returns (king_dotted n i b) (λ h,
    h = true ↔ ∃ k, i ≤ k < i + Z.of_nat n
                    ∧ dotted (cell b k) ≠ 0 ∧ piece (cell b k) = KING).
Proof.
  intros Hwf. pose proof (wf_length _ Hwf) as Hlen.
  induction n as [|n IH]; intros i Hi Hn.
  { cbn. split; [discriminate|]. intros (k & Hk & _). lia. }
  cbn [king_dotted]. unfold test.
  rewrite (rd_cell b i) by len. mb.
  assert (Hrest : ¬ (dotted (cell b i) ≠ 0 ∧ piece (cell b i) = KING) →
    returns (king_dotted n (i + 1) b) (λ h,
      h = true ↔ ∃ k, i ≤ k < i + Z.of_nat (S n)
                      ∧ dotted (cell b k) ≠ 0 ∧ piece (cell b k) = KING)).
  { intros Hno. eapply returns_impl; [apply IH; lia|].
    intros h Hh. cbv beta in *. rewrite Hh. split.
    - intros (k & Hk & Hd). exists k. split; [lia|exact Hd].
    - intros (k & Hk & Hd). exists k. split; [|exact Hd].
      destruct (Z.eq_dec k i) as [->|]; [contradiction|lia]. }
  destruct (Z.eqb_spec (dotted (cell b i)) 0) as [Hz|Hnz]; mb.
  { apply Hrest. intros [Hd _]. contradiction. }
  unfold is_piece.
  destruct (Z.eqb_spec (piece (cell b i)) KING) as [Hk|Hnk]; mb.
  - cbn [returns]. split; [|reflexivity]. intros _.
    exists i. split; [lia|auto].
  - apply Hrest. intros [_ Hp]. contradiction.
Qed.

Lemma attacks_king_spec (b bc : Board) (j : Z) :
  calculateMoves b j = Some bc →
  attacks_king b j ↔
  ∃ k, 0 ≤ k < 64 ∧ dotted (cell bc k) ≠ 0 ∧ piece (cell bc k) = KING.
Proof.
  intros Hc. unfold attacks_king. split.
  - intros (bc' & k & Hc' & H). rewrite Hc in Hc'. injection Hc' as <-.
    exists k. exact H.
  - intros (k & H). exists bc, k. auto.
Qed.

(** On a board without dots the search goes through the pieces of one
    colour and answers 0 exactly when one of them is offered a square
    that holds a king. *)
Lemma verify_scan_spec (side : Z) (b2 : Board) (n : nat) :
  wf_board b2 → castling_reads_inside b2 →
  (∀ k, 0 ≤ k < 64 → dotted (cell b2 k) = 0) →
  ∀ j, 0 ≤ j → j + Z.of_nat n ≤ 64 →
  returns (verify_scan n j b2 side) (λ r,
    (r = 1 ∧ ∀ j', j ≤ j' < j + Z.of_nat n →
                 piece (cell b2 j') ≠ NONE → color (cell b2 j') = side →
                 ¬ attacks_king b2 j')
    ∨ (r = 0 ∧ ∃ j', j ≤ j' < j + Z.of_nat n
                     ∧ piece (cell b2 j') ≠ NONE
                     ∧ color (cell b2 j') = side ∧ attacks_king b2 j')).
Proof.
  intros Hwf Hsafe Hclean. pose proof (wf_length _ Hwf) as Hlen.
  induction n as [|n IH]; intros j Hj Hn.
  { left. split; [reflexivity|]. intros j' Hj'. lia. }
  cbn [verify_scan]. unfold test.
  rewrite (rd_cell b2 j) by len. mb.
  assert (Hskip : (piece (cell b2 j) ≠ NONE → color (cell b2 j) = side →
                   ¬ attacks_king b2 j) →
    returns (verify_scan n (j + 1) b2 side) (λ r,
      (r = 1 ∧ ∀ j', j ≤ j' < j + Z.of_nat (S n) →
                   piece (cell b2 j') ≠ NONE → color (cell b2 j') = side →
                   ¬ attacks_king b2 j')
      ∨ (r = 0 ∧ ∃ j', j ≤ j' < j + Z.of_nat (S n)
                       ∧ piece (cell b2 j') ≠ NONE
                       ∧ color (cell b2 j') = side ∧ attacks_king b2 j'))).
  { intros Hhere. eapply returns_impl; [apply IH; lia|].
    intros r [[-> Hall]|[-> (j' & Hj' & Hbad)]]; [left|right].
    - split; [reflexivity|]. intros j' Hj'.
      destruct (Z.eq_dec j' j) as [->|]; [exact Hhere|apply Hall; lia].
    - split; [reflexivity|]. exists j'. split; [lia|exact Hbad]. }
  unfold occupied.
  destruct (Z.eqb_spec (piece (cell b2 j)) 0) as [Hz|Hocc]; mb.
  { apply Hskip. intros Hp. contradiction. }
  destruct (Z.eqb_spec (color (cell b2 j)) side) as [Hc|Hc]; mb.
  2:{ apply Hskip. intros _ Hc'. contradiction. }
  pose proof (calculateMoves_returns b2 j Hwf ltac:(lia) (Hsafe j ltac:(lia)))
    as Hret.
  apply returns_Some in Hret. destruct Hret as (b3 & Hb3 & H3).
  eapply returns_bind_eq; [exact Hb3|].
  eapply returns_bind; [apply (king_dotted_spec b3 64); [apply H3|lia|lia]|].
  intros h Hh. cbv beta in Hh.
  destruct h; cbv iota.
  - cbn [returns]. right. split; [reflexivity|].
    exists j. split; [lia|]. split; [exact Hocc|]. split; [exact Hc|].
    apply (attacks_king_spec b2 b3 j Hb3).
    destruct (proj1 Hh eq_refl) as (k & Hk & Hd). exists k.
    split; [lia|exact Hd].
  - rewrite (removeDots_spec b3) by apply H3. cbn [mbind option_bind].
    rewrite (removeDots_back b2 b3 Hwf Hclean
               (dots_within_same _ b2 b3 Hwf H3)).
    apply Hskip. intros _ _ Hatt.
    apply (attacks_king_spec b2 b3 j Hb3) in Hatt.
    destruct Hatt as (k & Hk & Hd).
    assert (Ht : false = true); [|discriminate].
    apply Hh. exists k. split; [lia|exact Hd].
Qed.

Lemma verify_scan_safe (side : Z) (b2 : Board) :
  wf_board b2 → castling_reads_inside b2 →
  (∀ k, 0 ≤ k < 64 → dotted (cell b2 k) = 0) →
  ∃ r, verify_scan 64 0 b2 side = Some r
       ∧ (r = 0 ∨ r = 1) ∧ (r = 1 ↔ king_safe b2 side).
Proof.
  intros Hwf Hsafe Hclean.
  pose proof (verify_scan_spec side b2 64 Hwf Hsafe Hclean 0
                ltac:(lia) ltac:(lia)) as Hret.
  apply returns_Some in Hret.
  destruct Hret as (r & Hr & [[-> Hall]|[-> (j' & Hj' & Hp & Hc & Hatt)]]);
    eexists; (split; [exact Hr|]).
  - split; [right; reflexivity|]. split; [|reflexivity].
    intros _ j Hj. apply Hall. lia.
  - split; [left; reflexivity|]. split; [discriminate|].
    intros Hks. exfalso. apply (Hks j'); [lia|assumption..].
Qed.

(** ** What verifyMove decides *)

Lemma returns_is {A} (m : option A) (a : A) :
  returns m (λ x, x = a) → m = Some a.
Proof. destruct m; cbn; [intros ->; reflexivity|tauto]. Qed.

Lemma movePiece_clean (b : Board) (i j : Z) :
  wf_board b → only_selected b j → castling_reads_inside b → 0 ≤ i < 64 →
  ∃ b2, movePiece b i = Some b2 ∧ wf_board b2 ∧ castling_reads_inside b2
        ∧ idle b2.
Proof.
  intros Hwf Hsel Hsafe Hi.
  pose proof (movePiece_returns b i j Hwf (only_selected_first b j Hsel) Hi)
    as Hret.
  apply returns_Some in Hret.
  destruct Hret as (b2 & Hb2 & Hwf2 & _ & Hdots & Hcells).
  exists b2. split; [exact Hb2|]. split; [exact Hwf2|]. split.
  - intros k Hk Hp H16.
    destruct (Hcells k Hk) as [(_ & _ & Hp' & Hf' & _)|[_ Hno]].
    + apply (Hsafe k Hk); [rewrite <- Hp'; exact Hp|].
      unfold has16 in *. rewrite <- Hf'. exact H16.
    + exfalso. apply Hno. split; [left; exact Hp|].
      unfold has16 in H16. intros Hz. rewrite Hz in H16. discriminate.
  - intros k Hk. split; [apply Hdots, Hk|].
    destruct Hsel as (Hj & _ & Hothers).
    destruct (Hcells k Hk) as [(Hne & Hs & _)|[Hs _]]; [|exact Hs].
    rewrite Hs. apply Hothers; assumption.
Qed.

Lemma verifyMove_scan (b : Board) (i side j : Z) :
  wf_board b → only_selected b j → castling_reads_inside b → 0 ≤ i < 64 →
  ∃ b2 r, movePiece b i = Some b2
          ∧ verify_scan 64 0 b2 side = Some r
          ∧ verifyMove b i side = Some (r, b)
          ∧ (r = 0 ∨ r = 1) ∧ (r = 1 ↔ king_safe b2 side).
Proof.
  intros Hwf Hsel Hsafe Hi.
  destruct (movePiece_clean b i j Hwf Hsel Hsafe Hi)
    as (b2 & Hb2 & Hwf2 & Hsafe2 & Hidle).
  destruct (verify_scan_safe side b2 Hwf2 Hsafe2 (λ k Hk, proj1 (Hidle k Hk)))
    as (r & Hr & Hr01 & Hiff).
  exists b2, r. split; [exact Hb2|]. split; [exact Hr|].
  split; [|split; assumption].
  apply returns_is. unfold verifyMove.
  eapply returns_bind_eq; [apply (copy_board_spec b Hwf)|].
  eapply returns_bind_eq; [exact Hb2|].
  eapply returns_bind_eq; [exact Hr|].
  reflexivity.
Qed.

(** X13: what [verifyMove] decides.  With one square selected the move
    is carried out on the copy, and the answer is 1 exactly when, on the
    board the move leaves, no piece whose colour bit equals
    [next_sides_turn] is offered by [calculateMoves] a square that holds
    a king; otherwise it is 0.  The caller's board is unchanged. *)
Theorem verifyMove_meaning (b : Board) (i side j : Z) :
  wf_board b → only_selected b j → castling_reads_inside b → 0 ≤ i < 64 →
  ∃ b2 r, movePiece b i = Some b2
          ∧ verifyMove b i side = Some (r, b)
          ∧ (r = 0 ∨ r = 1) ∧ (r = 1 ↔ king_safe b2 side).
Proof.
  intros Hwf Hsel Hsafe Hi.
  destruct (verifyMove_scan b i side j Hwf Hsel Hsafe Hi)
    as (b2 & r & Hb2 & _ & Hv & Hr).
  exists b2, r. auto.
Qed.

(** ** The dots that pass the filter *)

Lemma cleared_same (b b' : Board) :
  wf_board b → same_mod 0xbf b b' → cleared b' = cleared b.
Proof.
  intros Hwf [Hwf' H]. apply board_ext.
  - apply wf_length, cleared_wf, Hwf'.
  - apply wf_length, cleared_wf, Hwf.
  - intros k Hk. rewrite !cleared_cell by assumption.
    rewrite <- !Z.land_assoc. change (Z.land 223 191) with (Z.land 191 223).
    rewrite !Z.land_assoc, (H k Hk). reflexivity.
Qed.

(** [movePiece] does not see the dots. *)
Lemma movePiece_same_dots (b b' : Board) (i j : Z) :
  wf_board b → same_mod 0xbf b b' → only_selected b j →
  movePiece b' i = movePiece b i.
Proof.
  intros Hwf Hs Hsel.
  rewrite (movePiece_switch b i j Hwf Hsel).
  rewrite (movePiece_switch b' i j (proj1 Hs)
             (only_selected_same b b' j Hwf Hs Hsel)).
  rewrite (cleared_same b b' Hwf Hs). reflexivity.
Qed.

Lemma verified_same_dots (b b' : Board) (i j t : Z) :
  wf_board b → same_mod 0xbf b b' → only_selected b j →
  verified b i t → verified b' i t.
Proof.
  intros Hwf Hs Hsel (b2 & Hb2 & Hr). exists b2.
  rewrite (movePiece_same_dots b b' i j Hwf Hs Hsel). auto.
Qed.

Lemma filter_dots_verified (t s : Z) (n : nat) :
  ∀ j b, wf_board b → only_selected b s →
    castling_reads_inside b → 0 ≤ j → j + Z.of_nat n ≤ 64 →
    returns (filter_dots n j b t) (λ b',
      same_mod 0xbf b b'
      ∧ (∀ k, 0 ≤ k < 64 → dotted (cell b' k) ≠ 0 → dotted (cell b k) ≠ 0)
      ∧ ∀ k, j ≤ k < j + Z.of_nat n → dotted (cell b' k) ≠ 0 →
          verified b' k t).
Proof.
  induction n as [|n IH]; intros j b Hwf Hsel Hsafe Hj Hn.
  { split; [apply same_mod_refl, Hwf|]. split; [auto|]. intros k Hk. lia. }
  pose proof (wf_length _ Hwf) as Hlen.
  cbn [filter_dots]. unfold test.
  rewrite (rd_cell b j) by len. cbn [mbind option_bind].
  assert (Hskip : (dotted (cell b j) ≠ 0 → verified b j t) →
    returns (filter_dots n (j + 1) b t) (λ b',
      same_mod 0xbf b b'
      ∧ (∀ k, 0 ≤ k < 64 → dotted (cell b' k) ≠ 0 → dotted (cell b k) ≠ 0)
      ∧ ∀ k, j ≤ k < j + Z.of_nat (S n) → dotted (cell b' k) ≠ 0 →
          verified b' k t)).
  { intros Hhere. eapply returns_impl; [apply (IH (j + 1) b); auto; lia|].
    intros b' (Hs & Hd & Hv). split; [exact Hs|]. split; [exact Hd|].
    intros k Hk Hdot. destruct (Z.eq_dec k j) as [->|Hne].
    - apply (verified_same_dots b b' j s t Hwf Hs Hsel).
      apply Hhere, Hd; [lia|exact Hdot].
    - apply Hv; [lia|exact Hdot]. }
  destruct (Z.eqb_spec (dotted (cell b j)) 0) as [Hz|Hnz]; cbn [negb].
  { apply Hskip. intros Hd. contradiction. }
  destruct (verifyMove_scan b j t s Hwf Hsel Hsafe ltac:(lia))
    as (b2 & r & Hb2 & Hr & Hv & Hr01 & _).
  rewrite Hv. cbn [mbind option_bind].
  destruct (Z.eqb_spec r 0) as [->|Hr1].
  2:{ apply Hskip. intros _. exists b2. split; [exact Hb2|].
      destruct Hr01 as [->| ->]; [contradiction|exact Hr]. }
  rewrite (rd_cell b j) by len. cbn [mbind option_bind].
  rewrite (wr_Some b j) by first [len | bytes]. cbn [mbind option_bind].
  set (b1 := <[Z.to_nat j := Z.land (cell b j) 0xbf]> b).
  assert (H1 : same_mod 0xbf b b1).
  { split; [unfold b1; wf_tac|]. intros k Hk. unfold b1. simp_cells.
    destruct (Z.eqb_spec k j) as [->|]; [|reflexivity].
    rewrite <- Z.land_assoc. reflexivity. }
  assert (Hd1 : ∀ k, 0 ≤ k < 64 →
                  dotted (cell b1 k) ≠ 0 → dotted (cell b k) ≠ 0 ∧ k ≠ j).
  { intros k Hk. unfold b1. simp_cells.
    destruct (Z.eqb_spec k j) as [->|]; [|auto].
    intros Hd. exfalso. apply Hd.
    pose proof (wf_cell b j Hwf Hk) as Hb. byte_fact (cell b j). }
  eapply returns_impl.
  - apply (IH (j + 1) b1); [apply H1| | |lia|lia].
    + apply (only_selected_same b b1 s Hwf H1 Hsel).
    + apply (castling_reads_inside_same b b1 Hwf); [|exact Hsafe].
      apply same_mod_3f, H1.
  - intros b' (H' & Hd' & Hv'). split; [|split].
    + eapply same_mod_trans; [exact H1|exact H'].
    + intros k Hk Hd. apply Hd1; [exact Hk|]. apply Hd'; assumption.
    + intros k Hk Hd. destruct (Z.eq_dec k j) as [->|Hne].
      * exfalso. apply (Hd1 j); [lia| |reflexivity].
        apply Hd'; [lia|exact Hd].
      * apply Hv'; [lia|exact Hd].
Qed.

(** ** The branches of a click *)

Lemma position_same (b : Board) : wf_board b → same_mod 0x3f b (position b).
Proof.
  intros Hwf. apply fmap_same; [exact Hwf|]. intros x Hx. byte_fact x.
Qed.

Lemma position_eq (b b' : Board) :
  wf_board b → same_mod 0x3f b b' → position b' = position b.
Proof.
  intros Hwf [Hwf' H]. apply board_ext.
  - unfold position. rewrite length_fmap. apply wf_length, Hwf'.
  - unfold position. rewrite length_fmap. apply wf_length, Hwf.
  - intros k Hk. unfold position.
    rewrite !cell_fmap by (first [rewrite (wf_length b Hwf)
                                 | rewrite (wf_length b' Hwf')]; lia).
    apply H, Hk.
Qed.

Lemma position_idle (b : Board) : wf_board b → idle b → position b = b.
Proof.
  intros Hwf Hidle. apply board_ext.
  - unfold position. rewrite length_fmap. apply wf_length, Hwf.
  - apply wf_length, Hwf.
  - intros k Hk. unfold position.
    rewrite cell_fmap by (rewrite (wf_length b Hwf); lia).
    destruct (Hidle k Hk) as [Hd Hs].
    pose proof (wf_cell b k Hwf Hk) as Hb. cell_fact b k.
Qed.

(** The last branch of the handler, step by step. *)
Lemma select_run (b : Board) (t i : Z) :
  session_inv b → 0 ≤ i < 64 →
  ∃ b2 b3 b4,
    (b1 ← mask_all 0x3f b;
     x ← rd b1 i;
     b2 ← wr b1 i (Z.lor x 128);
     b3 ← calculateMoves b2 i;
     b4 ← filter_dots 64 0 b3 t;
     Some (b4, t)) = Some (b4, t)
    ∧ same_mod 0x3f b b2 ∧ only_selected b2 i
    ∧ (∀ k, 0 ≤ k < 64 → dotted (cell b2 k) = 0)
    ∧ calculateMoves b2 i = Some b3
    ∧ same_mod 0xbf b2 b3 ∧ same_mod 0xbf b3 b4
    ∧ (∀ k, 0 ≤ k < 64 → dotted (cell b4 k) ≠ 0 → dotted (cell b3 k) ≠ 0)
    ∧ (∀ k, 0 ≤ k < 64 → dotted (cell b4 k) ≠ 0 → verified b4 k t).
Proof.
  intros (Hwf & Hsafe & _) Hi.
  set (b1 := (λ x, Z.land x 0x3f) <$> b).
  assert (H1 : same_mod 0x3f b b1)
    by (apply fmap_same; [exact Hwf|]; intros x Hx; byte_fact x).
  pose proof H1 as [Hwf1 _]. pose proof (wf_length _ Hwf1) as Hlen1.
  set (b2 := <[Z.to_nat i := Z.lor (cell b1 i) 128]> b1).
  assert (Hc1 : ∀ k, 0 ≤ k < 64 → cell b1 k = Z.land (cell b k) 0x3f).
  { intros k Hk. unfold b1.
    rewrite cell_fmap by (rewrite (wf_length b Hwf); lia). reflexivity. }
  assert (H12 : same_mod 0x3f b1 b2).
  { split; [unfold b2; wf_tac|]. intros k Hk. unfold b2. simp_cells.
    destruct (Z.eqb_spec k i) as [->|]; [|reflexivity].
    pose proof (wf_cell b1 i Hwf1 Hi) as Hb. byte_fact (cell b1 i). }
  pose proof H12 as [Hwf2 _].
  assert (H02 : same_mod 0x3f b b2) by (eapply same_mod_trans; eassumption).
  assert (Hclean2 : ∀ k, 0 ≤ k < 64 → dotted (cell b2 k) = 0).
  { intros k Hk. unfold b2. simp_cells.
    pose proof (wf_cell b k Hwf Hk) as Hb.
    pose proof (wf_cell b i Hwf Hi) as Hbi.
    destruct (Z.eqb_spec k i) as [->|]; rewrite Hc1 by assumption.
    - byte_fact (cell b i).
    - byte_fact (cell b k). }
  assert (Hsel2 : only_selected b2 i).
  { split; [exact Hi|]. split.
    - unfold b2. simp_cells. rewrite Hc1 by assumption.
      pose proof (wf_cell b i Hwf Hi) as Hb. byte_fact (cell b i).
    - intros k Hk Hne. unfold b2. simp_cells.
      destruct (Z.eqb_spec k i); [contradiction|]. rewrite Hc1 by assumption.
      pose proof (wf_cell b k Hwf Hk) as Hb. byte_fact (cell b k). }
  assert (Hsafe2 : castling_reads_inside b2)
    by (apply (castling_reads_inside_same b b2 Hwf H02 Hsafe)).
  assert (Hret := calculateMoves_returns b2 i Hwf2 Hi (Hsafe2 i Hi)).
  apply returns_Some in Hret. destruct Hret as (b3 & Hb3 & H3).
  pose proof (dots_within_same _ b2 b3 Hwf2 H3) as H23.
  pose proof H23 as [Hwf3 _].
  assert (Hsel3 : only_selected b3 i)
    by (apply (only_selected_same b2 b3 i Hwf2 H23 Hsel2)).
  assert (Hsafe3 : castling_reads_inside b3).
  { apply (castling_reads_inside_same b2 b3 Hwf2); [|exact Hsafe2].
    apply same_mod_3f, H23. }
  pose proof (filter_dots_verified t i 64 0 b3 Hwf3 Hsel3 Hsafe3
                ltac:(lia) ltac:(lia)) as Hret.
  apply returns_Some in Hret. destruct Hret as (b4 & Hb4 & H34 & Hd34 & Hv).
  exists b2, b3, b4. split.
  { apply returns_is.
    eapply returns_bind_eq;
      [apply mask_all_spec; [exact Hwf|intros x Hx; byte_fact x]|].
    fold b1.
    eapply returns_bind_eq; [apply (rd_cell b1 i); len|].
    eapply returns_bind_eq; [apply (wr_Some b1 i); first [len | bytes]|].
    fold b2.
    eapply returns_bind_eq; [exact Hb3|].
    eapply returns_bind_eq; [exact Hb4|]. reflexivity. }
  repeat (split; [assumption|]).
  intros k Hk Hd. apply Hv; [lia|exact Hd].
Qed.

Lemma click_cases (b : Board) (t i : Z) :
  session_inv b → 0 ≤ i < 64 →
  returns (click (b, t) i) (λ st',
    (st' = (b, t)
     ∧ (cell b i = 0
        ∨ (dotted (cell b i) = 0
           ∧ (piece (cell b i) = NONE ∨ color (cell b i) = t))))
    ∨ (dotted (cell b i) ≠ 0 ∧ movePiece b i = Some st'.1
       ∧ st'.2 = Z.lxor t 1 ∧ wf_board st'.1 ∧ idle st'.1)
    ∨ (dotted (cell b i) = 0 ∧ selected (cell b i) ≠ 0
       ∧ piece (cell b i) ≠ NONE ∧ color (cell b i) ≠ t
       ∧ st'.2 = t ∧ idle st'.1 ∧ same_mod 0x3f b st'.1)
    ∨ (dotted (cell b i) = 0 ∧ selected (cell b i) = 0
       ∧ piece (cell b i) ≠ NONE ∧ color (cell b i) ≠ t
       ∧ st'.2 = t ∧ only_selected st'.1 i ∧ same_mod 0x3f b st'.1
       ∧ ∀ k, 0 ≤ k < 64 → dotted (cell st'.1 k) ≠ 0 →
           verified st'.1 k t)).
Proof.
  intros Hinv Hi.
  pose proof Hinv as (Hwf & Hsafe & Hflags & Hshape & _).
  pose proof (wf_length _ Hwf) as Hlen.
  unfold click. cbv beta iota.
  eapply returns_bind_eq; [apply (rd_cell b i); len|].
  destruct (Z.eqb_spec (cell b i) 0) as [Hz|_].
  { left. split; [reflexivity|]. left. exact Hz. }
  destruct (Z.eqb_spec (dotted (cell b i)) 0) as [Hnd|Hd]; cbn [negb].
  2:{ destruct Hshape as [Hidle|[j [Hsel Hgen]]];
        [destruct (Hidle i Hi); contradiction|].
      destruct (movePiece_clean b i j Hwf Hsel Hsafe Hi)
        as (b2 & Hb2 & Hwf2 & _ & Hidle2).
      eapply returns_bind_eq; [exact Hb2|]. cbn [returns fst snd].
      right. left. auto. }
  destruct (Z.eqb_spec (piece (cell b i)) NONE) as [Hp|Hp].
  { left. split; [reflexivity|]. right. auto. }
  destruct (Z.eqb_spec (color (cell b i)) t) as [Hc|Hc].
  { left. split; [reflexivity|]. right. auto. }
  destruct (Z.eqb_spec (selected (cell b i)) 0) as [Hns|Hs]; cbn [negb].
  - destruct (select_run b t i Hinv Hi)
      as (b2 & b3 & b4 & Hrun & H02 & Hsel2 & _ & _ & H23 & H34 & _ & Hv).
    rewrite Hrun. cbn [returns fst snd].
    right. right. right.
    assert (H24 : same_mod 0xbf b2 b4) by (eapply same_mod_trans; eassumption).
    repeat (split; [assumption|]). split; [reflexivity|]. split.
    { apply (only_selected_same b2 b4 i (proj1 H02) H24 Hsel2). }
    split; [|exact Hv].
    eapply same_mod_trans; [exact H02|apply same_mod_3f, H24].
  - eapply returns_bind_eq; [apply (wr_Some b i); first [len | bytes]|].
    set (b1 := <[Z.to_nat i := Z.land (cell b i) 127]> b).
    assert (Hwf1 : wf_board b1) by (unfold b1; wf_tac).
    eapply returns_bind_eq; [apply (removeDots_spec b1 Hwf1)|].
    cbn [returns fst snd].
    set (b2 := (λ x, Z.land x 0xbf) <$> b1).
    assert (H01 : same_mod 0x3f b b1).
    { split; [exact Hwf1|]. intros k Hk. unfold b1. simp_cells.
      destruct (Z.eqb_spec k i) as [->|]; [|reflexivity].
      rewrite <- Z.land_assoc. reflexivity. }
    assert (H02 : same_mod 0x3f b b2).
    { eapply same_mod_trans; [exact H01|].
      apply same_mod_3f, removeDots_same, Hwf1. }
    right. right. left.
    repeat (split; [assumption|]). split; [reflexivity|].
    split; [|exact H02].
    destruct Hshape as [Hidle|[j [(Hj & Hsj & Hothers) _]]];
      [destruct (Hidle i Hi); contradiction|].
    assert (i = j) as <-.
    { destruct (Z.eq_dec i j); [assumption|].
      exfalso. apply Hs, Hothers; assumption. }
    intros k Hk. split; [apply removeDots_dotted; assumption|].
    destruct (removeDots_fields b1 k Hwf1 Hk) as (_ & _ & _ & _ & _ & _ & Hsl).
    cbv zeta in Hsl. fold b2 in Hsl. rewrite Hsl.
    unfold b1. simp_cells.
    destruct (Z.eqb_spec k i) as [->|Hne]; [|apply Hothers; assumption].
    pose proof (wf_cell b i Hwf Hi) as Hb. byte_fact (cell b i).
Qed.

(** ** Every position of a game, continued *)

Lemma setupBoard_idle (w : Z) : idle (setupBoard w).
Proof.
  intros k Hk.
  assert (Hall : forallb (λ p, (dotted (cell (setupBoard w) p) =? 0)
                               && (selected (cell (setupBoard w) p) =? 0))
                   (Z.of_nat <$> seq 0 64) = true)
    by (destruct (setupBoard_cases w) as [-> | ->]; vm_compute; reflexivity).
  pose proof (squares_cases _ Hall k Hk) as H. cbv beta in H.
  apply andb_true_iff in H as [H1 H2]. split; apply Z.eqb_eq; assumption.
Qed.

Lemma only_selected_unique (b : Board) (j j' : Z) :
  only_selected b j → only_selected b j' → j' = j.
Proof.
  intros (Hj & Hs & Ho) (Hj' & Hs' & _).
  destruct (Z.eq_dec j' j) as [He|Hne]; [exact He|].
  exfalso. apply Hs'. apply Ho; assumption.
Qed.

Lemma play_inv_setup (w : Z) : play_inv (setupBoard w, 1).
Proof.
  pose proof (setupBoard_idle w) as Hidle.
  split; [right; reflexivity|]. cbn [fst snd]. split; [|split].
  - intros j Hsel. exfalso. apply (idle_same_picking_false _ j Hidle Hsel).
  - intros i Hi Hd. destruct (Hidle i Hi). contradiction.
  - destruct (setupBoard_cases w) as [-> | ->]; vm_compute; reflexivity.
Qed.

Lemma play_inv_click (st st' : Board * Z) (i : Z) :
  session_inv st.1 → play_inv st → 0 ≤ i < 64 → click st i = Some st' →
  play_inv st'.
Proof.
  destruct st as [b t]. cbn [fst]. intros Hinv Hplay Hi Hclick.
  pose proof Hinv as (Hwf & _).
  pose proof (returns_eq _ _ _ (click_cases b t i Hinv Hi) Hclick) as Hcases.
  destruct Hplay as (Ht & Hown & Hver & Hsafe). cbn [fst snd] in *.
  destruct Hcases as [[-> _]|[Hmove|[Hdesel|Hselect]]].
  - exact (conj Ht (conj Hown (conj Hver Hsafe))).
  - destruct Hmove as (Hd & Hb2 & Ht' & Hwf' & Hidle).
    destruct st' as [b' t']. cbn [fst snd] in *. subst t'.
    split; [destruct Ht as [-> | ->]; [right|left]; reflexivity|].
    cbn [fst snd]. split; [|split].
    + intros j Hsel. exfalso.
      apply (idle_same_picking_false _ j Hidle Hsel).
    + intros k Hk Hdot. destruct (Hidle k Hk). contradiction.
    + rewrite (position_idle b' Hwf' Hidle).
      destruct (Hver i Hi Hd) as (b2 & Hb2' & Hscan).
      rewrite Hb2 in Hb2'. injection Hb2' as <-.
      replace (Z.lxor (Z.lxor t 1) 1) with t
        by (destruct Ht as [-> | ->]; reflexivity).
      exact Hscan.
  - destruct Hdesel as (_ & _ & _ & _ & Ht' & Hidle & Hsame).
    destruct st' as [b' t']. cbn [fst snd] in *. subst t'.
    split; [exact Ht|]. cbn [fst snd]. split; [|split].
    + intros j Hsel. exfalso.
      apply (idle_same_picking_false _ j Hidle Hsel).
    + intros k Hk Hdot. destruct (Hidle k Hk). contradiction.
    + rewrite (position_eq b b' Hwf Hsame). exact Hsafe.
  - destruct Hselect as (_ & _ & Hp & Hc & Ht' & Hsel & Hsame & Hv).
    destruct st' as [b' t']. cbn [fst snd] in *. subst t'.
    split; [exact Ht|]. cbn [fst snd]. split; [|split].
    + intros j Hsel'.
      rewrite (only_selected_unique b' i j Hsel Hsel').
      destruct (same_3f_fields b b' i Hwf Hsame Hi) as (-> & -> & _).
      split; [exact Hp|].
      pose proof (wf_cell b i Hwf Hi) as Hb.
      assert (Hc01 : color (cell b i) = 0 ∨ color (cell b i) = 1)
        by byte_fact (cell b i).
      destruct Ht as [-> | ->]; destruct Hc01 as [Hc0|Hc1];
        rewrite ?Hc0, ?Hc1 in *; first [reflexivity | contradiction].
    + exact Hv.
    + rewrite (position_eq b b' Hwf Hsame). exact Hsafe.
Qed.

Lemma reachable_play_inv (st : Board * Z) : reachable st → play_inv st.
Proof.
  induction 1 as [w|st st' i Hreach IH Hi Hclick].
  - apply play_inv_setup.
  - apply (play_inv_click st st' i); try assumption.
    apply reachable_session_inv, Hreach.
Qed.


(** ** The move generator does not read the selection *)

Lemma orel_bind {A B} (rA : A → A → Prop) (rB : B → B → Prop)
    (m m' : option A) (f f' : A → option B) :
  orel rA m m' → (∀ a a', rA a a' → orel rB (f a) (f' a')) →
  orel rB (m ≫= f) (m' ≫= f').
Proof.
  destruct m as [a|], m' as [a'|]; cbn; intros Hm Hf;
    first [contradiction | exact I | apply Hf, Hm].
Qed.

Lemma orel_eq_refl {A} (m : option A) : orel eq m m.
Proof. destruct m; cbn; auto. Qed.

Lemma orel_eq {A} (m m' : option A) : orel eq m m' → m = m'.
Proof. destruct m, m'; cbn; intros H; first [congruence | contradiction]. Qed.

Lemma low7_fields (x y : Z) :
  byte x → byte y → low7 x y →
  piece x = piece y ∧ color x = color y ∧ flag16 x = flag16 y
  ∧ flag32 x = flag32 y ∧ dotted x = dotted y
  ∧ low7 (Z.lor x 64) (Z.lor y 64).
Proof.
  intros Hx Hy H. unfold low7 in *.
  assert (Hf : ∀ z, byte z →
    piece z = piece (Z.land z 127) ∧ color z = color (Z.land z 127)
    ∧ flag16 z = flag16 (Z.land z 127) ∧ flag32 z = flag32 (Z.land z 127)
    ∧ dotted z = dotted (Z.land z 127)
    ∧ Z.land (Z.lor z 64) 127 = Z.lor (Z.land z 127) 64)
    by (intros z Hz; byte_fact z).
  destruct (Hf x Hx) as (-> & -> & -> & -> & -> & ->).
  destruct (Hf y Hy) as (-> & -> & -> & -> & -> & ->).
  rewrite H. repeat split; reflexivity.
Qed.

Section Alike.
Variables b b' : Board.
Hypothesis Hal : alike b b'.

Lemma alike_len : Z.of_nat (length b) = 64 ∧ Z.of_nat (length b') = 64.
Proof. destruct Hal as (H & H' & _). split; apply wf_length; assumption. Qed.

Lemma rd_alike (k : Z) :
  orel (λ x y, byte x ∧ byte y ∧ low7 x y) (rd b k) (rd b' k).
Proof.
  destruct Hal as (Hwf & Hwf' & Hc). destruct alike_len as [Hl Hl'].
  destruct (Z_lt_dec k 0) as [Hneg|Hnn].
  { unfold rd. destruct (Z.leb_spec 0 k); [lia|]. exact I. }
  destruct (Z_lt_dec k 64) as [Hlt|Hge].
  - rewrite (rd_cell b k), (rd_cell b' k) by lia. cbn.
    split; [apply wf_cell; [assumption|lia]|].
    split; [apply wf_cell; [assumption|lia]|]. apply Hc. lia.
  - unfold rd. destruct (Z.leb_spec 0 k); [|exact I].
    rewrite !lookup_ge_None_2 by lia. exact I.
Qed.

Lemma wr_alike (k v v' : Z) :
  byte v → byte v' → low7 v v' → orel alike (wr b k v) (wr b' k v').
Proof.
  intros Hv Hv' Hvv.
  destruct Hal as (Hwf & Hwf' & Hc). destruct alike_len as [Hl Hl'].
  unfold wr. rewrite Hl, Hl'.
  destruct ((0 <=? k) && (k <? 64)) eqn:Hr; [|exact I]. cbn.
  apply andb_true_iff in Hr as [H0 H1].
  rewrite !u8_byte by assumption.
  split; [apply wf_insert; assumption|].
  split; [apply wf_insert; assumption|].
  intros x Hx. rewrite !cell_insert by lia.
  destruct (x =? k); [exact Hvv|apply Hc, Hx].
Qed.

Lemma test_alike (k : Z) (p : Z → bool) :
  (∀ x y, byte x → byte y → low7 x y → p x = p y) →
  orel eq (test b k p) (test b' k p).
Proof.
  intros Hp. unfold test. eapply orel_bind; [apply rd_alike|].
  intros x y (Hx & Hy & Hxy). cbn. apply Hp; assumption.
Qed.

Lemma differ_alike (k i : Z) : orel eq (differ b k i) (differ b' k i).
Proof.
  unfold differ. eapply orel_bind; [apply rd_alike|].
  intros x y (Hx & Hy & Hxy). eapply orel_bind; [apply rd_alike|].
  intros x2 y2 (Hx2 & Hy2 & Hxy2). cbn.
  destruct (low7_fields x y Hx Hy Hxy) as (_ & -> & _).
  destruct (low7_fields x2 y2 Hx2 Hy2 Hxy2) as (_ & -> & _). reflexivity.
Qed.

Lemma dot_alike (k : Z) : orel alike (dot b k) (dot b' k).
Proof.
  unfold dot. eapply orel_bind; [apply rd_alike|].
  intros x y (Hx & Hy & Hxy). apply wr_alike.
  - clear - Hx. byte_fact x.
  - clear - Hy. byte_fact y.
  - apply (low7_fields x y Hx Hy Hxy).
Qed.

Lemma dotSquare_alike (pos n : Z) :
  orel (λ p q, alike p.1 q.1 ∧ p.2 = q.2)
    (dotSquare b pos n) (dotSquare b' pos n).
Proof.
  assert (Hw : ∀ x y r, byte x → byte y → low7 x y →
    orel (λ p q : Board * Z, alike p.1 q.1 ∧ p.2 = q.2)
      (wr b n (Z.lor x 64) ≫= λ b0, Some (b0, r))
      (wr b' n (Z.lor y 64) ≫= λ b0, Some (b0, r))).
  { intros x y r Hx Hy Hxy. eapply orel_bind.
    - apply wr_alike.
      + clear - Hx. byte_fact x.
      + clear - Hy. byte_fact y.
      + apply (low7_fields x y Hx Hy Hxy).
    - intros c c' Hc. cbn. auto. }
  unfold dotSquare. eapply orel_bind; [apply rd_alike|].
  intros x y (Hx & Hy & Hxy). cbv beta.
  destruct (low7_fields x y Hx Hy Hxy) as (-> & _).
  destruct (piece y =? NONE); [apply Hw; assumption|].
  eapply orel_bind; [apply rd_alike|].
  intros p q (Hp & Hq & Hpq). cbv beta.
  eapply orel_bind; [apply rd_alike|].
  intros x2 y2 (Hx2 & Hy2 & Hxy2). cbv beta.
  destruct (low7_fields p q Hp Hq Hpq) as (_ & -> & _).
  destruct (low7_fields x2 y2 Hx2 Hy2 Hxy2) as (_ & -> & _).
  destruct (negb (color q =? color y2)); [apply Hw; assumption|].
  cbn. auto.
Qed.

Lemma dotSquare__alike (pos n : Z) :
  orel alike (dotSquare_ b pos n) (dotSquare_ b' pos n).
Proof.
  unfold dotSquare_. pose proof (dotSquare_alike pos n) as H.
  destruct (dotSquare b pos n) as [[c r]|], (dotSquare b' pos n) as [[c' r']|];
    cbn in *; tauto.
Qed.

End Alike.

Lemma andM_alike (a a' c c' : option bool) :
  orel eq a a' → orel eq c c' → orel eq (a &&& c) (a' &&& c').
Proof.
  intros Ha Hc. apply orel_eq in Ha, Hc. subst. apply orel_eq_refl.
Qed.

Lemma orM_alike (a a' c c' : option bool) :
  orel eq a a' → orel eq c c' → orel eq (a ||| c) (a' ||| c').
Proof.
  intros Ha Hc. apply orel_eq in Ha, Hc. subst. apply orel_eq_refl.
Qed.

Lemma dot_if_alike (c c' : option bool) (b b' : Board) (k : Z) :
  alike b b' → orel eq c c' → orel alike (dot_if c b k) (dot_if c' b' k).
Proof.
  intros Hal Hc. unfold dot_if. eapply orel_bind; [exact Hc|].
  intros t t' <-. destruct t; [apply dot_alike, Hal|exact Hal].
Qed.

Lemma dotSquare_if_alike (c c' : option bool) (b b' : Board) (i k : Z) :
  alike b b' → orel eq c c' →
  orel alike (dotSquare_if c b i k) (dotSquare_if c' b' i k).
Proof.
  intros Hal Hc. unfold dotSquare_if. eapply orel_bind; [exact Hc|].
  intros t t' <-. destruct t; [apply dotSquare__alike, Hal|exact Hal].
Qed.

Lemma slide_alike (guard : Z → bool) (step i : Z) (fuel : nat) :
  ∀ b b' j, alike b b' →
    orel alike (slide fuel guard step b i j) (slide fuel guard step b' i j).
Proof.
  induction fuel as [|fuel IH]; intros b b' j Hal; [exact I|].
  cbn [slide]. destruct (guard j); [|exact Hal].
  eapply orel_bind; [apply dotSquare_alike, Hal|].
  intros [c r] [c' r'] [Hc Hr]. cbn [fst snd] in *. subst r'.
  destruct (negb (r =? 1)); [exact Hc|apply IH, Hc].
Qed.

Lemma field_tests :
  (∀ p x y, byte x → byte y → low7 x y → is_piece p x = is_piece p y)
  ∧ (∀ x y, byte x → byte y → low7 x y → occupied x = occupied y)
  ∧ (∀ x y, byte x → byte y → low7 x y → has16 x = has16 y)
  ∧ (∀ x y, byte x → byte y → low7 x y → has32 x = has32 y)
  ∧ (∀ x y, byte x → byte y → low7 x y →
       negb (dotted x =? 0) = negb (dotted y =? 0)).
Proof.
  repeat split; intros; unfold is_piece, occupied, has16, has32;
    match goal with
    | Hx : byte ?x, Hy : byte ?y, H : low7 ?x ?y |- _ =>
        destruct (low7_fields x y Hx Hy H) as (Hp & _ & H16 & H32 & Hd & _)
    end; congruence.
Qed.

Ltac rel Hal :=
  repeat first
    [ exact Hal
    | apply orel_eq_refl
    | apply andM_alike
    | apply orM_alike
    | apply differ_alike; exact Hal
    | apply test_alike; [exact Hal|apply field_tests]
    | apply dot_if_alike; [exact Hal|]
    | apply dotSquare_if_alike; [exact Hal|]
    | apply slide_alike; exact Hal ].

Ltac rel_bind Hal :=
  eapply orel_bind;
  [ first [ apply dot_if_alike; [exact Hal|]
          | apply dotSquare_if_alike; [exact Hal|]
          | apply slide_alike; exact Hal ];
    unfold capture, en_passant; rel Hal
  | clear Hal; intros ? ? Hal; cbv beta ].

Lemma dotDiagonals_alike (b b' : Board) (i : Z) :
  alike b b' → orel alike (dotDiagonals b i) (dotDiagonals b' i).
Proof. intros Hal. unfold dotDiagonals. repeat rel_bind Hal. rel Hal. Qed.

Lemma dotStraights_alike (b b' : Board) (i : Z) :
  alike b b' → orel alike (dotStraights b i) (dotStraights b' i).
Proof. intros Hal. unfold dotStraights. repeat rel_bind Hal. rel Hal. Qed.

Lemma kingSteps_alike (b b' : Board) (i : Z) :
  alike b b' → orel alike (kingSteps b i) (kingSteps b' i).
Proof.
  intros Hal. unfold kingSteps. cbv zeta. repeat rel_bind Hal. rel Hal.
Qed.

Lemma kingCastle_alike (b b' : Board) (i : Z) :
  alike b b' → orel alike (kingCastle b i) (kingCastle b' i).
Proof.
  intros Hal. unfold kingCastle. eapply orel_bind; [apply rd_alike, Hal|].
  intros x1 y1 (Hx1 & Hy1 & Hxy1). cbv beta.
  rewrite (proj1 (proj2 (proj2 field_tests)) x1 y1 Hx1 Hy1 Hxy1).
  destruct (has16 y1); [|exact Hal].
  destruct (Z.land i 7 =? 3); repeat rel_bind Hal; rel Hal.
Qed.

Lemma calculateMoves_alike (b b' : Board) (i : Z) :
  alike b b' → orel alike (calculateMoves b i) (calculateMoves b' i).
Proof.
  intros Hal. unfold calculateMoves.
  eapply orel_bind; [apply rd_alike, Hal|].
  intros x y (Hx & Hy & Hxy). cbv beta zeta.
  destruct (low7_fields x y Hx Hy Hxy) as (Hp & _ & H16 & _).
  rewrite Hp.
  destruct (piece y =? PAWN).
  { unfold pawnMoves. eapply orel_bind; [apply rd_alike, Hal|].
    intros x1 y1 (Hx1 & Hy1 & Hxy1). cbv beta.
    rewrite (proj1 (proj2 (proj2 field_tests)) x1 y1 Hx1 Hy1 Hxy1).
    destruct (has16 y1); repeat rel_bind Hal;
      unfold capture, en_passant; rel Hal. }
  destruct (piece y =? KNIGHT).
  { unfold knightMoves. cbv zeta. repeat rel_bind Hal. rel Hal. }
  destruct (piece y =? BISHOP); [apply dotDiagonals_alike, Hal|].
  destruct (piece y =? QUEEN).
  { eapply orel_bind; [apply dotDiagonals_alike, Hal|].
    intros c c' Hc. apply dotStraights_alike, Hc. }
  destruct (piece y =? ROOK); [apply dotStraights_alike, Hal|].
  destruct (piece y =? KING); [|exact Hal].
  eapply orel_bind; [apply kingSteps_alike, Hal|].
  intros c c' Hc. apply kingCastle_alike, Hc.
Qed.

Lemma attacks_king_alike (b b' : Board) (j : Z) :
  alike b b' → attacks_king b j → attacks_king b' j.
Proof.
  intros Hal (bc & k & Hbc & Hk & Hd & Hp).
  pose proof (calculateMoves_alike b b' j Hal) as Hrel.
  rewrite Hbc in Hrel.
  destruct (calculateMoves b' j) as [bc'|] eqn:Hbc'; [|contradiction].
  cbn in Hrel. destruct Hrel as (Hwf & Hwf' & Hc).
  destruct (low7_fields _ _ (wf_cell bc k Hwf Hk) (wf_cell bc' k Hwf' Hk)
              (Hc k Hk)) as (Hp' & _ & _ & _ & Hd' & _).
  exists bc', k. rewrite <- Hp', <- Hd'. auto.
Qed.

(** X19: [calculateMoves] does not read the selection.  On two boards
    that agree on the lower seven bits of every square it has the same
    outcome: both runs leave the array, or both return, with boards that
    again agree on the lower seven bits of every square. *)
Theorem calculateMoves_ignores_selection (b b' : Board) (i : Z) :
  wf_board b → wf_board b' →
  (∀ k, 0 ≤ k < 64 → Z.land (cell b k) 0x7f = Z.land (cell b' k) 0x7f) →
  match calculateMoves b i, calculateMoves b' i with
  | Some c, Some c' =>
      ∀ k, 0 ≤ k < 64 → Z.land (cell c k) 0x7f = Z.land (cell c' k) 0x7f
  | None, None => True
  | _, _ => False
  end.
Proof.
  intros Hwf Hwf' Hsame.
  pose proof (calculateMoves_alike b b' i (conj Hwf (conj Hwf' Hsame))) as H.
  destruct (calculateMoves b i), (calculateMoves b' i); cbn in H;
    first [exact H | apply H].
Qed.


(** ** Turns, selection and dots in a game *)

Lemma lxor_flip (t : Z) : t = 0 ∨ t = 1 → Z.lxor t 1 = 1 - t.
Proof. intros [-> | ->]; reflexivity. Qed.

Lemma reachable_selected (st : Board * Z) (i : Z) :
  reachable st → 0 ≤ i < 64 → dotted (cell st.1 i) ≠ 0 →
  ∃ j, only_selected st.1 j ∧ generated st.1 j i
       ∧ piece (cell st.1 j) ≠ NONE ∧ color (cell st.1 j) = Z.lxor st.2 1.
Proof.
  intros Hreach Hi Hd.
  destruct (reachable_move_contract st i Hreach Hi Hd) as (j & Hsel & Hgen).
  destruct (reachable_play_inv st Hreach) as (_ & Hown & _).
  exists j. split; [exact Hsel|]. split; [exact Hgen|]. apply Hown, Hsel.
Qed.

(** X14: the turn is 0 or 1 and passes exactly when a move is made: a
    click on a dot moves the selected piece, which belongs to the side
    to move (colour bit 0, white, when [is_whites_turn] is 1), and flips
    the turn; every other click keeps the turn and leaves on every
    square the piece, colour and flags it had. *)
Theorem click_turn (st : Board * Z) (i : Z) :
  reachable st → 0 ≤ i < 64 →
  ∃ st', click st i = Some st'
         ∧ (st.2 = 0 ∨ st.2 = 1)
         ∧ ((dotted (cell st.1 i) ≠ 0 ∧ st'.2 = 1 - st.2
             ∧ movePiece st.1 i = Some st'.1
             ∧ ∃ j, only_selected st.1 j ∧ piece (cell st.1 j) ≠ NONE
                    ∧ color (cell st.1 j) = 1 - st.2)
            ∨ (dotted (cell st.1 i) = 0 ∧ st'.2 = st.2
               ∧ position st'.1 = position st.1)).
Proof.
  intros Hreach Hi.
  destruct (click_defined st i Hreach Hi) as [st' Hclick].
  exists st'. split; [exact Hclick|].
  pose proof (reachable_session_inv st Hreach) as Hinv.
  pose proof (reachable_play_inv st Hreach) as (Ht & _).
  split; [exact Ht|].
  destruct st as [b t]. cbn [fst snd] in *.
  pose proof Hinv as (Hwf & _).
  pose proof (returns_eq _ _ _ (click_cases b t i Hinv Hi) Hclick) as Hcases.
  destruct Hcases as [[-> Hwhy]|[Hmove|[Hdesel|Hselect]]].
  - right. cbn [fst snd]. split; [|auto].
    destruct Hwhy as [Hz|[Hd _]]; [rewrite Hz; reflexivity|exact Hd].
  - destruct Hmove as (Hd & Hb2 & Ht' & _). left.
    split; [exact Hd|]. split; [rewrite Ht'; apply lxor_flip, Ht|].
    split; [exact Hb2|].
    destruct (reachable_selected (b, t) i Hreach Hi Hd)
      as (j & Hsel & _ & Hp & Hc).
    cbn [fst snd] in *. exists j. rewrite <- (lxor_flip t Ht). auto.
  - destruct Hdesel as (Hd & _ & _ & _ & Ht' & _ & Hsame). right.
    split; [exact Hd|]. split; [exact Ht'|].
    apply (position_eq b st'.1 Hwf Hsame).
  - destruct Hselect as (Hd & _ & _ & _ & Ht' & _ & Hsame & _). right.
    split; [exact Hd|]. split; [exact Ht'|].
    apply (position_eq b st'.1 Hwf Hsame).
Qed.

Lemma position_inv (b : Board) :
  session_inv b →
  wf_board (position b) ∧ castling_reads_inside (position b)
  ∧ (∀ k, 0 ≤ k < 64 → dotted (cell (position b) k) = 0).
Proof.
  intros (Hwf & Hsafe & _).
  pose proof (position_same b Hwf) as Hs.
  split; [apply Hs|]. split.
  - apply (castling_reads_inside_same b _ Hwf Hs Hsafe).
  - intros k Hk. unfold position.
    rewrite cell_fmap by (rewrite (wf_length b Hwf); lia).
    pose proof (wf_cell b k Hwf Hk) as Hb. byte_fact (cell b k).
Qed.

Lemma reachable_king_safe (st : Board * Z) :
  reachable st → king_safe (position st.1) (Z.lxor st.2 1).
Proof.
  intros Hreach.
  destruct (position_inv st.1 (reachable_session_inv st Hreach))
    as (Hwf & Hsafe & Hclean).
  destruct (reachable_play_inv st Hreach) as (_ & _ & _ & Hscan).
  destruct (verify_scan_safe (Z.lxor st.2 1) _ Hwf Hsafe Hclean)
    as (r & Hr & _ & Hiff).
  rewrite Hscan in Hr. injection Hr as <-. apply Hiff. reflexivity.
Qed.

(** X15: in every position of a game the side to move is not offered a
    king: for no piece of its colour does [calculateMoves] put a dot on
    a square that holds a king. *)
Theorem side_to_move_offered_no_king (st : Board * Z) (j : Z) :
  reachable st → 0 ≤ j < 64 →
  piece (cell (position st.1) j) ≠ NONE →
  color (cell (position st.1) j) = 1 - st.2 →
  ¬ attacks_king (position st.1) j.
Proof.
  intros Hreach Hj Hp Hc.
  destruct (reachable_play_inv st Hreach) as (Ht & _).
  apply (reachable_king_safe st Hreach j Hj Hp).
  rewrite Hc. symmetry. apply lxor_flip, Ht.
Qed.

Lemma removeDots_alike (b : Board) :
  wf_board b → alike ((λ x, Z.land x 0xbf) <$> b) (position b).
Proof.
  intros Hwf. split; [apply removeDots_wf, Hwf|].
  split; [apply position_same, Hwf|].
  intros k Hk. unfold position, low7.
  rewrite !cell_fmap by (rewrite (wf_length b Hwf); lia).
  pose proof (wf_cell b k Hwf Hk) as Hb. byte_fact (cell b k).
Qed.

(** X16: no king is ever taken: in a game the destination of a move
    never holds a king. *)
Theorem kings_never_captured (st : Board * Z) (i : Z) :
  reachable st → 0 ≤ i < 64 → dotted (cell st.1 i) ≠ 0 →
  piece (cell st.1 i) ≠ KING.
Proof.
  intros Hreach Hi Hd Hking.
  destruct (reachable_selected st i Hreach Hi Hd)
    as (j & Hsel & (b0 & bc & Hb0 & Hbc & Hdot) & Hp & Hc).
  pose proof (reachable_session_inv st Hreach) as Hinv.
  pose proof Hinv as (Hwf & Hsafe & _).
  pose proof Hsel as (Hj & _).
  rewrite (removeDots_spec _ Hwf) in Hb0. injection Hb0 as <-.
  pose proof (removeDots_wf _ Hwf) as Hwf0.
  assert (Hsafe0 : castling_reads_inside ((λ x, Z.land x 0xbf) <$> st.1)).
  { apply (castling_reads_inside_same st.1 _ Hwf); [|exact Hsafe].
    apply same_mod_3f, removeDots_same, Hwf. }
  pose proof (calculateMoves_returns _ j Hwf0 Hj (Hsafe0 j Hj)) as Hret.
  rewrite Hbc in Hret. cbn in Hret.
  destruct (dots_within_fields _ _ bc i Hwf0 Hret Hi) as (Hpi & _).
  destruct (removeDots_fields st.1 i Hwf Hi) as (_ & Hpi0 & _).
  cbv zeta in Hpi0.
  assert (Hatt : attacks_king ((λ x, Z.land x 0xbf) <$> st.1) j).
  { exists bc, i. split; [exact Hbc|]. split; [exact Hi|].
    split; [exact Hdot|]. rewrite Hpi, Hpi0. exact Hking. }
  apply (attacks_king_alike _ _ j (removeDots_alike st.1 Hwf)) in Hatt.
  destruct (same_3f_fields st.1 _ j Hwf (position_same st.1 Hwf) Hj)
    as (Hpj & Hcj & _).
  apply (reachable_king_safe st Hreach j Hj);
    [rewrite Hpj; exact Hp|rewrite Hcj; exact Hc|exact Hatt].
Qed.

(** A dot never lies on the selected square. *)
Lemma dots_are_checked_moves_aux (st : Board * Z) (i : Z) :
  reachable st → 0 ≤ i < 64 → dotted (cell st.1 i) ≠ 0 →
  ∃ j, only_selected st.1 j ∧ i ≠ j.
Proof.
  intros Hreach Hi Hd.
  destruct (reachable_selected st i Hreach Hi Hd)
    as (j & Hsel & Hgen & _).
  pose proof (reachable_session_inv st Hreach) as (Hwf & Hsafe & _).
  pose proof Hsel as (Hj & _).
  exists j. split; [exact Hsel|].
  intros ->. destruct Hgen as (b0 & bc & Hb0 & Hbc & Hdot).
  rewrite (removeDots_spec _ Hwf) in Hb0. injection Hb0 as <-.
  pose proof (removeDots_wf _ Hwf) as Hwf0.
  assert (Hsafe0 : castling_reads_inside ((λ x, Z.land x 0xbf) <$> st.1)).
  { apply (castling_reads_inside_same st.1 _ Hwf); [|exact Hsafe].
    apply same_mod_3f, removeDots_same, Hwf. }
  rewrite (calculateMoves_self _ bc j Hwf0 Hj (Hsafe0 j Hj) Hbc) in Hdot.
  apply Hdot, removeDots_dotted; assumption.
Qed.

(** X17: every dot on the board of a game is a checked move.  When a
    square carries a dot, exactly one square is selected, it is another
    square, [calculateMoves] offers its piece the dotted square, and on
    the board that [movePiece] makes of the click no piece of the other
    side is offered a square that holds a king. *)
Theorem dots_are_checked_moves (st : Board * Z) (i : Z) :
  reachable st → 0 ≤ i < 64 → dotted (cell st.1 i) ≠ 0 →
  ∃ j b2, only_selected st.1 j ∧ i ≠ j ∧ generated st.1 j i
          ∧ movePiece st.1 i = Some b2 ∧ king_safe b2 st.2.
Proof.
  intros Hreach Hi Hd.
  destruct (reachable_selected st i Hreach Hi Hd)
    as (j & Hsel & Hgen & _).
  pose proof (reachable_session_inv st Hreach) as Hinv.
  pose proof Hinv as (Hwf & Hsafe & _).
  pose proof Hsel as (Hj & _).
  destruct (reachable_play_inv st Hreach) as (_ & _ & Hver & _).
  destruct (Hver i Hi Hd) as (b2 & Hb2 & Hscan).
  exists j, b2. split; [exact Hsel|]. split; [|split; [exact Hgen|]].
  - destruct (dots_are_checked_moves_aux st i Hreach Hi Hd)
      as (j' & Hsel' & Hne).
    rewrite <- (only_selected_unique st.1 j j' Hsel Hsel'). exact Hne.
  - split; [exact Hb2|].
    destruct (movePiece_clean st.1 i j Hwf Hsel Hsafe Hi)
      as (b2' & Hb2' & Hwf2 & Hsafe2 & Hidle).
    rewrite Hb2 in Hb2'. injection Hb2' as <-.
    destruct (verify_scan_safe st.2 b2 Hwf2 Hsafe2
                (λ k Hk, proj1 (Hidle k Hk))) as (r & Hr & _ & Hiff).
    rewrite Hscan in Hr. injection Hr as <-. apply Hiff. reflexivity.
Qed.

(** X18: a click on a piece of the side to move selects it, and a
    second click on it brings back the very board and turn there were:
    selecting and deselecting leave no trace. *)
Theorem select_then_deselect (st : Board * Z) (i : Z) :
  reachable st → idle st.1 → 0 ≤ i < 64 →
  piece (cell st.1 i) ≠ NONE → color (cell st.1 i) ≠ st.2 →
  ∃ b1, click st i = Some (b1, st.2) ∧ only_selected b1 i
        ∧ click (b1, st.2) i = Some st.
Proof.
  intros Hreach Hidle Hi Hp Hc.
  destruct (click_defined st i Hreach Hi) as [st1 Hclick1].
  pose proof (reachable_session_inv st Hreach) as Hinv.
  destruct st as [b t]. cbn [fst snd] in *.
  pose proof Hinv as (Hwf & _).
  destruct (Hidle i Hi) as [Hnd Hns].
  pose proof (returns_eq _ _ _ (click_cases b t i Hinv Hi) Hclick1) as Hc1.
  destruct Hc1 as [[_ Hwhy]|[Hmove|[Hdesel|Hselect]]].
  { exfalso. destruct Hwhy as [Hz|[_ [Hn|Hct]]];
      [apply Hp; rewrite Hz; reflexivity|contradiction..]. }
  { exfalso. apply Hmove, Hnd. }
  { exfalso. destruct Hdesel as (_ & Hs & _). contradiction. }
  destruct Hselect as (_ & _ & _ & _ & Ht1 & Hsel1 & Hsame1 & _).
  destruct st1 as [b1 t1]. cbn [fst snd] in *. subst t1.
  exists b1. split; [exact Hclick1|]. split; [exact Hsel1|].
  assert (Hreach1 : reachable (b1, t))
    by (apply (reach_click (b, t) (b1, t) i Hreach Hi Hclick1)).
  destruct (click_defined (b1, t) i Hreach1 Hi) as [st2 Hclick2].
  rewrite Hclick2. f_equal.
  pose proof (reachable_session_inv _ Hreach1) as Hinv1.
  cbn [fst] in Hinv1. pose proof Hinv1 as (Hwf1 & _).
  destruct (same_3f_fields b b1 i Hwf Hsame1 Hi) as (Hp1 & Hc1 & _).
  pose proof (returns_eq _ _ _ (click_cases b1 t i Hinv1 Hi) Hclick2) as Hc2.
  destruct Hc2 as [[_ Hwhy]|[Hmove|[Hdesel|Hselect]]].
  { exfalso. destruct Hwhy as [Hz|[_ [Hn|Hct]]].
    - apply Hp. rewrite <- Hp1, Hz. reflexivity.
    - apply Hp. rewrite <- Hp1. exact Hn.
    - apply Hc. rewrite <- Hc1. exact Hct. }
  { exfalso. destruct Hmove as (Hd & _).
    destruct (dots_are_checked_moves_aux (b1, t) i Hreach1 Hi Hd)
      as (j & Hsel & Hne).
    apply Hne.
    apply (only_selected_unique b1 j i Hsel Hsel1). }
  2:{ exfalso. destruct Hselect as (_ & Hs & _).
      destruct Hsel1 as (_ & Hs1 & _). contradiction. }
  destruct Hdesel as (_ & _ & _ & _ & Ht2 & Hidle2 & Hsame2).
  destruct st2 as [b2 t2]. cbn [fst snd] in *. subst t2. f_equal.
  rewrite <- (position_idle b2 (proj1 Hsame2) Hidle2).
  rewrite (position_eq b1 b2 Hwf1 Hsame2).
  rewrite (position_eq b b1 Hwf Hsame1).
  apply (position_idle b Hwf Hidle).
Qed.


(** ** Where the bytes of a move come from *)



(** ** The pieces of a game *)









(** ** The further properties at concrete positions *)

Example knight_selected_board_played :
  play 1 [1] = Some (knight_selected_board, 1).
Proof. vm_compute. reflexivity. Qed.

Example en_passant_board_played :
  play 1 en_passant_game = Some (en_passant_board, 1).
Proof. vm_compute. reflexivity. Qed.

Lemma pawn_selected_reachable : reachable (pawn_selected_board, 1).
Proof.
  apply (play_reachable 1 [8]); [reflexivity|vm_compute; reflexivity].
Defined.

Lemma click_index_tile_witness :
  0 ≤ tile_x 27 ∧ tile_x 27 + TILE_LEN ≤ WIN_WIDTH
  ∧ 0 ≤ tile_y 27 ∧ tile_y 27 + TILE_LEN ≤ WIN_HEIGHT
  ∧ click_index (tile_x 27 + 10) (tile_y 27 + 74) = 27.
Proof.
  apply (click_index_tile 27 10 74); rewrite ?tile_len; lia.
Defined.

Lemma click_index_window_witness :
  (700 < WIN_HEIGHT →
     0 ≤ click_index 100 700 < 64
     ∧ file (click_index 100 700) = 100 / TILE_LEN
     ∧ rank (click_index 100 700) = 700 / TILE_LEN)
  ∧ (WIN_HEIGHT ≤ 700 < 4 * WIN_HEIGHT →
     64 ≤ click_index 100 700 < 256
     ∧ mouse_down (setupBoard 1, 1) 100 700 = None).
Proof.
  apply (click_index_window (setupBoard 1, 1) 100 700).
  - apply wf_check_ok. reflexivity.
  - unfold WIN_WIDTH. lia.
  - lia.
Defined.

Lemma getTextureID_pieces_witness :
  0 ≤ getTextureID 17 < TEXTURES_NUM
  ∧ (piece 17 ≤ KING →
       getTextureID 17 = piece 17 - 1 + 6 * color 17
       ∧ getTextureID 17 < 12
       ∧ (piece 9 ≤ KING →
            (getTextureID 17 = getTextureID 9
             ↔ piece 17 = piece 9 ∧ color 17 = color 9)))
  ∧ getTextureID (Z.land 17 0xf8) = if color 17 =? 0 then 255 else 5.
Proof.
  apply (getTextureID_pieces 17 9); unfold byte; first [lia|discriminate].
Defined.

Lemma movePiece_without_selection_witness :
  movePiece (setupBoard 1) 24 = None.
Proof.
  apply movePiece_without_selection.
  - apply wf_check_ok. reflexivity.
  - intros k Hk. apply (setupBoard_idle 1 k Hk).
Defined.

Lemma calculateMoves_castling_out_of_bounds_witness :
  calculateMoves corner_king_board 1 = None.
Proof.
  apply calculateMoves_castling_out_of_bounds.
  - apply wf_check_ok. reflexivity.
  - reflexivity.
  - reflexivity.
  - lia.
Defined.

Lemma calculateMoves_only_dots_witness :
  ∃ b', calculateMoves (setupBoard 1) 8 = Some b' ∧ wf_board b'
        ∧ (∀ x, 0 ≤ x < 64 →
             (cell b' x = cell (setupBoard 1) x
              ∨ cell b' x = Z.lor (cell (setupBoard 1) x) 64)
             ∧ Z.land (cell b' x) 0xbf = Z.land (cell (setupBoard 1) x) 0xbf
             ∧ (dotted (cell (setupBoard 1) x) ≠ 0 → dotted (cell b' x) ≠ 0))
        ∧ cell b' 8 = cell (setupBoard 1) 8
        ∧ (piece (cell (setupBoard 1) 8) = NONE → b' = setupBoard 1).
Proof.
  apply (calculateMoves_only_dots (setupBoard 1) 8).
  - apply wf_check_ok. reflexivity.
  - lia.
  - intros H. discriminate H.
Defined.

Lemma calculateMoves_knight_witness :
  ∃ b', calculateMoves (setupBoard 1) 1 = Some b'
        ∧ ∀ x, 0 ≤ x < 64 →
            cell b' x = if knight_jump 1 x && takes (setupBoard 1) 1 x
                        then Z.lor (cell (setupBoard 1) x) 64
                        else cell (setupBoard 1) x.
Proof.
  apply (calculateMoves_knight (setupBoard 1) 1).
  - apply wf_check_ok. reflexivity.
  - lia.
  - reflexivity.
Defined.

Lemma calculateMoves_king_witness :
  ∃ b', calculateMoves castle_ready_board 3 = Some b'
        ∧ ∀ x, 0 ≤ x < 64 →
            has16 (cell castle_ready_board 3) = false
            ∨ (x ≠ 3 - 2 ∧ x ≠ 3 + 2) →
            cell b' x = if king_step 3 x && takes castle_ready_board 3 x
                        then Z.lor (cell castle_ready_board x) 64
                        else cell castle_ready_board x.
Proof.
  apply (calculateMoves_king castle_ready_board 3).
  - apply wf_check_ok. reflexivity.
  - lia.
  - reflexivity.
  - intros _. lia.
Defined.

Lemma calculateMoves_pawn_witness :
  ∃ b', calculateMoves (setupBoard 1) 8 = Some b'
        ∧ ∀ x, 0 ≤ x < 64 →
            cell b' x = if pawn_offer (setupBoard 1) 8 x
                        then Z.lor (cell (setupBoard 1) x) 64
                        else cell (setupBoard 1) x.
Proof.
  apply (calculateMoves_pawn (setupBoard 1) 8).
  - apply wf_check_ok. reflexivity.
  - lia.
  - reflexivity.
Defined.

Lemma movePiece_plain_witness :
  ∃ b', movePiece knight_selected_board 16 = Some b'
        ∧ cell b' 16
          = Z.land (cell knight_selected_board 1)
              (if (piece (cell knight_selected_board 1) =? ROOK)
                  || (piece (cell knight_selected_board 1) =? KING)
               then 15 else 31)
        ∧ cell b' 1 = NONE
        ∧ ∀ x, 0 ≤ x < 64 → x ≠ 16 → x ≠ 1 →
            cell b' x = Z.land (cell knight_selected_board x) 0x9f.
Proof.
  apply (movePiece_plain knight_selected_board 16 1).
  - apply wf_check_ok. reflexivity.
  - apply only_selected_check_ok. reflexivity.
  - lia.
  - lia.
  - left. reflexivity.
Defined.


Lemma movePiece_pawn_step_witness :
  ∃ b', movePiece pawn_selected_board 24 = Some b'
        ∧ cell b' 24
          = Z.lor (Z.land (cell pawn_selected_board 8) 31)
              (if (24 - 8 =? 16) || (8 - 24 =? 16) then 32 else 0)
        ∧ cell b' 8 = NONE
        ∧ ∀ x, 0 ≤ x < 64 → x ≠ 24 → x ≠ 8 →
            cell b' x = Z.land (cell pawn_selected_board x) 0x9f.
Proof.
  apply (movePiece_pawn_step pawn_selected_board 24 8).
  - apply wf_check_ok. reflexivity.
  - apply only_selected_check_ok. reflexivity.
  - lia.
  - lia.
  - reflexivity.
  - right. reflexivity.
Defined.

Lemma verifyMove_meaning_witness :
  ∃ b2 r, movePiece pawn_selected_board 24 = Some b2
          ∧ verifyMove pawn_selected_board 24 1 = Some (r, pawn_selected_board)
          ∧ (r = 0 ∨ r = 1) ∧ (r = 1 ↔ king_safe b2 1).
Proof.
  apply (verifyMove_meaning pawn_selected_board 24 1 8).
  - apply wf_check_ok. reflexivity.
  - apply only_selected_check_ok. reflexivity.
  - apply castling_reads_inside_check_ok. reflexivity.
  - lia.
Defined.

Lemma click_turn_witness :
  ∃ st', click (pawn_selected_board, 1) 24 = Some st'
         ∧ (1 = 0 ∨ 1 = 1)
         ∧ ((dotted (cell pawn_selected_board 24) ≠ 0 ∧ st'.2 = 1 - 1
             ∧ movePiece pawn_selected_board 24 = Some st'.1
             ∧ ∃ j, only_selected pawn_selected_board j
                    ∧ piece (cell pawn_selected_board j) ≠ NONE
                    ∧ color (cell pawn_selected_board j) = 1 - 1)
            ∨ (dotted (cell pawn_selected_board 24) = 0 ∧ st'.2 = 1
               ∧ position st'.1 = position pawn_selected_board)).
Proof.
  apply (click_turn (pawn_selected_board, 1) 24).
  - exact pawn_selected_reachable.
  - lia.
Defined.

Lemma side_to_move_offered_no_king_witness :
  ¬ attacks_king (position (setupBoard 1)) 1.
Proof.
  apply (side_to_move_offered_no_king (setupBoard 1, 1) 1).
  - apply (reach_setup 1).
  - lia.
  - discriminate.
  - reflexivity.
Defined.

Lemma kings_never_captured_witness :
  piece (cell pawn_selected_board 24) ≠ KING.
Proof.
  apply (kings_never_captured (pawn_selected_board, 1) 24).
  - exact pawn_selected_reachable.
  - lia.
  - discriminate.
Defined.

Lemma dots_are_checked_moves_witness :
  ∃ j b2, only_selected pawn_selected_board j ∧ 24 ≠ j
          ∧ generated pawn_selected_board j 24
          ∧ movePiece pawn_selected_board 24 = Some b2 ∧ king_safe b2 1.
Proof.
  apply (dots_are_checked_moves (pawn_selected_board, 1) 24).
  - exact pawn_selected_reachable.
  - lia.
  - discriminate.
Defined.

Lemma select_then_deselect_witness :
  ∃ b1, click (setupBoard 1, 1) 8 = Some (b1, 1) ∧ only_selected b1 8
        ∧ click (b1, 1) 8 = Some (setupBoard 1, 1).
Proof.
  apply (select_then_deselect (setupBoard 1, 1) 8).
  - apply (reach_setup 1).
  - apply (setupBoard_idle 1).
  - lia.
  - discriminate.
  - discriminate.
Defined.

Lemma calculateMoves_ignores_selection_witness :
  match calculateMoves (setupBoard 1) 8, calculateMoves marked_board 8 with
  | Some c, Some c' =>
      ∀ k, 0 ≤ k < 64 → Z.land (cell c k) 0x7f = Z.land (cell c' k) 0x7f
  | None, None => True
  | _, _ => False
  end.
Proof.
  apply (calculateMoves_ignores_selection (setupBoard 1) marked_board 8).
  - apply wf_check_ok. reflexivity.
  - apply wf_check_ok. reflexivity.
  - intros k Hk. apply Z.eqb_eq.
    apply (squares_cases
             (λ k, Z.land (cell (setupBoard 1) k) 0x7f
                   =? Z.land (cell marked_board k) 0x7f)
             ltac:(vm_compute; reflexivity) k Hk).
Defined.



(** A click on a dot makes the move and passes the turn. *)
Lemma click_moves (st : Board * Z) (i : Z) :
  reachable st → 0 ≤ i < 64 → dotted (cell st.1 i) ≠ 0 →
  ∃ st', click st i = Some st' ∧ movePiece st.1 i = Some st'.1
         ∧ st'.2 = Z.lxor st.2 1.
Proof.
  intros Hreach Hi Hd.
  destruct (click_defined st i Hreach Hi) as [st' Hclick].
  exists st'. split; [exact Hclick|].
  pose proof (reachable_session_inv st Hreach) as Hinv.
  destruct st as [b t]. cbn [fst snd] in *.
  pose proof (returns_eq _ _ _ (click_cases b t i Hinv Hi) Hclick) as Hcases.
  destruct Hcases as [[_ Hwhy]|[Hmove|[Hdesel|Hselect]]].
  - exfalso. destruct Hwhy as [Hz|[Hnd _]]; [|contradiction].
    apply Hd. rewrite Hz. reflexivity.
  - destruct Hmove as (_ & Hb2 & Ht' & _). auto.
  - destruct Hdesel as (Hnd & _). contradiction.
  - destruct Hselect as (Hnd & _). contradiction.
Qed.

(** ** En passant in a game *)

Lemma setupBoard_no_flag (w k : Z) :
  0 ≤ k < 64 → flag32 (cell (setupBoard w) k) = 0.
Proof.
  intros Hk.
  assert (Hall : forallb (λ p, flag32 (cell (setupBoard w) p) =? 0)
                   (Z.of_nat <$> seq 0 64) = true)
    by (destruct (setupBoard_cases w) as [-> | ->]; vm_compute; reflexivity).
  apply Z.eqb_eq. exact (squares_cases _ Hall k Hk).
Qed.

(** The en passant bit is only ever on the third to the sixth rank. *)
Lemma reachable_flag_rank (st : Board * Z) (k : Z) :
  reachable st → 0 ≤ k < 64 → flag32 (cell st.1 k) ≠ 0 → 16 ≤ k < 48.
Proof.
  intros Hreach. revert k.
  induction Hreach as [w|st st' i Hreach IH Hi Hclick]; intros k Hk Hf.
  { exfalso. apply Hf, setupBoard_no_flag, Hk. }
  pose proof (reachable_session_inv st Hreach) as Hinv.
  pose proof Hinv as (Hwf & _).
  destruct st as [b t]. cbn [fst] in *.
  destruct (returns_eq _ _ _ (click_returns b t i Hinv Hi) Hclick)
    as [_ [[Hd Hmove]|[_ Hsame]]].
  - destruct (reachable_move_contract (b, t) i Hreach Hi Hd)
      as (j & Hsel & Hgen).
    cbn [fst] in *.
    destruct (movePiece_en_passant_flag b i j Hwf Hsel Hi Hgen)
      as (b' & Hb' & Hiff & _).
    rewrite Hmove in Hb'. injection Hb' as <-.
    apply (Hiff k Hk) in Hf. destruct Hf as (-> & Hp & H16).
    apply (generated_double_step b j i Hwf (proj1 Hsel) Hi Hgen Hp H16).
  - apply (IH k Hk).
    destruct (same_3f_fields b st'.1 k Hwf Hsame Hk) as (_ & _ & _ & <-).
    exact Hf.
Qed.

(** X21: en passant in a game.  When the selected pawn is offered an
    empty square of another file, the square beside the pawn on that
    file holds a pawn of the other colour that carries the en passant
    bit (the pawn that has just gone two squares); the click moves the
    pawn to the offered square and takes that pawn off the board. *)
Theorem en_passant_in_play (st : Board * Z) (i j : Z) :
  let victim := if file i <? file j then j - 1 else j + 1 in
  reachable st → only_selected st.1 j → piece (cell st.1 j) = PAWN →
  0 ≤ i < 64 → dotted (cell st.1 i) ≠ 0 →
  piece (cell st.1 i) = NONE → file i ≠ file j →
  victim = beside j i
  ∧ piece (cell st.1 victim) = PAWN
  ∧ color (cell st.1 victim) ≠ color (cell st.1 j)
  ∧ flag32 (cell st.1 victim) ≠ 0
  ∧ ∃ st', click st i = Some st'
           ∧ st'.2 = Z.lxor st.2 1
           ∧ cell st'.1 i = Z.land (cell st.1 j) 31
           ∧ cell st'.1 j = NONE
           ∧ cell st'.1 victim = NONE
           ∧ ∀ x, 0 ≤ x < 64 → x ≠ i → x ≠ j → x ≠ victim →
               cell st'.1 x = Z.land (cell st.1 x) 0x9f.
Proof.
  intros victim Hreach Hsel Hp Hi Hd Hempty Hfile.
  pose proof (reachable_session_inv st Hreach) as Hinv.
  pose proof Hinv as (Hwf & _).
  pose proof Hsel as (Hj & _).
  destruct (reachable_move_contract st i Hreach Hi Hd) as (j' & Hsel' & Hgen).
  rewrite (only_selected_unique st.1 j j' Hsel Hsel') in Hgen. clear j' Hsel'.
  destruct Hgen as (b0 & bc & Hb0 & Hbc & Hdot).
  rewrite (removeDots_spec _ Hwf) in Hb0. injection Hb0 as <-.
  pose proof (removeDots_wf _ Hwf) as Hwf0.
  pose proof (λ k Hk, removeDots_fields st.1 k Hwf Hk) as Hf. cbv zeta in Hf.
  set (b0 := (λ x, Z.land x 0xbf) <$> st.1) in *. clearbody b0.
  destruct (Hf j Hj) as (_ & Hpj & Hcj & _).
  destruct (Hf i Hi) as (_ & Hpi & _ & _ & _ & Hdi & _).
  assert (Hoffer : pawn_offer b0 j i = true).
  { pose proof (pawn_dots b0 bc j Hwf0 Hj ltac:(congruence) Hbc i Hi) as Hc.
    destruct (pawn_offer b0 j i); [reflexivity|].
    rewrite Hc, Hdi in Hdot. contradiction. }
  unfold pawn_offer in Hoffer. cbv zeta in Hoffer.
  assert (Hne : (file i =? file j) = false) by (apply Z.eqb_neq; exact Hfile).
  unfold pawn_ahead in Hoffer. rewrite Hne in Hoffer. cbn [andb orb] in Hoffer.
  apply andb_true_iff in Hoffer as [Hdiag Hwhy].
  assert (Hocc : enemy_at b0 j i = false).
  { unfold enemy_at, occupied. rewrite Hpi, Hempty. reflexivity. }
  rewrite Hocc in Hwhy. cbn [orb] in Hwhy.
  assert (Hv : victim = beside j i ∧ 0 ≤ victim < 64
               ∧ rank i - rank j = (if has16 (cell b0 j) then 1 else -1)).
  { unfold pawn_diag in Hdiag. apply andb_true_iff in Hdiag as [Hdf Hdr].
    apply Z.eqb_eq in Hdf, Hdr. subst victim.
    unfold beside, square, file, rank in *.
    destruct (Z.ltb_spec (i mod 8) (j mod 8));
      (split; [zlia|split; [zlia|lia]]). }
  destruct Hv as (Hvb & Hvr & Hrank).
  rewrite <- Hvb in Hwhy. unfold passing_pawn in Hwhy.
  apply andb_true_iff in Hwhy as [Hwhy Hcol].
  apply andb_true_iff in Hwhy as [Hpawn Hflag].
  destruct (Hf victim Hvr) as (_ & Hpv & Hcv & _ & Hfv & _).
  apply Z.eqb_eq in Hpawn. rewrite Hpv in Hpawn.
  apply negb_true_iff, Z.eqb_neq in Hcol. rewrite Hcv, Hcj in Hcol.
  apply negb_true_iff, Z.eqb_neq in Hflag. rewrite Hfv in Hflag.
  split; [exact Hvb|]. split; [exact Hpawn|]. split; [exact Hcol|].
  split; [exact Hflag|].
  pose proof (reachable_flag_rank st victim Hreach Hvr Hflag) as Hrows.
  assert (Hrange : 8 ≤ i < 56 ∧ i ≠ victim).
  { rewrite Hvb in Hrows |- *. unfold beside, square, file, rank in *.
    destruct (has16 (cell b0 j)); zlia. }
  destruct (movePiece_en_passant_cells st.1 i j Hwf Hsel (proj1 Hrange)
              Hp Hempty Hfile (proj2 Hrange))
    as (b' & Hb' & _ & Hcells).
  destruct (click_moves st i Hreach Hi Hd) as (st' & Hclick & Hmove & Hturn).
  exists st'. split; [exact Hclick|]. split; [exact Hturn|].
  rewrite Hb' in Hmove. injection Hmove as <-. exact Hcells.
Qed.

(** ** Castling in a game *)

(** The castling branch of the [switch], square by square. *)
Lemma movePiece_castle_cells (b : Board) (i j : Z) :
  let corner := if i <? j then 8 * (i / 8) else 8 * (i / 8) + 7 in
  let beside := if i <? j then i + 1 else i - 1 in
  wf_board b → only_selected b j → 0 ≤ i < 64 →
  piece (cell b j) = KING →
  i / 8 = j / 8 → (j - i = 2 ∨ i - j = 2) → i ≠ corner →
  ∃ b', movePiece b i = Some b'
        ∧ cell b' i = Z.land (cell b j) 15
        ∧ cell b' beside = Z.land (cell b corner) 15
        ∧ cell b' corner = NONE
        ∧ cell b' j = NONE
        ∧ ∀ x, 0 ≤ x < 64 → x ≠ i → x ≠ beside → x ≠ corner → x ≠ j →
            cell b' x = Z.land (cell b x) 0x9f.
Proof.
  intros corner beside Hwf Hsel Hi Hk Hrank Hside Hnc.
  rewrite (movePiece_switch b i j Hwf Hsel).
  destruct Hsel as (Hj & _ & _).
  pose proof (cleared_wf b Hwf) as HwfB.
  pose proof (wf_length _ HwfB) as HlenB.
  pose proof (land7_mod i) as Hi7. pose proof (land7_mod j) as Hj7.
  pose proof (land_f8 i Hi) as Hi8.
  destruct (cleared_fields b j Hwf Hj) as (_ & Hpj & _).
  cbv zeta in Hpj.
  apply returns_Some. unfold relocate.
  rewrite (rd_cell (cleared b) j) by len. mb. rewrite Hpj, Hk.
  change (KING =? PAWN) with false. change (KING =? KING) with true.
  cbv iota.
  destruct Hside as [Hl|Hr].
  - assert (Hlt : (i <? j) = true) by (apply Z.ltb_lt; lia).
    subst corner beside. rewrite Hlt in *.
    mrun; try (exfalso; zlia).
    rewrite Hi8. unfold NONE.
    repeat (split; [frame_cells b Hwf|]).
    intros x Hx Hxi Hxb Hxc Hxj. frame_cells b Hwf.
  - assert (Hlt : (i <? j) = false) by (apply Z.ltb_ge; lia).
    subst corner beside. rewrite Hlt in *.
    mrun; try (exfalso; zlia).
    rewrite Hi8. replace (j + 1) with (i - 1) by lia. unfold NONE.
    repeat (split; [frame_cells b Hwf|]).
    intros x Hx Hxi Hxb Hxc Hxj. frame_cells b Hwf.
Qed.

(** X22: castling in a game.  A dot two squares along the array from
    the selected king is always a castling square: it lies on the
    king's rank and is empty, and the corner on that side holds a rook
    of the king's colour, both with their unmoved flag set.  The click
    puts the king on the dotted square and the rook on the square the
    king has passed over, both without their unmoved flag, empties the
    corner and the king's square, leaves the pieces of every other
    square where they are and passes the turn. *)
Theorem castling_in_play (st : Board * Z) (i j : Z) :
  let corner := if i <? j then 8 * (i / 8) else 8 * (i / 8) + 7 in
  let beside := if i <? j then i + 1 else i - 1 in
  reachable st → 0 ≤ i < 64 → dotted (cell st.1 i) ≠ 0 →
  only_selected st.1 j → piece (cell st.1 j) = KING →
  (j - i = 2 ∨ i - j = 2) →
  rank i = rank j
  ∧ piece (cell st.1 i) = NONE
  ∧ piece (cell st.1 corner) = ROOK
  ∧ color (cell st.1 corner) = color (cell st.1 j)
  ∧ has16 (cell st.1 corner) = true ∧ has16 (cell st.1 j) = true
  ∧ ∃ st', click st i = Some st'
           ∧ st'.2 = Z.lxor st.2 1
           ∧ cell st'.1 i = Z.land (cell st.1 j) 15
           ∧ cell st'.1 beside = Z.land (cell st.1 corner) 15
           ∧ cell st'.1 corner = NONE
           ∧ cell st'.1 j = NONE
           ∧ ∀ x, 0 ≤ x < 64 → x ≠ i → x ≠ beside → x ≠ corner → x ≠ j →
               cell st'.1 x = Z.land (cell st.1 x) 0x9f.
Proof.
  intros corner beside Hreach Hi Hd Hsel Hk Hside.
  destruct (castling_move_in_play st i j Hreach Hi Hd Hsel Hk Hside)
    as (Hrank & Hnc & Hrook & Hcol & Hr16 & Hk16 & Hempty).
  fold corner in Hnc, Hrook, Hcol, Hr16.
  pose proof (reachable_session_inv st Hreach) as Hinv.
  pose proof Hinv as (Hwf & _).
  repeat (split; [assumption|]).
  destruct (movePiece_castle_cells st.1 i j Hwf Hsel Hi Hk Hrank Hside Hnc)
    as (b' & Hb' & Hcells).
  destruct (click_moves st i Hreach Hi Hd) as (st' & Hclick & Hmove & Hturn).
  exists st'. split; [exact Hclick|]. split; [exact Hturn|].
  rewrite Hb' in Hmove. injection Hmove as <-. exact Hcells.
Qed.

(** ** Squares held by the mover's own colour *)

Lemma takes_own (b : Board) (i x : Z) :
  piece (cell b x) ≠ NONE → color (cell b x) = color (cell b i) →
  takes b i x = false.
Proof.
  intros Hp Hc. unfold takes, square_rule.
  destruct (Z.eqb_spec (piece (cell b x)) NONE); [contradiction|].
  rewrite Hc, Z.eqb_refl. reflexivity.
Qed.

Lemma castle_gap_empty (b : Board) (i c : Z) (gap : list Z) (x : Z) :
  castle_ready false b i c gap = true → In x gap → piece (cell b x) = NONE.
Proof.
  unfold castle_ready. intros H Hin.
  apply andb_true_iff in H as [_ H]. rewrite forallb_forall in H.
  apply Z.eqb_eq, (H x Hin).
Qed.

(** X23: [calculateMoves] never puts a dot on a square that holds a
    piece of the colour of the piece asked about, with one exception:
    the en passant operand of the pawn's capture tests, which looks at
    the square beside the pawn and not at the square that gets the
    dot. *)
Theorem calculateMoves_own_colour (b : Board) (i : Z) :
  wf_board b → 0 ≤ i < 64 →
  (piece (cell b i) = KING → has16 (cell b i) = true → 3 ≤ i ≤ 60) →
  ∃ b', calculateMoves b i = Some b'
        ∧ ∀ x, 0 ≤ x < 64 → piece (cell b x) ≠ NONE →
            color (cell b x) = color (cell b i) →
            cell b' x ≠ cell b x →
            piece (cell b i) = PAWN
            ∧ pawn_diag (has16 (cell b i)) i x = true
            ∧ passing_pawn b i (beside i x) = true.
Proof.
  intros Hwf Hi Hsafe. pose proof (wf_length _ Hwf) as Hlen.
  apply returns_Some.
  destruct (Z.eq_dec (piece (cell b i)) BISHOP) as [Hb|Hb];
    [|destruct (Z.eq_dec (piece (cell b i)) ROOK) as [Hr|Hr];
      [|destruct (Z.eq_dec (piece (cell b i)) QUEEN) as [Hq|Hq]]].
  1-3: rewrite calculateMoves_slider_rays by tauto; cbn [returns];
       destruct (mark_rays_spec b i Hwf Hi _ b (dots_within_refl _ b Hwf)
                   (slider_rays_ok (piece (cell b i)) i Hi))
         as [[_ Hframe] Hcells];
       intros x Hx Hpx Hcx Hnew; exfalso; apply Hnew;
       destruct (Hframe x Hx) as [Heq|[(r & Hr' & Hxr) _]]; [exact Heq|];
       destruct (in_split _ _ Hxr) as (pre & post & Hsplit);
       rewrite (Hcells r pre x post Hr' Hsplit);
       pose proof (takes_own b i x Hpx Hcx) as Ht; unfold takes in Ht;
       rewrite Ht, andb_false_r; reflexivity.
  unfold calculateMoves. rewrite (rd_cell b i) by len.
  cbn [mbind option_bind]. cbv zeta.
  destruct (Z.eqb_spec (piece (cell b i)) PAWN) as [Hpawn|Hpawn].
  { eapply returns_impl; [apply pawnMoves_dotted; assumption|].
    intros b' [_ Hcells] x Hx Hpx Hcx Hnew.
    rewrite (Hcells x Hx), (pawn_guards_offer b i x Hi Hx) in Hnew.
    split; [exact Hpawn|].
    unfold pawn_offer in Hnew. cbv zeta in Hnew.
    assert (He : empty_at b x = false)
      by (unfold empty_at, is_piece; apply Z.eqb_neq; exact Hpx).
    assert (Hen : enemy_at b i x = false)
      by (unfold enemy_at; rewrite Hcx, Z.eqb_refl; apply andb_false_r).
    rewrite He, Hen, !andb_false_r in Hnew. cbn [orb] in Hnew.
    destruct (pawn_diag (has16 (cell b i)) i x); [|contradiction].
    destruct (passing_pawn b i (beside i x)); [auto|contradiction]. }
  destruct (Z.eqb_spec (piece (cell b i)) KNIGHT) as [Hkn|Hkn].
  { eapply returns_impl; [apply knightMoves_marks; assumption|].
    intros b' [_ Hcells] x Hx Hpx Hcx Hnew. exfalso. apply Hnew.
    rewrite (Hcells x Hx), (takes_own b i x Hpx Hcx), andb_false_r.
    reflexivity. }
  destruct (Z.eqb_spec (piece (cell b i)) BISHOP); [contradiction|].
  destruct (Z.eqb_spec (piece (cell b i)) QUEEN); [contradiction|].
  destruct (Z.eqb_spec (piece (cell b i)) ROOK); [contradiction|].
  destruct (Z.eqb_spec (piece (cell b i)) KING) as [Hk|Hk].
  - eapply returns_bind; [apply kingSteps_marks; assumption|].
    intros b1 Hm. cbv beta.
    pose proof Hm as [Hwf1 Hcells].
    pose proof (wf_length _ Hwf1) as Hlen1.
    destruct (dots_within_fields _ b b1 i Hwf (dotted_by_dots _ _ _ Hm) Hi)
      as (_ & _ & Hf & _).
    assert (H16 : has16 (cell b1 i) = has16 (cell b i))
      by (unfold has16; rewrite Hf; reflexivity).
    assert (Hkeep : ∀ x, 0 ≤ x < 64 → piece (cell b x) ≠ NONE →
              color (cell b x) = color (cell b i) → cell b1 x = cell b x).
    { intros x Hx Hpx Hcx.
      rewrite (Hcells x Hx), (takes_own b i x Hpx Hcx), andb_false_r.
      reflexivity. }
    assert (Hfar : ∀ c1 g1 c2 g2 b' y1 y2,
      (∀ x, x = y1 → In x g1) → (∀ x, x = y2 → In x g2) →
      (∀ x, 0 ≤ x < 64 →
         cell b' x = if (x =? y1) && castle_ready false b1 i c1 g1
                        || (x =? y2) && castle_ready false b1 i c2 g2
                     then Z.lor (cell b1 x) 64 else cell b1 x) →
      ∀ x, 0 ≤ x < 64 → piece (cell b x) ≠ NONE →
        color (cell b x) = color (cell b i) → cell b' x = cell b x).
    { intros c1 g1 c2 g2 b' y1 y2 Hg1 Hg2 Hb' x Hx Hpx Hcx.
      rewrite (Hb' x Hx), (Hkeep x Hx Hpx Hcx).
      destruct (Z.eqb_spec x y1) as [H1|H1]; cbn [andb orb].
      - destruct (castle_ready false b1 i c1 g1) eqn:Hr1; cbn [orb].
        + exfalso. apply Hpx. rewrite <- (Hkeep x Hx Hpx Hcx).
          apply (castle_gap_empty b1 i c1 g1 x Hr1), Hg1, H1.
        + destruct (Z.eqb_spec x y2) as [H2|H2]; cbn [andb]; [|reflexivity].
          destruct (castle_ready false b1 i c2 g2) eqn:Hr2; [|reflexivity].
          exfalso. apply Hpx. rewrite <- (Hkeep x Hx Hpx Hcx).
          apply (castle_gap_empty b1 i c2 g2 x Hr2), Hg2, H2.
      - destruct (Z.eqb_spec x y2) as [H2|H2]; cbn [andb]; [|reflexivity].
        destruct (castle_ready false b1 i c2 g2) eqn:Hr2; [|reflexivity].
        exfalso. apply Hpx. rewrite <- (Hkeep x Hx Hpx Hcx).
        apply (castle_gap_empty b1 i c2 g2 x Hr2), Hg2, H2. }
    destruct (has16 (cell b i)) eqn:Hflag.
    + specialize (Hsafe Hk eq_refl).
      destruct (Z.eq_dec (Z.land i 7) 3) as [H3|H3].
      * eapply returns_impl; [apply kingCastle_file3; assumption|].
        intros b' [_ Hb'] x Hx Hpx Hcx Hnew. exfalso. apply Hnew.
        refine (Hfar _ _ _ _ b' _ _ _ _ Hb' x Hx Hpx Hcx);
          intros y ->; cbn; auto.
      * pose proof (land7_mod i) as Hi7.
        eapply returns_impl;
          [apply kingCastle_file4; [assumption|zlia|assumption..]|].
        intros b' [_ Hb'] x Hx Hpx Hcx Hnew. exfalso. apply Hnew.
        refine (Hfar _ _ _ _ b' _ _ _ _ Hb' x Hx Hpx Hcx);
          intros y ->; cbn; auto.
    + unfold kingCastle. rewrite (rd_cell b1 i) by len.
      cbn [mbind option_bind]. rewrite H16. cbn [returns].
      intros x Hx Hpx Hcx Hnew. exfalso. apply Hnew, Hkeep; assumption.
  - cbn [returns]. intros x Hx Hpx Hcx Hnew. contradiction.
Qed.

(** ** The lines of the sliding pieces *)

Lemma prefixb_app (l1 l2 : list Z) :
  prefixb l1 l2 = true → ∃ post, l2 = l1 ++ post.
Proof.
  revert l2. induction l1 as [|x l1 IH]; intros l2 H.
  { exists l2. reflexivity. }
  destruct l2 as [|y l2]; [discriminate|]. cbn [prefixb] in H.
  apply andb_true_iff in H as [->%Z.eqb_eq H].
  destruct (IH l2 H) as [post ->]. exists post. reflexivity.
Qed.

Lemma slider_lines (p i x : Z) :
  p = BISHOP ∨ p = ROOK ∨ p = QUEEN → 0 ≤ i < 64 → 0 ≤ x < 64 →
  line_okb p i x = true.
Proof.
  intros Hp Hi Hx.
  apply (squares_pairs (line_okb p)); [|assumption..].
  destruct Hp as [->|[->| ->]]; vm_compute; reflexivity.
Qed.

(** X24: a bishop, a rook and a queen are offered exactly the squares
    of their lines (the diagonals, the file and the rank, both kinds
    for the queen) that are empty or hold a piece of the other colour
    and have only empty squares between the piece and them.  Every
    other square is left as it was. *)
Theorem calculateMoves_lines (b : Board) (i : Z) :
  wf_board b → 0 ≤ i < 64 →
  (piece (cell b i) = BISHOP ∨ piece (cell b i) = ROOK
   ∨ piece (cell b i) = QUEEN) →
  ∃ b', calculateMoves b i = Some b'
        ∧ ∀ x, 0 ≤ x < 64 →
            cell b' x
            = if on_line (piece (cell b i)) i x
                 && ray_clear b (line_path i x) && takes b i x
              then Z.lor (cell b x) 64 else cell b x.
Proof.
  intros Hwf Hi Hp.
  rewrite (calculateMoves_slider_rays b i Hwf Hi Hp).
  eexists. split; [reflexivity|].
  destruct (mark_rays_spec b i Hwf Hi _ b (dots_within_refl _ b Hwf)
              (slider_rays_ok (piece (cell b i)) i Hi)) as [[_ Hframe] Hcells].
  intros x Hx.
  pose proof (slider_lines (piece (cell b i)) i x Hp Hi Hx) as Hline.
  unfold line_okb in Hline.
  destruct (on_line (piece (cell b i)) i x); cbn [andb].
  - apply existsb_exists in Hline as (d & Hd & Hpre).
    apply prefixb_app in Hpre as [post Hray].
    rewrite <- app_assoc in Hray. cbn [app] in Hray.
    rewrite (Hcells (ray i d) (line_path i x) x post);
      [reflexivity| |exact Hray].
    apply list_elem_of_In, list_elem_of_fmap. exists d.
    split; [reflexivity|apply list_elem_of_In, Hd].
  - rewrite forallb_forall in Hline.
    destruct (Hframe x Hx) as [Heq|[(r & Hr & Hxr) _]]; [exact Heq|].
    exfalso. apply list_elem_of_In, list_elem_of_fmap in Hr as (d & -> & Hd).
    apply list_elem_of_In in Hd. specialize (Hline d Hd).
    apply negb_true_iff in Hline. apply memb_In in Hxr. congruence.
Qed.


(** ** En passant, castling and the sliding pieces at concrete positions *)

Lemma en_passant_board_reachable : reachable (en_passant_board, 1).
Proof.
  apply (play_reachable 1 en_passant_game);
    [reflexivity|vm_compute; reflexivity].
Defined.

Lemma castling_selected_reachable : reachable (castling_selected_board, 1).
Proof.
  apply (play_reachable 1 (castling_game ++ [3]));
    [reflexivity|vm_compute; reflexivity].
Defined.

Lemma en_passant_in_play_witness :
  33 = beside 32 41
  ∧ piece (cell en_passant_board 33) = PAWN
  ∧ color (cell en_passant_board 33) ≠ color (cell en_passant_board 32)
  ∧ flag32 (cell en_passant_board 33) ≠ 0
  ∧ ∃ st', click (en_passant_board, 1) 41 = Some st'
           ∧ st'.2 = Z.lxor 1 1
           ∧ cell st'.1 41 = Z.land (cell en_passant_board 32) 31
           ∧ cell st'.1 32 = NONE
           ∧ cell st'.1 33 = NONE
           ∧ ∀ x, 0 ≤ x < 64 → x ≠ 41 → x ≠ 32 → x ≠ 33 →
               cell st'.1 x = Z.land (cell en_passant_board x) 0x9f.
Proof.
  apply (en_passant_in_play (en_passant_board, 1) 41 32).
  - exact en_passant_board_reachable.
  - apply only_selected_check_ok. reflexivity.
  - reflexivity.
  - lia.
  - discriminate.
  - reflexivity.
  - discriminate.
Defined.

Lemma castling_in_play_witness :
  rank 1 = rank 3
  ∧ piece (cell castling_selected_board 1) = NONE
  ∧ piece (cell castling_selected_board 0) = ROOK
  ∧ color (cell castling_selected_board 0)
    = color (cell castling_selected_board 3)
  ∧ has16 (cell castling_selected_board 0) = true
  ∧ has16 (cell castling_selected_board 3) = true
  ∧ ∃ st', click (castling_selected_board, 1) 1 = Some st'
           ∧ st'.2 = Z.lxor 1 1
           ∧ cell st'.1 1 = Z.land (cell castling_selected_board 3) 15
           ∧ cell st'.1 2 = Z.land (cell castling_selected_board 0) 15
           ∧ cell st'.1 0 = NONE
           ∧ cell st'.1 3 = NONE
           ∧ ∀ x, 0 ≤ x < 64 → x ≠ 1 → x ≠ 2 → x ≠ 0 → x ≠ 3 →
               cell st'.1 x = Z.land (cell castling_selected_board x) 0x9f.
Proof.
  apply (castling_in_play (castling_selected_board, 1) 1 3).
  - exact castling_selected_reachable.
  - lia.
  - discriminate.
  - apply only_selected_check_ok. reflexivity.
  - reflexivity.
  - left. reflexivity.
Defined.

Lemma calculateMoves_own_colour_witness :
  ∃ b', calculateMoves rook_board 27 = Some b'
        ∧ ∀ x, 0 ≤ x < 64 → piece (cell rook_board x) ≠ NONE →
            color (cell rook_board x) = color (cell rook_board 27) →
            cell b' x ≠ cell rook_board x →
            piece (cell rook_board 27) = PAWN
            ∧ pawn_diag (has16 (cell rook_board 27)) 27 x = true
            ∧ passing_pawn rook_board 27 (beside 27 x) = true.
Proof.
  apply (calculateMoves_own_colour rook_board 27).
  - apply wf_check_ok; reflexivity.
  - lia.
  - discriminate.
Defined.

Lemma calculateMoves_lines_witness :
  ∃ b', calculateMoves rook_board 27 = Some b'
        ∧ ∀ x, 0 ≤ x < 64 →
            cell b' x
            = if on_line (piece (cell rook_board 27)) 27 x
                 && ray_clear rook_board (line_path 27 x)
                 && takes rook_board 27 x
              then Z.lor (cell rook_board x) 64 else cell rook_board x.
Proof.
  apply (calculateMoves_lines rook_board 27).
  - apply wf_check_ok; reflexivity.
  - lia.
  - right. left. reflexivity.
Defined.
